(** * WASAPI audio driver (audio/drivers/wasapi.c): shallow embedding

    The driver talks to the Windows audio engine through COM interfaces and
    Win32 calls.  Every such call is an event answered by the environment;
    the driver itself is a program in a state monad over the trace of
    events (API calls with their answers, log lines, and bytes copied into
    the engine's buffer), which the environment may inspect to answer.

    Machine integers are [Z] with the wrap-around written out.  The target
    is Win64: [size_t] and [ssize_t] are 64 bits wide, [UINT32], [DWORD]
    and [unsigned] are 32 bits wide. *)

From Stdlib Require Import Strings.String.
From Stdlib Require Import ZArith List Bool Lia.
From Stdlib Require Import Init.Byte.
Import ListNotations.
Open Scope Z_scope.

(** ** Machine integers *)

Definition to_size_t (z : Z) : Z := z mod 2 ^ 64.

Definition to_ssize_t (z : Z) : Z :=
  let u := z mod 2 ^ 64 in if u <? 2 ^ 63 then u else u - 2 ^ 64.

Definition to_uint32 (z : Z) : Z := z mod 2 ^ 32.

(** ** Windows SDK constants (Winerror.h, Audioclient.h, WinBase.h) *)

Definition HRESULT := Z.

Definition FAILED (hr : HRESULT) : bool := hr <? 0.

Definition AUDCLNT_ERR (n : Z) : HRESULT := 0x88890000 + n - 2 ^ 32.

Definition AUDCLNT_E_ALREADY_INITIALIZED : HRESULT := AUDCLNT_ERR 0x002.
Definition AUDCLNT_E_UNSUPPORTED_FORMAT : HRESULT := AUDCLNT_ERR 0x008.
Definition AUDCLNT_E_DEVICE_IN_USE : HRESULT := AUDCLNT_ERR 0x00a.
Definition AUDCLNT_E_EXCLUSIVE_MODE_NOT_ALLOWED : HRESULT := AUDCLNT_ERR 0x00e.
Definition AUDCLNT_E_BUFFER_SIZE_NOT_ALIGNED : HRESULT := AUDCLNT_ERR 0x019.

Definition AUDCLNT_STREAMFLAGS_EVENTCALLBACK : Z := 0x00040000.
Definition AUDCLNT_STREAMFLAGS_NOPERSIST : Z := 0x00080000.
Definition AUDCLNT_BUFFERFLAGS_SILENT : Z := 0x2.

Definition WAIT_OBJECT_0 : Z := 0.
Definition WAIT_FAILED : Z := 0xFFFFFFFF.
Definition INFINITE : Z := 0xFFFFFFFF.

Definition WAVE_FORMAT_PCM : Z := 0x0001.
Definition WAVE_FORMAT_EXTENSIBLE : Z := 0xFFFE.

Definition NULL : Z := 0.

(** ** Data *)

Inductive share_mode := AUDCLNT_SHAREMODE_SHARED | AUDCLNT_SHAREMODE_EXCLUSIVE.

(** The [Format] member of [WAVEFORMATEXTENSIBLE].  The extension members
    are written by [wasapi_set_format] with the same constants whenever
    [cbSize] announces them, so they carry no information of their own. *)
Record WAVEFORMATEX := mkWaveFormat {
  wFormatTag : Z;
  nChannels : Z;
  nSamplesPerSec : Z;
  nAvgBytesPerSec : Z;
  nBlockAlign : Z;
  wBitsPerSample : Z;
  cbSize : Z
}.

(** [REFERENCE_TIME] values handed to [IAudioClient::Initialize].  The
    re-aligned duration is computed in floating point from the rate and the
    aligned frame count; it is kept symbolic. *)
Inductive ref_time :=
| Ticks (t : Z)
| AlignedTicks (rate frames : Z).

(** The [double] latency, in milliseconds, kept symbolic: the requested
    value, zero, and the two reports computed from the engine's answers. *)
Inductive latency_ms :=
| LatRequested (ms : Z)
| LatZero
| LatShared (stream_latency default_period : Z)
| LatExclusive (stream_latency : Z).

Inductive iface := IEnumerator | ICollection | IDevice | IClient | IRenderer.

Inductive block := BlkHandle | BlkStaging | BlkCmpId.

Inductive call :=
| CoInitializeEx
| CoUninitialize
| CoCreateInstance
| EnumAudioEndpoints (enumerator : Z)
| GetDefaultAudioEndpoint (enumerator : Z)
| GetCount (collection : Z)
| Item (collection : Z) (i : Z)
| MultiByteToWideChar (id : string) (cch : Z)
| GetId (device : Z)
| lstrcmpW (a b : list Z)
| CoTaskMemFree
| Activate (device : Z)
| GetDevicePeriod (client : Z)
| Initialize (client : Z) (mode : share_mode) (flags : Z)
    (duration period : ref_time) (wf : WAVEFORMATEX)
| GetBufferSize (client : Z)
| GetStreamLatency (client : Z)
| GetCurrentPadding (client : Z)
| SetEventHandle (client : Z) (h : Z)
| GetService (client : Z)
| Start (client : Z)
| Stop (client : Z)
| GetBuffer (renderer : Z) (frames : Z)
| ReleaseBuffer (renderer : Z) (frames flags : Z)
| Release (i : iface) (p : Z)
| CreateEventA
| WaitForSingleObject (h : Z) (ms : Z)
| CloseHandle (h : Z)
| GetLastError
| calloc (b : block)
| malloc (b : block) (n : Z)
| free (b : block).

(** What a call gives back: the [HRESULT] of a COM method, and the values
    written through its out-parameters or returned directly ([val] is also
    the return value of a Win32 function). *)
Record response := mkResponse {
  hr : HRESULT;
  val : Z;
  val2 : Z;
  wstr : list Z
}.

Inductive log_msg :=
| Msg (s : string)
| MsgInitDevice (id : string)
| MsgComFailed (fn : string) (code : HRESULT)
| MsgSysFailed (fn : string) (code : Z)
| MsgInitClient (mode : share_mode) (float_fmt : bool) (rate : Z)
    (latency : option latency_ms)
| MsgClientInitialized (exclusive float_fmt : bool) (rate : Z)
    (latency : latency_ms)
| MsgSync (nonblock : bool).

Inductive log_level := LOG | WARN | ERR.

Inductive event :=
| Api (c : call) (r : response)
| Logged (l : log_level) (m : log_msg)
| EngineWrite (bytes : list byte).

Definition trace := list event.

(** The environment answers a call from the history so far. *)
Definition environment := trace -> call -> response.

(** [wasapi_t] *)
Record wasapi_t := mkWasapi {
  device : Z;
  client : Z;
  renderer : Z;
  write_event : Z;
  buffer : option (list byte);   (* NULL in shared mode *)
  buffer_size : Z;               (* in shared mode holds WASAPI engine buffer size *)
  buffer_usage : Z;              (* valid in exclusive mode only *)
  frame_size : Z;                (* 4 or 8 only *)
  blocking : bool;
  running : bool
}.

Definition set_buffer (w : wasapi_t) (b : option (list byte)) : wasapi_t :=
  mkWasapi (device w) (client w) (renderer w) (write_event w) b
    (buffer_size w) (buffer_usage w) (frame_size w) (blocking w) (running w).

Definition set_buffer_usage (w : wasapi_t) (u : Z) : wasapi_t :=
  mkWasapi (device w) (client w) (renderer w) (write_event w) (buffer w)
    (buffer_size w) u (frame_size w) (blocking w) (running w).

Definition set_blocking (w : wasapi_t) (b : bool) : wasapi_t :=
  mkWasapi (device w) (client w) (renderer w) (write_event w) (buffer w)
    (buffer_size w) (buffer_usage w) (frame_size w) b (running w).

Definition set_running (w : wasapi_t) (b : bool) : wasapi_t :=
  mkWasapi (device w) (client w) (renderer w) (write_event w) (buffer w)
    (buffer_size w) (buffer_usage w) (frame_size w) (blocking w) b.

(** ** The driver monad *)

Definition M (A : Type) : Type := trace -> A * trace.

Definition ret {A} (a : A) : M A := fun t => (a, t).

Definition bind {A B} (m : M A) (k : A -> M B) : M B :=
  fun t => let (a, t') := m t in k a t'.

Declare Scope drv_scope.
Delimit Scope drv_scope with drv.
Notation "x <- m ;; k" := (bind m (fun x => k))
  (at level 61, m at next level, right associativity) : drv_scope.
Notation "m ;; k" := (bind m (fun _ => k))
  (at level 61, right associativity) : drv_scope.
Notation "' pat <- m ;; k" := (bind m (fun x => match x with pat => k end))
  (at level 61, pat pattern, m at next level, right associativity) : drv_scope.
Open Scope drv_scope.

Definition emit (e : event) : M unit := fun t => (tt, t ++ [e]).

(** [memcpy (dst + off, src, n)] *)
Definition memcpy (dst : list byte) (off : Z) (src : list byte) (n : Z) : list byte :=
  firstn (Z.to_nat off) dst ++ firstn (Z.to_nat n) src
    ++ skipn (Z.to_nat (off + n)) dst.

Section Driver.

Variable env : environment.

Definition api (c : call) : M response :=
  fun t => let r := env t c in (r, t ++ [Api c r]).

(** *** Logging *)

Definition wasapi_log (msg : string) : M unit := emit (Logged LOG (Msg msg)).

Definition wasapi_warn (warn : string) : M unit := emit (Logged WARN (Msg warn)).

Definition wasapi_err (err : string) : M unit := emit (Logged ERR (Msg err)).

Definition wasapi_com_warn (fn : string) (h : HRESULT) : M unit :=
  emit (Logged WARN (MsgComFailed fn h)).

Definition wasapi_com_err (fn : string) (h : HRESULT) : M unit :=
  emit (Logged ERR (MsgComFailed fn h)).

Definition wasapi_sys_err (fn : string) : M unit :=
  e <- api GetLastError ;;
  emit (Logged ERR (MsgSysFailed fn (val e))).

(** [WASAPI_RELEASE (iface)]: release when non-null; the field is nulled by
    the caller of this helper. *)
Definition WASAPI_RELEASE (i : iface) (p : Z) : M unit :=
  if p =? NULL then ret tt else (_ <- api (Release i p) ;; ret tt).

(** *** Transport *)

Definition wasapi_flush (w : wasapi_t) (data : list byte) (size : Z) : M bool :=
  let frame_count := to_uint32 (size / frame_size w) in
  g <- api (GetBuffer (renderer w) frame_count) ;;
  if FAILED (hr g) then
    wasapi_com_err "IAudioRenderClient::GetBuffer" (hr g) ;; ret false
  else
    emit (EngineWrite (firstn (Z.to_nat size) data)) ;;
    r <- api (ReleaseBuffer (renderer w) frame_count 0) ;;
    if FAILED (hr r) then
      wasapi_com_err "IAudioRenderClient::ReleaseBuffer" (hr r) ;; ret false
    else ret true.

Definition wasapi_write_sh (w : wasapi_t) (data : list byte) (size : Z) : M Z :=
  let rest : M Z :=
    p <- api (GetCurrentPadding (client w)) ;;
    if FAILED (hr p) then
      wasapi_com_err "IAudioClient::GetCurrentPadding" (hr p) ;; ret (-1)
    else
      let padding := to_uint32 (val p) in
      let buffer_avail := to_size_t (buffer_size w - to_size_t (padding * frame_size w)) in
      if buffer_avail =? 0 then ret 0
      else
        let result := to_ssize_t (if size >? buffer_avail then buffer_avail else size) in
        br <- wasapi_flush w data (to_size_t result) ;;
        ret (if br then result else -1) in
  if blocking w then
    ir <- api (WaitForSingleObject (write_event w) INFINITE) ;;
    if val ir =? WAIT_OBJECT_0 then rest
    else wasapi_sys_err "WaitForSingleObject" ;; ret (-1)
  else rest.

(** The staging step of [wasapi_write_ex], after the full-buffer test. *)
Definition wasapi_stage (w : wasapi_t) (data : list byte) (size : Z) : Z * wasapi_t :=
  let buffer_avail := to_size_t (buffer_size w - buffer_usage w) in
  let result := to_ssize_t (if size <? buffer_avail then size else buffer_avail) in
  let staged := option_map
    (fun b => memcpy b (buffer_usage w) data (to_size_t result)) (buffer w) in
  (result, set_buffer_usage (set_buffer w staged) (to_size_t (buffer_usage w + result))).

Definition staging (w : wasapi_t) : list byte :=
  match buffer w with Some b => b | None => [] end.

Definition wasapi_write_ex (w : wasapi_t) (data : list byte) (size : Z)
  : M (Z * wasapi_t) :=
  if buffer_usage w =? buffer_size w then
    ir <- api (WaitForSingleObject (write_event w) (if blocking w then INFINITE else 0)) ;;
    if negb (val ir =? WAIT_OBJECT_0) && blocking w then
      wasapi_sys_err "WaitForSingleObject" ;; ret (-1, w)
    else if negb (val ir =? WAIT_OBJECT_0) then ret (0, w)
    else
      br <- wasapi_flush w (staging w) (buffer_size w) ;;
      if negb br then ret (-1, w)
      else ret (wasapi_stage (set_buffer_usage w 0) data size)
  else ret (wasapi_stage w data size).

Definition has_buffer (w : wasapi_t) : bool :=
  match buffer w with Some _ => true | None => false end.

(** The loop of the blocking branch of [wasapi_write]:
    [for (writen = 0, ir = -1; writen < size && ir; writen += ir)].
    [None] only when the fuel runs out before the loop ends. *)
Fixpoint wasapi_write_loop (fuel : nat) (w : wasapi_t) (data : list byte)
    (size writen ir : Z) : M (option (Z * wasapi_t)) :=
  if (writen <? size) && negb (ir =? 0) then
    match fuel with
    | O => ret None
    | S fuel' =>
        '(ir', w') <-
          (if has_buffer w then
             wasapi_write_ex w (skipn (Z.to_nat writen) data) (to_size_t (size - writen))
           else
             r <- wasapi_write_sh w (skipn (Z.to_nat writen) data)
                    (to_size_t (size - writen)) ;;
             ret (r, w)) ;;
        if ir' =? -1 then ret (Some (to_size_t (-1), w'))
        else wasapi_write_loop fuel' w' data size (to_size_t (writen + ir')) ir'
    end
  else ret (Some (writen, w)).

(** [wasapi_write]; the unused [bool u] is dropped.  Each turn of the
    blocking loop accepts at least one byte or leaves the loop, so [size]
    turns of fuel are enough (see [wasapi_write_total]). *)
Definition wasapi_write (w : wasapi_t) (data : list byte) (size : Z)
  : M (option (Z * wasapi_t)) :=
  if blocking w then
    r <- wasapi_write_loop (Z.to_nat size) w data size 0 (-1) ;;
    ret (option_map (fun p => (to_ssize_t (fst p), snd p)) r)
  else if has_buffer w then
    '(r, w') <- wasapi_write_ex w data size ;;
    ret (Some (to_ssize_t (to_size_t r), w'))
  else
    r <- wasapi_write_sh w data size ;;
    ret (Some (to_ssize_t (to_size_t r), w)).

(** *** Stream control *)

Definition wasapi_stop (w : wasapi_t) : M (bool * wasapi_t) :=
  r <- api (Stop (client w)) ;;
  if FAILED (hr r) then
    wasapi_com_err "IAudioClient::Stop" (hr r) ;; ret (negb (running w), w)
  else ret (true, set_running w false).

Definition wasapi_start (w : wasapi_t) : M (bool * wasapi_t) :=
  r <- api (Start (client w)) ;;
  if FAILED (hr r) then
    wasapi_com_err "IAudioClient::Start" (hr r) ;; ret (running w, w)
  else ret (true, set_running w true).

Definition wasapi_alive (w : wasapi_t) : bool := running w.

Definition wasapi_set_nonblock_state (w : wasapi_t) (nonblock : bool) : M wasapi_t :=
  emit (Logged LOG (MsgSync nonblock)) ;;
  ret (set_blocking w (negb nonblock)).

Definition wasapi_use_float (w : wasapi_t) : bool := frame_size w =? 8.

Definition wasapi_write_avail (w : wasapi_t) : M Z :=
  if has_buffer w then ret (to_size_t (buffer_size w - buffer_usage w))
  else
    p <- api (GetCurrentPadding (client w)) ;;
    if FAILED (hr p) then
      wasapi_com_err "IAudioClient::GetCurrentPadding" (hr p) ;; ret 0
    else ret (to_size_t (buffer_size w - to_size_t (to_uint32 (val p) * frame_size w))).

Definition wasapi_buffer_size (w : wasapi_t) : Z := buffer_size w.

(** [wasapi_free].  The handle's fields are read before the handle is
    freed; the event handle is kept in a local. *)
Definition wasapi_free (w : wasapi_t) : M unit :=
  let write_event := write_event w in
  WASAPI_RELEASE IRenderer (renderer w) ;;
  (if client w =? NULL then ret tt else (_ <- api (Stop (client w)) ;; ret tt)) ;;
  WASAPI_RELEASE IClient (client w) ;;
  WASAPI_RELEASE IDevice (device w) ;;
  _ <- api CoUninitialize ;;
  (if has_buffer w then (_ <- api (free BlkStaging) ;; ret tt) else ret tt) ;;
  _ <- api (free BlkHandle) ;;
  ir <- api (WaitForSingleObject write_event 20) ;;
  (if val ir =? WAIT_FAILED then wasapi_sys_err "WaitForSingleObject" else ret tt) ;;
  (* If event isn't signaled log and leak *)
  if val ir =? WAIT_OBJECT_0 then (_ <- api (CloseHandle write_event) ;; ret tt)
  else wasapi_err "Memory leak in wasapi_free".

(** *** Device resolution *)

Definition wasapi_check_device_id (device : Z) (id : string) : M bool :=
  l1 <- api (MultiByteToWideChar id 0) ;;
  if negb (val l1 >? 0) then
    wasapi_sys_err "MultiByteToWideChar" ;; ret false
  else
    let id_length := val l1 in
    m <- api (malloc BlkCmpId (id_length * 2)) ;;
    if val m =? NULL then wasapi_err "Out of memory" ;; ret false
    else
      l2 <- api (MultiByteToWideChar id id_length) ;;
      if negb (val l2 >? 0) then
        wasapi_sys_err "MultiByteToWideChar" ;;
        _ <- api (free BlkCmpId) ;; ret false
      else
        g <- api (GetId device) ;;
        if FAILED (hr g) then
          wasapi_com_err "IMMDevice::GetId" (hr g) ;;
          _ <- api (free BlkCmpId) ;; ret false
        else
          c <- api (lstrcmpW (wstr l2) (wstr g)) ;;
          (if val g =? NULL then ret tt else (_ <- api CoTaskMemFree ;; ret tt)) ;;
          _ <- api (free BlkCmpId) ;;
          ret (val c =? 0).

(** The loop [for (i = 0; i < dev_count; ++i)] of [wasapi_init_device],
    with [n] the number of turns left; it yields the value of [device]
    after the loop. *)
Fixpoint wasapi_init_device_loop (n : nat) (collection : Z) (id : string) (i : Z)
  : M Z :=
  match n with
  | O => ret NULL
  | S n' =>
      it <- api (Item collection i) ;;
      if FAILED (hr it) then
        wasapi_com_err "IMMDeviceCollection::Item" (hr it) ;;
        wasapi_init_device_loop n' collection id (i + 1)
      else
        let device := val it in
        found <- wasapi_check_device_id device id ;;
        if found then ret device
        else
          WASAPI_RELEASE IDevice device ;;
          wasapi_init_device_loop n' collection id (i + 1)
  end.

Definition wasapi_init_device_error (id : option string) (collection enumerator : Z)
  : M Z :=
  WASAPI_RELEASE ICollection collection ;;
  WASAPI_RELEASE IEnumerator enumerator ;;
  match id with
  | Some _ => wasapi_warn "Failed to initialize device"
  | None => wasapi_err "Failed to initialize device"
  end ;;
  ret NULL.

Definition wasapi_init_device (id : option string) : M Z :=
  match id with
  | Some s => emit (Logged LOG (MsgInitDevice s))
  | None => wasapi_log "Initializing default device .."
  end ;;
  e <- api CoCreateInstance ;;
  if FAILED (hr e) then
    wasapi_com_err "CoCreateInstance" (hr e) ;;
    wasapi_init_device_error id NULL NULL
  else
    let enumerator := val e in
    '(stop, collection, device) <-
      match id with
      | Some s =>
          c <- api (EnumAudioEndpoints enumerator) ;;
          if FAILED (hr c) then
            wasapi_com_err "IMMDeviceEnumerator::EnumAudioEndpoints" (hr c) ;;
            ret (true, NULL, NULL)
          else
            let collection := val c in
            n <- api (GetCount collection) ;;
            if FAILED (hr n) then
              wasapi_com_err "IMMDeviceCollection::GetCount" (hr n) ;;
              ret (true, collection, NULL)
            else
              d <- wasapi_init_device_loop (Z.to_nat (to_uint32 (val n)))
                     collection s 0 ;;
              ret (false, collection, d)
      | None =>
          d <- api (GetDefaultAudioEndpoint enumerator) ;;
          if FAILED (hr d) then
            wasapi_com_err "IMMDeviceEnumerator::GetDefaultAudioEndpoint" (hr d) ;;
            ret (true, NULL, NULL)
          else ret (false, NULL, val d)
      end ;;
    if stop || (device =? NULL) then
      wasapi_init_device_error id collection enumerator
    else
      WASAPI_RELEASE ICollection collection ;;
      WASAPI_RELEASE IEnumerator enumerator ;;
      wasapi_log "Device initialized" ;;
      ret device.

(** Lines 509-513 of [wasapi_init]: the requested device, else the
    default one. *)
Definition wasapi_init_resolve (dev_id : option string) : M Z :=
  d <- wasapi_init_device dev_id ;;
  if (d =? NULL) && (match dev_id with Some _ => true | None => false end)
  then wasapi_init_device None
  else ret d.

(** *** Session negotiation *)

Definition wasapi_pref_rate (i : Z) : Z :=
  if i >=? 4 then 0 else nth (Z.to_nat i) [48000; 44100; 96000; 192000] 0.

Definition wasapi_set_format (float_fmt : bool) (rate : Z) : WAVEFORMATEX :=
  if float_fmt then
    mkWaveFormat WAVE_FORMAT_EXTENSIBLE 2 rate (to_uint32 (rate * 8)) 8 32 22
  else
    mkWaveFormat WAVE_FORMAT_PCM 2 rate (to_uint32 (rate * 4)) 4 16 0.

Definition stream_flags : Z :=
  Z.lor AUDCLNT_STREAMFLAGS_EVENTCALLBACK AUDCLNT_STREAMFLAGS_NOPERSIST.

(** The end of a turn of the rate loop, shared by both negotiators:
    [rate_res = wasapi_pref_rate (j); if (rate_res == *rate) rate_res =
    wasapi_pref_rate (++j);] and then the loop's own [++j].  Yields the new
    [rate_res] and [j]. *)
Definition wasapi_next_rate (rate j : Z) : Z * Z :=
  let rate_res := wasapi_pref_rate j in
  if rate_res =? rate then (wasapi_pref_rate (j + 1), j + 2)
  else (rate_res, j + 1).

(** How one turn of the rate loop ends: with an answer of the engine to
    test, or by leaving the function. *)
Inductive turn :=
| Answered (client : Z) (dur : ref_time) (h : HRESULT)
| TurnReturnNull                         (* [return NULL] *)
| TurnGotoError (client : Z).            (* [goto error] *)

(** How the rate loop is left. *)
Inductive loop_exit :=
| Break (client : Z) (dur : ref_time) (h : HRESULT) (rate_res : Z)
    (* [i = 2; break;] *)
| Fallthrough (client : Z) (dur : ref_time) (h : HRESULT)
    (* [rate_res] reached 0 *)
| ReturnNull                             (* [return NULL] *)
| GotoError (client : Z)                 (* [goto error] *)
| OutOfFuel.

(** A turn of the rate loop of [wasapi_init_client_sh], up to the test
    on [hr]. *)
Definition wasapi_init_client_sh_turn (device : Z) (float_fmt_res : bool)
    (rate_res client : Z) : M turn :=
  emit (Logged LOG (MsgInitClient AUDCLNT_SHAREMODE_SHARED float_fmt_res
          rate_res None)) ;;
  let wf := wasapi_set_format float_fmt_res rate_res in
  r1 <- api (Initialize client AUDCLNT_SHAREMODE_SHARED stream_flags
               (Ticks 0) (Ticks 0) wf) ;;
  if hr r1 =? AUDCLNT_E_ALREADY_INITIALIZED then
    _ <- api (Release IClient client) ;;
    a <- api (Activate device) ;;
    if FAILED (hr a) then
      wasapi_com_err "IMMDevice::Activate" (hr a) ;; ret TurnReturnNull
    else
      r2 <- api (Initialize (val a) AUDCLNT_SHAREMODE_SHARED stream_flags
                   (Ticks 0) (Ticks 0) wf) ;;
      ret (Answered (val a) (Ticks 0) (hr r2))
  else ret (Answered client (Ticks 0) (hr r1)).

(** The rate loop of [wasapi_init_client_sh]:
    [for (j = 0; rate_res; ++j)] *)
Fixpoint wasapi_init_client_sh_rates (fuel : nat) (device rate : Z)
    (float_fmt_res : bool) (j rate_res client : Z) (h : HRESULT) : M loop_exit :=
  if rate_res =? 0 then ret (Fallthrough client (Ticks 0) h)
  else
    match fuel with
    | O => ret OutOfFuel
    | S fuel' =>
        x <- wasapi_init_client_sh_turn device float_fmt_res rate_res client ;;
        match x with
        | Answered client _ h =>
            if negb (h =? AUDCLNT_E_UNSUPPORTED_FORMAT) then
              ret (Break client (Ticks 0) h rate_res)
            else
              wasapi_warn "Unsupported format" ;;
              let (rate_res', j') := wasapi_next_rate rate j in
              wasapi_init_client_sh_rates fuel' device rate float_fmt_res
                j' rate_res' client h
        | TurnReturnNull => ret ReturnNull
        | TurnGotoError client => ret (GotoError client)
        end
    end.

(** The results written through [float_fmt], [rate] and [latency] travel
    with the returned client; a failed attempt leaves them as they were. *)
Record negotiated := mkNegotiated {
  n_client : Z;
  n_float_fmt : bool;
  n_rate : Z;
  n_latency : latency_ms
}.

(** No run of the rate loop takes more than five turns (see
    [rate_loops_terminate]). *)
Definition rate_fuel : nat := 5.

(** The format loop [for (i = 0; i < 2; ++i)] around the rate loop: once
    for float, once for pcm (requested first).  Yields how the loops were
    left and the final [float_fmt_res]. *)
Definition wasapi_init_client_sh_formats (device : Z) (float_fmt : bool)
    (rate client : Z) (h : HRESULT) : M (loop_exit * bool) :=
  x0 <- wasapi_init_client_sh_rates rate_fuel device rate float_fmt
          0 rate client h ;;
  match x0 with
  | Fallthrough client _ h =>
      x1 <- wasapi_init_client_sh_rates rate_fuel device rate (negb float_fmt)
              0 rate client h ;;
      ret (x1, negb float_fmt)
  | _ => ret (x0, float_fmt)
  end.

Definition wasapi_init_client_sh (device : Z) (float_fmt : bool) (rate : Z)
    (latency : latency_ms) : M negotiated :=
  let failed := mkNegotiated NULL float_fmt rate latency in
  a <- api (Activate device) ;;
  if FAILED (hr a) then
    wasapi_com_err "IMMDevice::Activate" (hr a) ;; ret failed
  else
    '(x, float_fmt_res) <-
      wasapi_init_client_sh_formats device float_fmt rate (val a) (hr a) ;;
    let finish (client : Z) (h : HRESULT) (rate_res : Z) : M negotiated :=
      if FAILED h then
        wasapi_com_err "IAudioClient::Initialize" h ;;
        WASAPI_RELEASE IClient client ;; ret failed
      else
        (* next two calls are allowed to fail (we losing latency info only) *)
        sl <- api (GetStreamLatency client) ;;
        if FAILED (hr sl) then
          wasapi_com_warn "IAudioClient::GetStreamLatency" (hr sl) ;;
          ret (mkNegotiated client float_fmt_res rate_res LatZero)
        else
          dp <- api (GetDevicePeriod client) ;;
          if FAILED (hr dp) then
            wasapi_com_warn "IAudioClient::GetDevicePeriod" (hr dp) ;;
            ret (mkNegotiated client float_fmt_res rate_res LatZero)
          else
            ret (mkNegotiated client float_fmt_res rate_res
                   (LatShared (val sl) (val dp))) in
    match x with
    | Break client _ h rate_res => finish client h rate_res
    | Fallthrough client _ h => finish client h 0
    | GotoError client => WASAPI_RELEASE IClient client ;; ret failed
    | ReturnNull | OutOfFuel => ret failed
    end.

(** [*latency * 10000.0 * 2.0 / 3.0] converted to [REFERENCE_TIME].  The
    negotiators are only entered with the requested latency (an [unsigned]
    turned into a [double]; a failed attempt leaves [*latency] as it was),
    where the product is exact and the truncated quotient is the integer
    one; the other forms are given their real-number value. *)
Definition latency_ticks (l : latency_ms) : Z :=
  match l with
  | LatRequested ms => (ms * 20000) / 3
  | LatZero => 0
  | LatShared s p => ((s + p) * 2) / 3
  | LatExclusive s => s
  end.

(** A turn of the rate loop of [wasapi_init_client_ex], up to the test
    on [hr]. *)
Definition wasapi_init_client_ex_turn (device : Z) (latency : latency_ms)
    (float_fmt_res : bool) (rate_res client : Z) (buffer_duration : ref_time)
  : M turn :=
  emit (Logged LOG (MsgInitClient AUDCLNT_SHAREMODE_EXCLUSIVE float_fmt_res
          rate_res (Some latency))) ;;
  let wf := wasapi_set_format float_fmt_res rate_res in
  r1 <- api (Initialize client AUDCLNT_SHAREMODE_EXCLUSIVE stream_flags
               buffer_duration buffer_duration wf) ;;
  let already (client : Z) (buffer_duration : ref_time) (h : HRESULT) : M turn :=
    if h =? AUDCLNT_E_ALREADY_INITIALIZED then
      _ <- api (Release IClient client) ;;
      a <- api (Activate device) ;;
      if FAILED (hr a) then
        wasapi_com_err "IMMDevice::Activate" (hr a) ;; ret TurnReturnNull
      else
        r3 <- api (Initialize (val a) AUDCLNT_SHAREMODE_SHARED stream_flags
                     (Ticks 0) (Ticks 0) wf) ;;
        ret (Answered (val a) buffer_duration (hr r3))
    else ret (Answered client buffer_duration h) in
  if hr r1 =? AUDCLNT_E_BUFFER_SIZE_NOT_ALIGNED then
    b <- api (GetBufferSize client) ;;
    if FAILED (hr b) then
      wasapi_com_err "IAudioClient::GetBufferSize" (hr b) ;;
      ret (TurnGotoError client)
    else
      let buffer_length := to_uint32 (val b) in
      _ <- api (Release IClient client) ;;
      a <- api (Activate device) ;;
      if FAILED (hr a) then
        wasapi_com_err "IMMDevice::Activate" (hr a) ;; ret TurnReturnNull
      else
        let buffer_duration := AlignedTicks rate_res buffer_length in
        r2 <- api (Initialize (val a) AUDCLNT_SHAREMODE_EXCLUSIVE stream_flags
                     buffer_duration buffer_duration wf) ;;
        already (val a) buffer_duration (hr r2)
  else already client buffer_duration (hr r1).

(** The rate loop of [wasapi_init_client_ex]. *)
Fixpoint wasapi_init_client_ex_rates (fuel : nat) (device rate : Z)
    (latency : latency_ms) (float_fmt_res : bool) (j rate_res client : Z)
    (buffer_duration : ref_time) (h : HRESULT) : M loop_exit :=
  if rate_res =? 0 then ret (Fallthrough client buffer_duration h)
  else
    match fuel with
    | O => ret OutOfFuel
    | S fuel' =>
        x <- wasapi_init_client_ex_turn device latency float_fmt_res rate_res
               client buffer_duration ;;
        match x with
        | Answered client buffer_duration h =>
            if negb (h =? AUDCLNT_E_UNSUPPORTED_FORMAT) then
              if negb (negb (h =? AUDCLNT_E_DEVICE_IN_USE)) then
                wasapi_warn "Device already in use" ;; ret (GotoError client)
              else if negb (negb (h =? AUDCLNT_E_EXCLUSIVE_MODE_NOT_ALLOWED)) then
                wasapi_warn "Exclusive mode disabled" ;; ret (GotoError client)
              else ret (Break client buffer_duration h rate_res)
            else
              wasapi_warn "Unsupported format" ;;
              let (rate_res', j') := wasapi_next_rate rate j in
              wasapi_init_client_ex_rates fuel' device rate latency float_fmt_res
                j' rate_res' client buffer_duration h
        | TurnReturnNull => ret ReturnNull
        | TurnGotoError client => ret (GotoError client)
        end
    end.

Definition wasapi_init_client_ex_formats (device : Z) (latency : latency_ms)
    (float_fmt : bool) (rate client : Z) (buffer_duration : ref_time)
    (h : HRESULT) : M (loop_exit * bool) :=
  x0 <- wasapi_init_client_ex_rates rate_fuel device rate latency float_fmt
          0 rate client buffer_duration h ;;
  match x0 with
  | Fallthrough client dur h =>
      x1 <- wasapi_init_client_ex_rates rate_fuel device rate latency
              (negb float_fmt) 0 rate client dur h ;;
      ret (x1, negb float_fmt)
  | _ => ret (x0, float_fmt)
  end.

Definition wasapi_init_client_ex (device : Z) (float_fmt : bool) (rate : Z)
    (latency : latency_ms) : M negotiated :=
  let failed := mkNegotiated NULL float_fmt rate latency in
  a <- api (Activate device) ;;
  if FAILED (hr a) then
    wasapi_com_err "IMMDevice::Activate" (hr a) ;; ret failed
  else
    let client := val a in
    p <- api (GetDevicePeriod client) ;;
    if FAILED (hr p) then
      wasapi_com_err "IAudioClient::GetDevicePeriod" (hr p) ;;
      WASAPI_RELEASE IClient client ;; ret failed
    else
      let minimum_period := val2 p in
      (* buffer_duration is 2/3 of requested latency (in 100ns units) *)
      let buffer_duration :=
        if latency_ticks latency <? minimum_period then minimum_period
        else latency_ticks latency in
      '(x, float_fmt_res) <-
        wasapi_init_client_ex_formats device latency float_fmt rate client
          (Ticks buffer_duration) (hr p) ;;
      let finish (client : Z) (h : HRESULT) (rate_res : Z) : M negotiated :=
        if FAILED h then
          wasapi_com_err "IAudioClient::Initialize" h ;;
          WASAPI_RELEASE IClient client ;; ret failed
        else
          (* next call is allowed to fail (we losing latency info only) *)
          sl <- api (GetStreamLatency client) ;;
          if FAILED (hr sl) then
            wasapi_com_warn "IAudioClient::GetStreamLatency" (hr sl) ;;
            ret (mkNegotiated client float_fmt_res rate_res LatZero)
          else
            ret (mkNegotiated client float_fmt_res rate_res
                   (LatExclusive (val sl))) in
      match x with
      | Break client _ h rate_res => finish client h rate_res
      | Fallthrough client _ h => finish client h 0
      | GotoError client => WASAPI_RELEASE IClient client ;; ret failed
      | ReturnNull | OutOfFuel => ret failed
      end.

(** [wasapi_init_client]; yields the client with the values left in
    [*exclusive], [*float_fmt] and [*rate]. *)
Definition wasapi_init_client (device : Z) (exclusive float_fmt : bool)
    (rate latency : Z) : M (bool * negotiated) :=
  let latency_res := LatRequested latency in
  '(exclusive', n) <-
    (if exclusive then
       n <- wasapi_init_client_ex device float_fmt rate latency_res ;;
       if n_client n =? NULL then
         n' <- wasapi_init_client_sh device (n_float_fmt n) (n_rate n) (n_latency n) ;;
         ret (if negb (n_client n' =? NULL) then false else exclusive, n')
       else ret (exclusive, n)
     else
       n <- wasapi_init_client_sh device float_fmt rate latency_res ;;
       if n_client n =? NULL then
         n' <- wasapi_init_client_ex device (n_float_fmt n) (n_rate n) (n_latency n) ;;
         ret (if negb (n_client n' =? NULL) then true else exclusive, n')
       else ret (exclusive, n)) ;;
  if n_client n =? NULL then
    wasapi_err "Failed to initialize client" ;; ret (exclusive', n)
  else
    emit (Logged LOG (MsgClientInitialized exclusive' (n_float_fmt n) (n_rate n)
            (n_latency n))) ;;
    ret (exclusive', n).

(** *** Open *)

(** [settings->audio.wasapi] *)
Record wasapi_settings := mkSettings {
  exclusive_mode : bool;
  float_format : bool
}.

(** The [error:] exit of [wasapi_init]. *)
Definition wasapi_init_error (w : wasapi_t) (com_initialized : bool)
  : M (option wasapi_t) :=
  WASAPI_RELEASE IRenderer (renderer w) ;;
  WASAPI_RELEASE IClient (client w) ;;
  WASAPI_RELEASE IDevice (device w) ;;
  (if write_event w =? NULL then ret tt
   else (_ <- api (CloseHandle (write_event w)) ;; ret tt)) ;;
  (if has_buffer w then (_ <- api (free BlkStaging) ;; ret tt) else ret tt) ;;
  _ <- api (free BlkHandle) ;;
  (if com_initialized then (_ <- api CoUninitialize ;; ret tt) else ret tt) ;;
  ret None.

(** [wasapi_init]; the unused [unsigned u] is dropped.  Yields the handle
    (or [None] for [NULL]) and what is left in [*new_rate] ([None] when it
    was not written). *)
Definition wasapi_init (settings : wasapi_settings) (dev_id : option string)
    (rate latency : Z) : M (option wasapi_t * option Z) :=
  let exclusive := exclusive_mode settings in
  let float_format := float_format settings in
  m <- api (calloc BlkHandle) ;;
  if val m =? NULL then wasapi_err "Out of memory" ;; ret (None, None)
  else
    let w := mkWasapi NULL NULL NULL NULL None 0 0 0 false false in
    ci <- api CoInitializeEx ;;
    if FAILED (hr ci) then
      wasapi_com_err "CoInitializeEx" (hr ci) ;;
      r <- wasapi_init_error w false ;; ret (r, None)
    else
      dev <- wasapi_init_resolve dev_id ;;
      let w := mkWasapi dev NULL NULL NULL None 0 0 0 false false in
      if dev =? NULL then r <- wasapi_init_error w true ;; ret (r, None)
      else
        '(exclusive, n) <- wasapi_init_client dev exclusive float_format rate latency ;;
        let float_format := n_float_fmt n in
        let new_rate := Some (n_rate n) in
        let w := mkWasapi dev (n_client n) NULL NULL None 0 0 0 false false in
        if n_client n =? NULL then r <- wasapi_init_error w true ;; ret (r, new_rate)
        else
          b <- api (GetBufferSize (n_client n)) ;;
          if FAILED (hr b) then
            wasapi_com_err "IAudioClient::GetBufferSize" (hr b) ;;
            r <- wasapi_init_error w true ;; ret (r, new_rate)
          else
            let frame_count := to_uint32 (val b) in
            let fsize := if float_format then 8 else 4 in
            let bsize := to_size_t (frame_count * fsize) in
            let w := mkWasapi dev (n_client n) NULL NULL None bsize 0
                       fsize false false in
            let rest (w : wasapi_t) : M (option wasapi_t * option Z) :=
              ev <- api CreateEventA ;;
              let w := mkWasapi (device w) (client w) (renderer w) (val ev)
                         (buffer w) (buffer_size w) (buffer_usage w) (frame_size w)
                         (blocking w) (running w) in
              if val ev =? NULL then
                wasapi_sys_err "CreateEventA" ;;
                r <- wasapi_init_error w true ;; ret (r, new_rate)
              else
                se <- api (SetEventHandle (client w) (write_event w)) ;;
                if FAILED (hr se) then
                  wasapi_com_err "IAudioClient::SetEventHandle" (hr se) ;;
                  r <- wasapi_init_error w true ;; ret (r, new_rate)
                else
                  gs <- api (GetService (client w)) ;;
                  if FAILED (hr gs) then
                    wasapi_com_err "IAudioClient::GetService" (hr gs) ;;
                    r <- wasapi_init_error w true ;; ret (r, new_rate)
                  else
                    let w := mkWasapi (device w) (client w) (val gs) (write_event w)
                               (buffer w) (buffer_size w) (buffer_usage w)
                               (frame_size w) (blocking w) (running w) in
                    gb <- api (GetBuffer (renderer w) frame_count) ;;
                    if FAILED (hr gb) then
                      wasapi_com_err "IAudioRenderClient::GetBuffer" (hr gb) ;;
                      r <- wasapi_init_error w true ;; ret (r, new_rate)
                    else
                      rb <- api (ReleaseBuffer (renderer w) frame_count
                                   AUDCLNT_BUFFERFLAGS_SILENT) ;;
                      if FAILED (hr rb) then
                        wasapi_com_err "IAudioRenderClient::ReleaseBuffer" (hr rb) ;;
                        r <- wasapi_init_error w true ;; ret (r, new_rate)
                      else ret (Some w, new_rate) in
            if exclusive then
              mb <- api (malloc BlkStaging bsize) ;;
              if val mb =? NULL then
                wasapi_err "Out of memory" ;;
                r <- wasapi_init_error w true ;; ret (r, new_rate)
              else
                (* the block's bytes are indeterminate; none is read before
                   it has been written *)
                rest (set_buffer w (Some (repeat "000"%byte (Z.to_nat bsize))))
            else rest w.

End Driver.

(** * Vocabulary of the statements *)

(** The API calls of a trace, in order. *)
Definition calls (t : trace) : list call :=
  flat_map (fun e => match e with Api c _ => [c] | _ => [] end) t.

(** The events of issuing the calls [cs] one after the other from the
    history [t]. *)
Fixpoint answered (env : environment) (t : trace) (cs : list call) : trace :=
  match cs with
  | [] => []
  | c :: cs' => Api c (env t c) :: answered env (t ++ [Api c (env t c)]) cs'
  end.

(** What [wasapi_free] does before it waits on the event. *)
Definition teardown_calls (w : wasapi_t) : list call :=
  (if renderer w =? NULL then [] else [Release IRenderer (renderer w)])
  ++ (if client w =? NULL then [] else [Stop (client w); Release IClient (client w)])
  ++ (if device w =? NULL then [] else [Release IDevice (device w)])
  ++ [CoUninitialize]
  ++ (if has_buffer w then [free BlkStaging] else [])
  ++ [free BlkHandle].

(** An engine that accepts every request and whose event is signaled. *)
Definition answer_ok : response := mkResponse 0 1 1 [].

Definition env_accepting : environment := fun _ c =>
  match c with
  | WaitForSingleObject _ _ => mkResponse 0 WAIT_OBJECT_0 0 []
  | _ => answer_ok
  end.

(** An engine that refuses the first [Start] and accepts the following
    ones. *)
Definition env_start_fails_once : environment := fun t c =>
  match c with
  | Start _ =>
      if existsb (fun e => match e with Api (Start _) _ => true | _ => false end) t
      then answer_ok else mkResponse (-1) 0 0 []
  | _ => answer_ok
  end.

(** A running shared-mode handle and a running exclusive-mode one, both
    with two frames of 16-bit stereo. *)
Definition shared_handle : wasapi_t :=
  mkWasapi 1 1 1 1 None 8 0 4 true true.

Definition exclusive_handle (usage : Z) (blocking : bool) : wasapi_t :=
  mkWasapi 1 1 1 1 (Some (repeat "000"%byte 8)) 8 usage 4 blocking true.

(** What every open handle satisfies (the frame count is a [UINT32]). *)
Definition handle_ok (w : wasapi_t) : Prop :=
  (frame_size w = 4 \/ frame_size w = 8)
  /\ (exists frames, 0 <= frames < 2 ^ 32 /\ buffer_size w = frames * frame_size w)
  /\ (has_buffer w = true -> 0 <= buffer_usage w <= buffer_size w).

(** The last event of the trace is the engine reporting, through
    [GetCurrentPadding], that none of its buffer is free. *)
Definition engine_reported_full (w : wasapi_t) (t : trace) : Prop :=
  exists pre p,
    t = pre ++ [Api (GetCurrentPadding (client w)) p]
    /\ to_size_t (buffer_size w - to_size_t (to_uint32 (val p) * frame_size w)) = 0.

(** An engine whose event is signaled but which refuses [GetBuffer]. *)
Definition env_refusing_buffer : environment := fun _ c =>
  match c with
  | GetBuffer _ _ => mkResponse (-1) 0 0 []
  | WaitForSingleObject _ _ => mkResponse 0 WAIT_OBJECT_0 0 []
  | _ => answer_ok
  end.


(** An engine with room for one frame at the first padding query and for
    none afterwards; its event is always signaled. *)
Definition env_filling_up : environment := fun t c =>
  match c with
  | GetCurrentPadding _ =>
      mkResponse 0
        (if existsb (fun e => match e with
                              | Api (GetCurrentPadding _) _ => true
                              | _ => false
                              end) t
         then 2 else 1) 0 []
  | WaitForSingleObject _ _ => mkResponse 0 WAIT_OBJECT_0 0 []
  | _ => answer_ok
  end.

(** The fields a write never touches. *)
Definition same_session (w w' : wasapi_t) : Prop :=
  frame_size w' = frame_size w /\ buffer_size w' = buffer_size w
  /\ has_buffer w' = has_buffer w /\ blocking w' = blocking w
  /\ running w' = running w /\ client w' = client w.

(** The life of an open handle [w0] (left by [wasapi_init] with the trace
    [t0]): it is driven through the driver's entry points, each starting
    from the handle and the trace the previous one left. *)
Inductive driven (env : environment) (w0 : wasapi_t) (t0 : trace)
  : wasapi_t -> trace -> Prop :=
| driven_open : driven env w0 t0 w0 t0
| driven_write w t data size r w' t' :
    driven env w0 t0 w t -> 0 <= size < 2 ^ 64 ->
    wasapi_write env w data size t = (Some (r, w'), t') ->
    driven env w0 t0 w' t'
| driven_stop w t r w' t' :
    driven env w0 t0 w t -> wasapi_stop env w t = (r, w', t') ->
    driven env w0 t0 w' t'
| driven_start w t r w' t' :
    driven env w0 t0 w t -> wasapi_start env w t = (r, w', t') ->
    driven env w0 t0 w' t'
| driven_set_nonblock w t nonblock w' t' :
    driven env w0 t0 w t -> wasapi_set_nonblock_state w nonblock t = (w', t') ->
    driven env w0 t0 w' t'
| driven_write_avail w t r t' :
    driven env w0 t0 w t -> wasapi_write_avail env w t = (r, t') ->
    driven env w0 t0 w t'.

(** The handle [wasapi_init] leaves with [env_accepting], exclusive mode and
    16-bit samples preferred, and the trace it leaves. *)
Definition opened_handle : wasapi_t :=
  mkWasapi 1 1 1 1 (Some (repeat "000"%byte 4)) 4 0 4 false false.

Definition opened_trace : trace :=
  snd (wasapi_init env_accepting (mkSettings true false) None 48000 64 []).

(** ** Negotiation order *)

(** The candidates of a mode attempt, in the order the spec gives them:
    the requested rate, then the preference list without the requested
    rate, first with the requested sample format and then with the other
    one. *)
Definition preferred_rates : list Z := [48000; 44100; 96000; 192000].

Definition rates_in_order (rate : Z) : list Z :=
  rate :: filter (fun x => negb (x =? rate)) preferred_rates.

Definition candidates (float_fmt : bool) (rate : Z) : list (bool * Z) :=
  map (pair float_fmt) (rates_in_order rate)
  ++ map (pair (negb float_fmt)) (rates_in_order rate).

(** A shared-mode attempt written as one pass over a list of candidates:
    each is tried in turn, and the pass goes on to the next one only when
    the engine answers that the format is unsupported.  [float_fmt_res] is
    the sample format of the last candidate tried. *)
Fixpoint shared_in_order (env : environment) (device : Z) (cs : list (bool * Z))
    (float_fmt_res : bool) (client : Z) (h : HRESULT) : M (loop_exit * bool) :=
  match cs with
  | [] => ret (Fallthrough client (Ticks 0) h, float_fmt_res)
  | (f, r) :: cs' =>
      x <- wasapi_init_client_sh_turn env device f r client ;;
      match x with
      | Answered client _ h =>
          if h =? AUDCLNT_E_UNSUPPORTED_FORMAT then
            wasapi_warn "Unsupported format" ;;
            shared_in_order env device cs' f client h
          else ret (Break client (Ticks 0) h r, f)
      | TurnReturnNull => ret (ReturnNull, f)
      | TurnGotoError client => ret (GotoError client, f)
      end
  end.

(** The same for an exclusive-mode attempt, where the answers "device in
    use" and "exclusive mode not allowed" end the attempt. *)
Fixpoint exclusive_in_order (env : environment) (device : Z) (latency : latency_ms)
    (cs : list (bool * Z)) (float_fmt_res : bool) (client : Z)
    (buffer_duration : ref_time) (h : HRESULT) : M (loop_exit * bool) :=
  match cs with
  | [] => ret (Fallthrough client buffer_duration h, float_fmt_res)
  | (f, r) :: cs' =>
      x <- wasapi_init_client_ex_turn env device latency f r client buffer_duration ;;
      match x with
      | Answered client buffer_duration h =>
          if h =? AUDCLNT_E_UNSUPPORTED_FORMAT then
            wasapi_warn "Unsupported format" ;;
            exclusive_in_order env device latency cs' f client buffer_duration h
          else if h =? AUDCLNT_E_DEVICE_IN_USE then
            wasapi_warn "Device already in use" ;; ret (GotoError client, f)
          else if h =? AUDCLNT_E_EXCLUSIVE_MODE_NOT_ALLOWED then
            wasapi_warn "Exclusive mode disabled" ;; ret (GotoError client, f)
          else ret (Break client buffer_duration h r, f)
      | TurnReturnNull => ret (ReturnNull, f)
      | TurnGotoError client => ret (GotoError client, f)
      end
  end.

(** The candidates a trace announces ("Initializing client (...)"), and,
    interleaved with them, the answers of the engine to [Initialize]. *)
Inductive step :=
| Cand (float_fmt : bool) (rate : Z)
| Ans (h : HRESULT).

Definition steps (t : trace) : list step :=
  flat_map (fun e =>
    match e with
    | Logged LOG (MsgInitClient _ f r _) => [Cand f r]
    | Api (Initialize _ _ _ _ _ _) a => [Ans (hr a)]
    | _ => []
    end) t.

Definition cands (l : list step) : list (bool * Z) :=
  flat_map (fun s => match s with Cand f r => [(f, r)] | Ans _ => [] end) l.

Definition tried (t : trace) : list (bool * Z) := cands (steps t).

(** The answers that end an exclusive-mode attempt, and those after which
    the same candidate is initialized again. *)
Definition mode_fatal (h : HRESULT) : Prop :=
  h = AUDCLNT_E_DEVICE_IN_USE \/ h = AUDCLNT_E_EXCLUSIVE_MODE_NOT_ALLOWED.

Definition retried (h : HRESULT) : Prop :=
  h = AUDCLNT_E_BUFFER_SIZE_NOT_ALIGNED \/ h = AUDCLNT_E_ALREADY_INITIALIZED.

(** The sample format and the rate a wave format stands for. *)
Definition format_candidate (wf : WAVEFORMATEX) : bool * Z :=
  (wFormatTag wf =? WAVE_FORMAT_EXTENSIBLE, nSamplesPerSec wf).

(** What a trace shows of a negotiation: the candidates announced in the
    log, and the candidates offered to the engine, read off the format
    handed to [Initialize], each with the engine's answer. *)
Inductive move :=
| Announce (c : bool * Z)
| Offer (c : bool * Z) (h : HRESULT).

Definition moves (t : trace) : list move :=
  flat_map (fun e =>
    match e with
    | Logged LOG (MsgInitClient _ f r _) => [Announce (f, r)]
    | Api (Initialize _ _ _ _ _ wf) a => [Offer (format_candidate wf) (hr a)]
    | _ => []
    end) t.

(** The turn of one candidate: it is announced and offered; after each of
    the answers [t_retries] it is offered again, and [t_final] is the last
    answer it got. *)
Record cand_turn := mkTurn {
  t_cand : bool * Z;
  t_retries : list HRESULT;
  t_final : HRESULT
}.

Definition turn_moves (x : cand_turn) : list move :=
  Announce (t_cand x) :: map (Offer (t_cand x)) (t_retries x ++ [t_final x]).

(** The turns of a mode attempt follow the candidates [cs] in order: each
    turn is the turn of the next candidate; the candidate is offered again
    only after an answer "already initialized" or "buffer size not
    aligned"; after a last answer "unsupported format" the next candidate,
    if there is one, has its turn; after any other last answer no
    candidate follows. *)
Fixpoint follows_order (cs : list (bool * Z)) (turns : list cand_turn) : Prop :=
  match turns with
  | [] => True
  | x :: rest =>
      match cs with
      | [] => False
      | c :: cs' =>
          t_cand x = c
          /\ Forall retried (t_retries x)
          /\ (if t_final x =? AUDCLNT_E_UNSUPPORTED_FORMAT
              then follows_order cs' rest /\ (rest = [] -> cs' = [])
              else rest = [])
      end
  end.

(** The candidates a trace announces are the announcements among its
    moves. *)
Definition announcements (l : list move) : list (bool * Z) :=
  flat_map (fun m => match m with Announce c => [c] | Offer _ _ => [] end) l.

(** How a pass over a list of candidates ends, in terms of its turns. *)
Definition pass_end (h : HRESULT) (turns : list cand_turn) (x : loop_exit)
    (fl : bool) : Prop :=
  match x with
  | Break _ _ h' r =>
      exists earlier last,
        turns = earlier ++ [last] /\ t_final last = h' /\ t_cand last = (fl, r)
  | Fallthrough _ _ h' =>
      (turns = [] /\ h' = h) \/ h' = AUDCLNT_E_UNSUPPORTED_FORMAT
  | _ => True
  end.

(** A mode-fatal answer is the last step. *)
Fixpoint fatal_answers_last (l : list step) : Prop :=
  match l with
  | [] => True
  | Ans h :: rest => (mode_fatal h -> rest = []) /\ fatal_answers_last rest
  | Cand _ _ :: rest => fatal_answers_last rest
  end.

(** An answer directly followed by the announcement of another candidate
    is "unsupported format". *)
Fixpoint only_unsupported_advances (l : list step) : Prop :=
  match l with
  | [] => True
  | Ans h :: rest =>
      match rest with
      | Cand _ _ :: _ => h = AUDCLNT_E_UNSUPPORTED_FORMAT
      | _ => True
      end /\ only_unsupported_advances rest
  | Cand _ _ :: rest => only_unsupported_advances rest
  end.

(** What is left of the rate loop at its head, with index [j] and
    [rate_res]. *)
Definition upcoming (rate j rate_res : Z) : list Z :=
  if rate_res =? 0 then []
  else rate_res :: filter (fun x => negb (x =? rate))
                     (skipn (Z.to_nat j) preferred_rates).

(** An engine that refuses every format with a plain failure, one that
    supports no format, and one whose device is in exclusive use. *)
Definition env_failing_initialize : environment := fun _ c =>
  match c with
  | Initialize _ _ _ _ _ _ => mkResponse (-1) 0 0 []
  | _ => answer_ok
  end.

Definition env_no_format : environment := fun _ c =>
  match c with
  | Initialize _ _ _ _ _ _ => mkResponse AUDCLNT_E_UNSUPPORTED_FORMAT 0 0 []
  | _ => answer_ok
  end.

Definition env_exclusive_in_use : environment := fun _ c =>
  match c with
  | Initialize _ AUDCLNT_SHAREMODE_EXCLUSIVE _ _ _ _ =>
      mkResponse AUDCLNT_E_DEVICE_IN_USE 0 0 []
  | _ => answer_ok
  end.

(** ** Device resolution *)

(** The comparisons of a trace that [lstrcmpW] answered with 0 (a match),
    and the indices passed to [IMMDeviceCollection::Item]. *)
Definition is_match (e : event) : bool :=
  match e with
  | Api (lstrcmpW _ _) r => val r =? 0
  | _ => false
  end.

Definition match_count (t : trace) : nat := length (filter is_match t).

Definition item_indices (t : trace) : list Z :=
  flat_map (fun e => match e with Api (Item _ i) _ => [i] | _ => [] end) t.

Fixpoint Zseq (i : Z) (n : nat) : list Z :=
  match n with
  | O => []
  | S n' => i :: Zseq (i + 1) n'
  end.

(** The default render endpoint as the platform gives it when asked from
    the history [t]; [None] when there is none to be had. *)
Definition default_endpoint (env : environment) (t : trace) : option Z :=
  let t0 := t ++ [Logged LOG (Msg "Initializing default device ..")] in
  let e := env t0 CoCreateInstance in
  let d := env (t0 ++ [Api CoCreateInstance e]) (GetDefaultAudioEndpoint (val e)) in
  if FAILED (hr e) || FAILED (hr d) || (val d =? NULL) then None
  else Some (val d).

(** The number of active render endpoints the platform reports when the
    device [id] is looked up from the history [t]; [None] when the
    enumeration itself fails. *)
Definition endpoint_count (env : environment) (id : string) (t : trace) : option nat :=
  let t0 := t ++ [Logged LOG (MsgInitDevice id)] in
  let e := env t0 CoCreateInstance in
  let t1 := t0 ++ [Api CoCreateInstance e] in
  let c := env t1 (EnumAudioEndpoints (val e)) in
  let t2 := t1 ++ [Api (EnumAudioEndpoints (val e)) c] in
  let n := env t2 (GetCount (val c)) in
  if FAILED (hr e) || FAILED (hr c) || FAILED (hr n) then None
  else Some (Z.to_nat (to_uint32 (val n))).

(** An engine with two endpoints: looking at the first one fails, the
    second one does not match; its default endpoint is 7. *)
Definition env_two_endpoints : environment := fun _ c =>
  match c with
  | GetCount _ => mkResponse 0 2 0 []
  | Item _ 0 => mkResponse (-1) 0 0 []
  | lstrcmpW _ _ => mkResponse 0 1 0 []
  | GetDefaultAudioEndpoint _ => mkResponse 0 7 0 []
  | _ => answer_ok
  end.

(** ** The byte stream *)

(** The bytes of a flush of [size] bytes that the engine is told about:
    [size / frame] frames, the count being a [UINT32]. *)
Definition whole_frames (frame size : Z) : Z := to_uint32 (size / frame) * frame.

(** The bytes the engine has taken so far, for frames of [frame] bytes: of
    what was copied into its buffer, the frames handed over by a
    [ReleaseBuffer] that succeeded. *)
Fixpoint delivered (frame : Z) (t : trace) : list byte :=
  match t with
  | [] => []
  | EngineWrite bytes :: t' =>
      match t' with
      | Api (ReleaseBuffer _ frames _) r :: _ =>
          if FAILED (hr r) then [] else firstn (Z.to_nat (frames * frame)) bytes
      | _ => []
      end ++ delivered frame t'
  | _ :: t' => delivered frame t'
  end.

Definition release_first (t : trace) : bool :=
  match t with
  | Api (ReleaseBuffer _ _ _) _ :: _ => true
  | _ => false
  end.

(** The bytes accepted from the caller that still wait in the staging
    buffer. *)
Definition staged (w : wasapi_t) : list byte :=
  firstn (Z.to_nat (buffer_usage w)) (staging w).

(** The staging buffer is the block [wasapi_init] allocated:
    [buffer_size] bytes. *)
Definition staging_sized (w : wasapi_t) : Prop :=
  has_buffer w = true -> length (staging w) = Z.to_nat (buffer_size w).

(** What a write needs to lose no byte: in shared mode, where the bytes go
    to the engine at once, a whole number of frames, few enough to be
    counted in a [UINT32]. *)
Definition whole_in_shared (w : wasapi_t) (size : Z) : Prop :=
  has_buffer w = false ->
  size mod frame_size w = 0 /\ size / frame_size w < 2 ^ 32.

(** The waits of a trace: the handle waited on and the timeout. *)
Definition waits (t : trace) : list (Z * Z) :=
  flat_map (fun e => match e with
                     | Api (WaitForSingleObject h ms) _ => [(h, ms)]
                     | _ => []
                     end) t.

(** ** Resources *)

(** What the driver takes from the platform and has to give back. *)
Inductive resource :=
| Interface (i : iface)   (* a reference to a COM object *)
| Block (b : block)       (* a heap block *)
| EventHandle             (* the event of [CreateEventA] *)
| TaskMemory              (* a string allocated by COM *)
| ComLibrary.             (* the COM library, initialised for the thread *)

Definition iface_eqb (a b : iface) : bool :=
  match a, b with
  | IEnumerator, IEnumerator | ICollection, ICollection | IDevice, IDevice
  | IClient, IClient | IRenderer, IRenderer => true
  | _, _ => false
  end.

Definition block_eqb (a b : block) : bool :=
  match a, b with
  | BlkHandle, BlkHandle | BlkStaging, BlkStaging | BlkCmpId, BlkCmpId => true
  | _, _ => false
  end.

Definition resource_eqb (a b : resource) : bool :=
  match a, b with
  | Interface i, Interface j => iface_eqb i j
  | Block x, Block y => block_eqb x y
  | EventHandle, EventHandle | TaskMemory, TaskMemory
  | ComLibrary, ComLibrary => true
  | _, _ => false
  end.

(** A pointer or handle stands for one resource unless it is null. *)
Definition owned (p : Z) : Z := if p =? NULL then 0 else 1.

(** What a COM method that hands out an object or a string has given. *)
Definition granted (r : response) : Z := if FAILED (hr r) then 0 else owned (val r).

(** [n] of the resource [k'], counted for [k]. *)
Definition tally (k k' : resource) (n : Z) : Z := if resource_eqb k k' then n else 0.

(** What an event adds to the number of resources [k] held. *)
Definition gain (k : resource) (e : event) : Z :=
  match e with
  | Api CoCreateInstance r => tally k (Interface IEnumerator) (granted r)
  | Api (EnumAudioEndpoints _) r => tally k (Interface ICollection) (granted r)
  | Api (Item _ _) r => tally k (Interface IDevice) (granted r)
  | Api (GetDefaultAudioEndpoint _) r => tally k (Interface IDevice) (granted r)
  | Api (Activate _) r => tally k (Interface IClient) (granted r)
  | Api (GetService _) r => tally k (Interface IRenderer) (granted r)
  | Api (Release i p) _ => tally k (Interface i) (- owned p)
  | Api (calloc b) r => tally k (Block b) (owned (val r))
  | Api (malloc b _) r => tally k (Block b) (owned (val r))
  | Api (free b) _ => tally k (Block b) (-1)
  | Api CreateEventA r => tally k EventHandle (owned (val r))
  | Api (CloseHandle h) _ => tally k EventHandle (- owned h)
  | Api (GetId _) r => tally k TaskMemory (granted r)
  | Api CoTaskMemFree _ => tally k TaskMemory (-1)
  | Api CoInitializeEx r => tally k ComLibrary (if FAILED (hr r) then 0 else 1)
  | Api CoUninitialize _ => tally k ComLibrary (-1)
  | _ => 0
  end.






(** ** Requests to the engine *)

(** The [Initialize] requests of a trace, in order. *)
Definition requests (t : trace) : list call :=
  flat_map (fun e => match e with
                     | Api (Initialize c m f d p wf) _ => [Initialize c m f d p wf]
                     | _ => []
                     end) t.

(** A format as the engine wants it: two channels, frames of whole
    samples, the byte rate that goes with the sample rate, and either
    16-bit PCM or 32-bit samples in the extensible layout. *)
Definition format_ok (wf : WAVEFORMATEX) : Prop :=
  nChannels wf = 2
  /\ nBlockAlign wf * 8 = nChannels wf * wBitsPerSample wf
  /\ nAvgBytesPerSec wf = to_uint32 (nSamplesPerSec wf * nBlockAlign wf)
  /\ ((wFormatTag wf = WAVE_FORMAT_PCM /\ wBitsPerSample wf = 16 /\ cbSize wf = 0)
      \/ (wFormatTag wf = WAVE_FORMAT_EXTENSIBLE /\ wBitsPerSample wf = 32
          /\ cbSize wf = 22)).

(** A request as the driver makes it: event-driven and not persisted,
    with a well-formed format, the period equal to the duration, and both
    zero in shared mode. *)
Definition request_ok (c : call) : Prop :=
  match c with
  | Initialize _ mode flags duration period wf =>
      flags = Z.lor AUDCLNT_STREAMFLAGS_EVENTCALLBACK AUDCLNT_STREAMFLAGS_NOPERSIST
      /\ period = duration
      /\ (mode = AUDCLNT_SHAREMODE_SHARED -> duration = Ticks 0)
      /\ format_ok wf
  | _ => True
  end.

(** The last [Initialize] request of a trace: the client, the mode and
    the format asked for, and the engine's answer. *)
Definition last_request_step (acc : option (Z * share_mode * WAVEFORMATEX * HRESULT))
    (e : event) : option (Z * share_mode * WAVEFORMATEX * HRESULT) :=
  match e with
  | Api (Initialize c m _ _ _ wf) r => Some (c, m, wf, hr r)
  | _ => acc
  end.

Definition last_request (t : trace)
  : option (Z * share_mode * WAVEFORMATEX * HRESULT) :=
  fold_left last_request_step t None.

(** * Device enumeration ([wasapi_device_list_new])

    The enumeration fills a [string_list] with the ids of the active render
    endpoints.  Besides calls the driver proper makes as well, it talks to
    the string list, to the property store of each endpoint and to the
    character-set conversion; its program runs over a trace of its own. *)

(** [int], 32 bits wide. *)
Definition to_int (z : Z) : Z :=
  let u := z mod 2 ^ 32 in if u <? 2 ^ 31 then u else u - 2 ^ 32.

(** The two strings of the loop body: [dev_id_str] and [dev_name_str]. *)
Inductive list_block := BlkDevId | BlkDevName.

Inductive list_call :=
| Drv (c : call)
| string_list_new
| string_list_append (sl : Z) (elem : list Z)
| string_list_free (sl : Z)
| WideCharToMultiByte (ws : list Z) (cb : Z)
| OpenPropertyStore (device : Z)
| GetValue (store : Z)
| PropVariantClear
| ReleaseStore (store : Z)
| str_malloc (b : list_block) (n : Z)
| str_free (b : list_block).

Inductive list_event :=
| LApi (c : list_call) (r : response)
| LLogged (l : log_level) (m : log_msg)
| LDevice (name id : list Z).   (* the line with the name and the id *)

Definition list_trace := list list_event.

Definition list_environment := list_trace -> list_call -> response.

Module DeviceList.

Definition L (A : Type) : Type := list_trace -> A * list_trace.

Definition ret {A} (a : A) : L A := fun t => (a, t).

Definition bind {A B} (m : L A) (k : A -> L B) : L B :=
  fun t => let (a, t') := m t in k a t'.

Declare Scope enum_scope.
Delimit Scope enum_scope with enum.
Notation "x <- m ;; k" := (bind m (fun x => k))
  (at level 61, m at next level, right associativity) : enum_scope.
Notation "m ;; k" := (bind m (fun _ => k))
  (at level 61, right associativity) : enum_scope.
Local Open Scope enum_scope.

Definition emit (e : list_event) : L unit := fun t => (tt, t ++ [e]).

Section Enumeration.

Variable env : list_environment.

Definition api (c : list_call) : L response :=
  fun t => let r := env t c in (r, t ++ [LApi c r]).

Definition wasapi_log (msg : string) : L unit := emit (LLogged LOG (Msg msg)).

Definition wasapi_err (err : string) : L unit := emit (LLogged ERR (Msg err)).

Definition wasapi_com_err (fn : string) (h : HRESULT) : L unit :=
  emit (LLogged ERR (MsgComFailed fn h)).

Definition wasapi_sys_err (fn : string) : L unit :=
  e <- api (Drv GetLastError) ;;
  emit (LLogged ERR (MsgSysFailed fn (val e))).

Definition WASAPI_RELEASE (i : iface) (p : Z) : L unit :=
  if p =? NULL then ret tt else (_ <- api (Drv (Release i p)) ;; ret tt).

Definition WASAPI_FREE (b : list_block) (p : Z) : L unit :=
  if p =? NULL then ret tt else (_ <- api (str_free b) ;; ret tt).

Definition WASAPI_CO_FREE (p : Z) : L unit :=
  if p =? NULL then ret tt else (_ <- api (Drv CoTaskMemFree) ;; ret tt).

(** The locals the [error:] exit looks at.  [dev_name_wstr] is never
    assigned and stays null. *)
Record locals := mkLocals {
  dev_id_str : Z;
  dev_name_str : Z;
  prop_var_init : bool;
  prop_store : Z;
  dev_id_wstr : Z;
  device : Z;
  collection : Z;
  enumerator : Z;
  sl : Z
}.

(** The [error:] exit; it returns [NULL]. *)
Definition wasapi_device_list_error (l : locals) : L Z :=
  WASAPI_FREE BlkDevId (dev_id_str l) ;;
  WASAPI_FREE BlkDevName (dev_name_str l) ;;
  (if prop_var_init l then (_ <- api PropVariantClear ;; ret tt) else ret tt) ;;
  (if prop_store l =? NULL then ret tt
   else (_ <- api (ReleaseStore (prop_store l)) ;; ret tt)) ;;
  WASAPI_CO_FREE (dev_id_wstr l) ;;
  WASAPI_CO_FREE NULL ;;
  WASAPI_RELEASE IDevice (device l) ;;
  WASAPI_RELEASE ICollection (collection l) ;;
  WASAPI_RELEASE IEnumerator (enumerator l) ;;
  (if sl l =? NULL then ret tt
   else (_ <- api (string_list_free (sl l)) ;; ret tt)) ;;
  wasapi_err "Device enumeration failed" ;;
  ret NULL.

(** The loop [for (i = 0; i < dev_count; ++i)], with [n] the number of
    turns left.  At the head of a turn every local of the body is null.
    It yields [false] when it left through [error:]. *)
Fixpoint wasapi_device_list_loop (n : nat) (sl collection enumerator i : Z)
  : L bool :=
  match n with
  | O => ret true
  | S n' =>
      let at_error (dev_id_str dev_name_str : Z) (prop_var_init : bool)
          (prop_store dev_id_wstr device : Z) : L bool :=
        wasapi_device_list_error
          (mkLocals dev_id_str dev_name_str prop_var_init prop_store dev_id_wstr
             device collection enumerator sl) ;;
        ret false in
      it <- api (Drv (Item collection i)) ;;
      if FAILED (hr it) then
        wasapi_com_err "IMMDeviceCollection::Item" (hr it) ;;
        at_error NULL NULL false NULL NULL NULL
      else
        let device := val it in
        g <- api (Drv (GetId device)) ;;
        if FAILED (hr g) then
          wasapi_com_err "IMMDevice::GetId" (hr g) ;;
          at_error NULL NULL false NULL NULL device
        else
          let dev_id_wstr := val g in
          l1 <- api (WideCharToMultiByte (wstr g) 0) ;;
          let ir := to_int (val l1) in
          if ir =? 0 then
            wasapi_sys_err "WideCharToMultiByte" ;;
            at_error NULL NULL false NULL dev_id_wstr device
          else
            m1 <- api (str_malloc BlkDevId (to_size_t ir)) ;;
            let dev_id_str := val m1 in
            if dev_id_str =? NULL then
              wasapi_err "Out of memory" ;;
              at_error NULL NULL false NULL dev_id_wstr device
            else
              l2 <- api (WideCharToMultiByte (wstr g) ir) ;;
              if to_int (val l2) =? 0 then
                wasapi_sys_err "WideCharToMultiByte" ;;
                at_error dev_id_str NULL false NULL dev_id_wstr device
              else
                ps <- api (OpenPropertyStore device) ;;
                if FAILED (hr ps) then
                  wasapi_com_err "IMMDevice::OpenPropertyStore" (hr ps) ;;
                  at_error dev_id_str NULL false NULL dev_id_wstr device
                else
                  let prop_store := val ps in
                  gv <- api (GetValue prop_store) ;;
                  if FAILED (hr gv) then
                    wasapi_com_err "IPropertyStore::GetValue" (hr gv) ;;
                    at_error dev_id_str NULL true prop_store dev_id_wstr device
                  else
                    l3 <- api (WideCharToMultiByte (wstr gv) 0) ;;
                    let ir := to_int (val l3) in
                    if ir =? 0 then
                      wasapi_sys_err "WideCharToMultiByte" ;;
                      at_error dev_id_str NULL true prop_store dev_id_wstr device
                    else
                      m2 <- api (str_malloc BlkDevName (to_size_t ir)) ;;
                      let dev_name_str := val m2 in
                      if dev_name_str =? NULL then
                        wasapi_err "Out of memory" ;;
                        at_error dev_id_str NULL true prop_store dev_id_wstr device
                      else
                        l4 <- api (WideCharToMultiByte (wstr gv) ir) ;;
                        if to_int (val l4) =? 0 then
                          wasapi_sys_err "WideCharToMultiByte" ;;
                          at_error dev_id_str dev_name_str true prop_store
                            dev_id_wstr device
                        else
                          emit (LDevice (wstr l4) (wstr l2)) ;;
                          br <- api (string_list_append sl (wstr l2)) ;;
                          if val br =? 0 then
                            wasapi_err "string_list_append failed" ;;
                            at_error dev_id_str dev_name_str true prop_store
                              dev_id_wstr device
                          else
                            _ <- api PropVariantClear ;;
                            WASAPI_CO_FREE dev_id_wstr ;;
                            WASAPI_CO_FREE NULL ;;
                            WASAPI_FREE BlkDevId dev_id_str ;;
                            WASAPI_FREE BlkDevName dev_name_str ;;
                            (if prop_store =? NULL then ret tt
                             else (_ <- api (ReleaseStore prop_store) ;; ret tt)) ;;
                            WASAPI_RELEASE IDevice device ;;
                            wasapi_device_list_loop n' sl collection enumerator
                              (i + 1)
  end.

(** [wasapi_device_list_new]; the unused [void *u] is dropped.  Yields the
    list, or [NULL]. *)
Definition wasapi_device_list_new : L Z :=
  s <- api string_list_new ;;
  let sl := val s in
  wasapi_log "Enumerating active devices ..." ;;
  if sl =? NULL then wasapi_err "string_list_new failed" ;; ret NULL
  else
    e <- api (Drv CoCreateInstance) ;;
    if FAILED (hr e) then
      wasapi_com_err "CoCreateInstance" (hr e) ;;
      wasapi_device_list_error (mkLocals NULL NULL false NULL NULL NULL NULL NULL sl)
    else
      let enumerator := val e in
      c <- api (Drv (EnumAudioEndpoints enumerator)) ;;
      if FAILED (hr c) then
        wasapi_com_err "IMMDeviceEnumerator::EnumAudioEndpoints" (hr c) ;;
        wasapi_device_list_error
          (mkLocals NULL NULL false NULL NULL NULL NULL enumerator sl)
      else
        let collection := val c in
        n <- api (Drv (GetCount collection)) ;;
        if FAILED (hr n) then
          wasapi_com_err "IMMDeviceCollection::GetCount" (hr n) ;;
          wasapi_device_list_error
            (mkLocals NULL NULL false NULL NULL NULL collection enumerator sl)
        else
          ok <- wasapi_device_list_loop (Z.to_nat (to_uint32 (val n)))
                  sl collection enumerator 0 ;;
          if ok then
            WASAPI_RELEASE ICollection collection ;;
            WASAPI_RELEASE IEnumerator enumerator ;;
            wasapi_log "Devices enumerated" ;;
            ret sl
          else ret NULL.


End Enumeration.

End DeviceList.

(** ** Vocabulary for the enumeration *)

(** The ids added to the string list, the ids announced in the log, the
    lists given back, the endpoints asked for and the counts the platform
    reported. *)
Definition appended (t : list_trace) : list (list Z) :=
  flat_map (fun e => match e with
                     | LApi (string_list_append _ s) r =>
                         if val r =? 0 then [] else [s]
                     | _ => []
                     end) t.

Definition announced (t : list_trace) : list (list Z) :=
  flat_map (fun e => match e with LDevice _ id => [id] | _ => [] end) t.

Definition lists_freed (t : list_trace) : list Z :=
  flat_map (fun e => match e with
                     | LApi (string_list_free p) _ => [p]
                     | _ => []
                     end) t.

Definition endpoints_asked (t : list_trace) : list Z :=
  flat_map (fun e => match e with
                     | LApi (Drv (Item _ i)) _ => [i]
                     | _ => []
                     end) t.

Definition counts_reported (t : list_trace) : list nat :=
  flat_map (fun e => match e with
                     | LApi (Drv (GetCount _)) r =>
                         if FAILED (hr r) then [] else [Z.to_nat (to_uint32 (val r))]
                     | _ => []
                     end) t.

(** What the enumeration takes and has to give back: what the driver
    proper takes as well, and of its own the property store of an
    endpoint, the two strings of the loop body, and the string list. *)
Inductive list_resource :=
| Shared (k : resource)
| PropertyStore
| StringBlock (b : list_block)
| StringList.

Definition list_block_eqb (a b : list_block) : bool :=
  match a, b with
  | BlkDevId, BlkDevId | BlkDevName, BlkDevName => true
  | _, _ => false
  end.

Definition list_resource_eqb (a b : list_resource) : bool :=
  match a, b with
  | Shared x, Shared y => resource_eqb x y
  | PropertyStore, PropertyStore | StringList, StringList => true
  | StringBlock x, StringBlock y => list_block_eqb x y
  | _, _ => false
  end.

Definition list_tally (k k' : list_resource) (n : Z) : Z :=
  if list_resource_eqb k k' then n else 0.

Definition list_gain (k : list_resource) (e : list_event) : Z :=
  match e with
  | LApi (Drv c) r =>
      match k with
      | Shared k' => gain k' (Api c r)
      | _ => 0
      end
  | LApi string_list_new r => list_tally k StringList (owned (val r))
  | LApi (string_list_free p) _ => list_tally k StringList (- owned p)
  | LApi (OpenPropertyStore _) r => list_tally k PropertyStore (granted r)
  | LApi (ReleaseStore p) _ => list_tally k PropertyStore (- owned p)
  | LApi (str_malloc b _) r => list_tally k (StringBlock b) (owned (val r))
  | LApi (str_free b) _ => list_tally k (StringBlock b) (-1)
  | _ => 0
  end.

Fixpoint list_held (k : list_resource) (t : list_trace) : Z :=
  match t with
  | [] => 0
  | e :: t' => list_gain k e + list_held k t'
  end.

(** What the [error:] exit has to give back. *)
Definition list_debt (l : DeviceList.locals) (k : list_resource) : Z :=
  list_tally k (StringBlock BlkDevId) (owned (DeviceList.dev_id_str l))
  + list_tally k (StringBlock BlkDevName) (owned (DeviceList.dev_name_str l))
  + list_tally k PropertyStore (owned (DeviceList.prop_store l))
  + list_tally k (Shared TaskMemory) (owned (DeviceList.dev_id_wstr l))
  + list_tally k (Shared (Interface IDevice)) (owned (DeviceList.device l))
  + list_tally k (Shared (Interface ICollection)) (owned (DeviceList.collection l))
  + list_tally k (Shared (Interface IEnumerator)) (owned (DeviceList.enumerator l))
  + list_tally k StringList (owned (DeviceList.sl l)).

(** A step of the enumeration that only gives back: it adds nothing to
    the list, announces nothing, asks for no endpoint, frees the lists
    [freed] and lowers what is held by [debt]. *)
Definition gives_back {A} (m : DeviceList.L A) (freed : list Z)
    (debt : list_resource -> Z) : Prop :=
  forall t,
    appended (snd (m t)) = appended t
    /\ announced (snd (m t)) = announced t
    /\ endpoints_asked (snd (m t)) = endpoints_asked t
    /\ counts_reported (snd (m t)) = counts_reported t
    /\ lists_freed (snd (m t)) = lists_freed t ++ freed
    /\ forall k, list_held k (snd (m t)) = list_held k t - debt k.

(** A platform with two endpoints, "ab" and "cd", and one whose second
    endpoint has no property store. *)
Definition env_two_devices : list_environment := fun t c =>
  match c with
  | Drv (GetCount _) => mkResponse 0 2 0 []
  | Drv (Item _ i) => mkResponse 0 (10 + i) 0 []
  | Drv (GetId d) => mkResponse 0 1 0 (if d =? 10 then [97; 98] else [99; 100])
  | WideCharToMultiByte ws _ => mkResponse 0 (Z.of_nat (length ws) + 1) 0 ws
  | GetValue _ => mkResponse 0 1 0 [110]
  | _ => answer_ok
  end.

Definition env_broken_store : list_environment := fun t c =>
  match c with
  | OpenPropertyStore 11 => mkResponse (-1) 0 0 []
  | _ => env_two_devices t c
  end.

(** * Proofs *)

Ltac run_driver := unfold bind, ret, api, emit; cbn [fst snd].

(** Name the statement about the run [out] as [post], so that the run
    itself occurs once in the goal. *)
Ltac post_of out :=
  pattern out; match goal with |- ?P _ => set (post := P) end; subst out.

(** ** Start and stop *)

Lemma wasapi_start_running (env : environment) (w w1 : wasapi_t) (t t1 : trace) :
  wasapi_start env w t = (true, w1, t1) -> running w1 = true.
Proof.
  unfold wasapi_start, wasapi_com_err. run_driver.
  destruct (FAILED _); intros H; inversion H; subst; auto.
Qed.

Lemma wasapi_stop_stopped (env : environment) (w w1 : wasapi_t) (t t1 : trace) :
  wasapi_stop env w t = (true, w1, t1) -> running w1 = false.
Proof.
  unfold wasapi_stop, wasapi_com_err. run_driver.
  destruct (FAILED _); intros H; inversion H; subst; auto.
  destruct (running w1); auto; discriminate.
Qed.

(** C8, as the code has it: when the first [start] (or [stop]) succeeded, a
    second one in a row returns [true] and leaves [alive] as it was, whether
    the engine accepts or refuses the repeated request.  After [start] that
    return value is the alive state; after [stop] it is its negation. *)
Theorem redundant_start_stop (env : environment) (w w1 : wasapi_t) (t t1 : trace) :
  (wasapi_start env w t = (true, w1, t1) ->
   fst (fst (wasapi_start env w1 t1)) = true
   /\ wasapi_alive (snd (fst (wasapi_start env w1 t1))) = wasapi_alive w1
   /\ wasapi_alive w1 = true)
  /\
  (wasapi_stop env w t = (true, w1, t1) ->
   fst (fst (wasapi_stop env w1 t1)) = true
   /\ wasapi_alive (snd (fst (wasapi_stop env w1 t1))) = wasapi_alive w1
   /\ wasapi_alive w1 = false).
Proof.
  split; intros H.
  - apply wasapi_start_running in H.
    unfold wasapi_start, wasapi_com_err, wasapi_alive. run_driver.
    destruct (FAILED _); cbn; rewrite ?H; auto.
  - apply wasapi_stop_stopped in H.
    unfold wasapi_stop, wasapi_com_err, wasapi_alive. run_driver.
    destruct (FAILED _); cbn; rewrite ?H; auto.
Qed.

Lemma redundant_start_stop_witness :
  (fst (fst (wasapi_start env_accepting (set_running shared_handle true)
               [Api (Start 1) answer_ok])) = true
   /\ wasapi_alive (snd (fst (wasapi_start env_accepting
                                (set_running shared_handle true)
                                [Api (Start 1) answer_ok])))
      = wasapi_alive (set_running shared_handle true)
   /\ wasapi_alive (set_running shared_handle true) = true)
  /\
  (fst (fst (wasapi_stop env_accepting (set_running shared_handle false)
               [Api (Stop 1) answer_ok])) = true
   /\ wasapi_alive (snd (fst (wasapi_stop env_accepting
                                (set_running shared_handle false)
                                [Api (Stop 1) answer_ok])))
      = wasapi_alive (set_running shared_handle false)
   /\ wasapi_alive (set_running shared_handle false) = false).
Proof.
  split.
  - apply (proj1 (redundant_start_stop env_accepting shared_handle
                    (set_running shared_handle true) [] [Api (Start 1) answer_ok])).
    reflexivity.
  - apply (proj2 (redundant_start_stop env_accepting shared_handle
                    (set_running shared_handle false) [] [Api (Stop 1) answer_ok])).
    reflexivity.
Defined.

(** C8 as stated fails for [stop]: after a successful [stop], a second
    [stop] returns [true] although [alive] is [false], so the value returned
    is not the alive state.  It also fails when the first call did not
    succeed: a [start] the engine refuses leaves the stream stopped, and a
    second [start] the engine accepts then changes [alive]. *)
Lemma redundant_stop_returns_not_alive :
  (let '(r1, w1, t1) := wasapi_stop env_accepting shared_handle [] in
   let '(r2, w2, _) := wasapi_stop env_accepting w1 t1 in
   r1 = true /\ r2 = true /\ wasapi_alive w2 = false /\ r2 <> wasapi_alive w2)
  /\
  (let '(r1, w1, t1) :=
     wasapi_start env_start_fails_once (set_running shared_handle false) [] in
   let '(r2, w2, _) := wasapi_start env_start_fails_once w1 t1 in
   r1 = false /\ wasapi_alive w1 = false /\ wasapi_alive w2 = true).
Proof. cbn. repeat split; discriminate. Qed.

(** ** Close *)

(** C9: [wasapi_free] releases the renderer, stops and releases the client,
    releases the device (each only when non-null), then waits once, for 20
    milliseconds, on the write event; the event handle is closed exactly
    when that wait returns [WAIT_OBJECT_0], and otherwise the leak is
    logged and the handle is never closed. *)
Theorem wasapi_free_teardown_order (env : environment) (w : wasapi_t) (t : trace) :
  let t1 := t ++ answered env t (teardown_calls w) in
  let wait := WaitForSingleObject (write_event w) 20 in
  let ir := env t1 wait in
  exists post,
    snd (wasapi_free env w t) = t1 ++ Api wait ir :: post
    /\ calls (answered env t (teardown_calls w)) = teardown_calls w
    /\ calls post =
         (if val ir =? WAIT_OBJECT_0 then [CloseHandle (write_event w)]
          else if val ir =? WAIT_FAILED then [GetLastError] else [])
    /\ (val ir <> WAIT_OBJECT_0 ->
        In (Logged ERR (Msg "Memory leak in wasapi_free")) post).
Proof.
  unfold wasapi_free, teardown_calls, WASAPI_RELEASE, wasapi_err, wasapi_sys_err.
  destruct (renderer w =? NULL), (client w =? NULL), (device w =? NULL),
    (has_buffer w); run_driver; cbn [app answered];
    repeat rewrite <- app_assoc; cbn [app];
    match goal with
    | |- context [env ?h (WaitForSingleObject ?e ?ms)] =>
        generalize (env h (WaitForSingleObject e ms)); intros ir
    end;
    destruct (Z.eqb_spec (val ir) WAIT_OBJECT_0) as [E | E];
    destruct (Z.eqb_spec (val ir) WAIT_FAILED) as [F | F];
    cbn [negb fst snd];
    (eexists; split; [repeat rewrite <- app_assoc; reflexivity|]);
    try (exfalso; unfold WAIT_OBJECT_0, WAIT_FAILED in *; lia);
    cbn; repeat split; auto; intros; try contradiction; auto.
Qed.

(** ** Machine integers *)

Lemma to_size_t_small (z : Z) : 0 <= z < 2 ^ 64 -> to_size_t z = z.
Proof. intros H. unfold to_size_t. apply Z.mod_small. exact H. Qed.

Lemma to_size_t_range (z : Z) : 0 <= to_size_t z < 2 ^ 64.
Proof. unfold to_size_t. apply Z.mod_pos_bound. reflexivity. Qed.

Lemma to_ssize_t_small (z : Z) : 0 <= z < 2 ^ 63 -> to_ssize_t z = z.
Proof.
  intros H. unfold to_ssize_t. cbv zeta.
  rewrite Z.mod_small by (change (2 ^ 64) with (2 * 2 ^ 63); lia).
  destruct (Z.ltb_spec z (2 ^ 63)); lia.
Qed.

Lemma to_ssize_t_minus_one : to_ssize_t (to_size_t (-1)) = -1.
Proof. reflexivity. Qed.

Lemma handle_ok_buffer_size (w : wasapi_t) :
  handle_ok w -> 0 <= buffer_size w < 2 ^ 35.
Proof.
  intros (Hf & (n & Hn & Hb) & _). rewrite Hb.
  change (2 ^ 35) with (2 ^ 32 * 8). change (2 ^ 32) with 4294967296 in *.
  destruct Hf as [-> | ->]; lia.
Qed.

(** ** Staging *)

Lemma wasapi_stage_spec (w : wasapi_t) (data : list byte) (size : Z) :
  handle_ok w -> has_buffer w = true -> 0 <= size ->
  let u := Z.min size (buffer_size w - buffer_usage w) in
  fst (wasapi_stage w data size) = u
  /\ buffer_usage (snd (wasapi_stage w data size)) = buffer_usage w + u
  /\ staging (snd (wasapi_stage w data size))
     = memcpy (staging w) (buffer_usage w) data u.
Proof.
  intros Hok Hb Hs u.
  pose proof (handle_ok_buffer_size w Hok) as Hbs.
  destruct Hok as (_ & _ & Hu). specialize (Hu Hb).
  assert (H35 : 2 ^ 35 < 2 ^ 63) by reflexivity.
  assert (H63 : 2 ^ 63 < 2 ^ 64) by reflexivity.
  unfold wasapi_stage. cbn [fst snd].
  rewrite (to_size_t_small (buffer_size w - buffer_usage w)) by lia.
  assert (E : (if size <? buffer_size w - buffer_usage w then size
               else buffer_size w - buffer_usage w) = u).
  { unfold u. destruct (Z.ltb_spec size (buffer_size w - buffer_usage w)); lia. }
  rewrite E.
  assert (0 <= u <= buffer_size w - buffer_usage w) by (unfold u; lia).
  rewrite (to_ssize_t_small u) by lia.
  rewrite !to_size_t_small by lia.
  repeat split.
  unfold staging, has_buffer in *. cbn. destruct (buffer w); [reflexivity | discriminate].
Qed.

Lemma wasapi_stage_keeps (w : wasapi_t) (data : list byte) (size : Z) :
  let w' := snd (wasapi_stage w data size) in
  frame_size w' = frame_size w /\ buffer_size w' = buffer_size w
  /\ has_buffer w' = has_buffer w /\ blocking w' = blocking w
  /\ running w' = running w /\ client w' = client w.
Proof.
  unfold wasapi_stage, has_buffer. cbn. destruct (buffer w); cbn; auto 10.
Qed.

Lemma wasapi_stage_ok (w : wasapi_t) (data : list byte) (size : Z) :
  handle_ok w -> has_buffer w = true -> 0 <= size ->
  handle_ok (snd (wasapi_stage w data size)).
Proof.
  intros Hok Hb Hs.
  destruct (wasapi_stage_spec w data size Hok Hb Hs) as (_ & Hu & _).
  destruct (wasapi_stage_keeps w data size) as (Hf & Hz & _).
  pose proof Hok as (H1 & H2 & H3). specialize (H3 Hb).
  unfold handle_ok. rewrite Hf, Hz, Hu. repeat split; auto; lia.
Qed.

Lemma handle_ok_restart (w : wasapi_t) :
  handle_ok w -> has_buffer w = true -> handle_ok (set_buffer_usage w 0).
Proof.
  intros (H1 & H2 & H3) Hbuf. specialize (H3 Hbuf).
  split; [exact H1|]. split; [exact H2|]. intros _. cbn. lia.
Qed.

(** ** Flush *)

(** What [wasapi_flush] does, by the answers of the engine: it asks for
    [size / frame_size] frames, copies [size] bytes when it got them, and
    hands the frames over. *)
Lemma wasapi_flush_cases (env : environment) (w : wasapi_t) (data : list byte)
    (size : Z) (t : trace) :
  let frames := to_uint32 (size / frame_size w) in
  let get := GetBuffer (renderer w) frames in
  let rel := ReleaseBuffer (renderer w) frames 0 in
  let bytes := firstn (Z.to_nat size) data in
  let g := env t get in
  let r := env (t ++ [Api get g; EngineWrite bytes]) rel in
  wasapi_flush env w data size t
  = if FAILED (hr g) then
      (false,
       t ++ [Api get g;
             Logged ERR (MsgComFailed "IAudioRenderClient::GetBuffer" (hr g))])
    else if FAILED (hr r) then
      (false,
       t ++ [Api get g; EngineWrite bytes; Api rel r;
             Logged ERR (MsgComFailed "IAudioRenderClient::ReleaseBuffer" (hr r))])
    else (true, t ++ [Api get g; EngineWrite bytes; Api rel r]).
Proof.
  cbv zeta. unfold wasapi_flush, wasapi_com_err. run_driver.
  destruct (FAILED (hr (env t _))); cbn [fst snd];
    repeat rewrite <- app_assoc; cbn [app]; [reflexivity|].
  destruct (FAILED (hr (env _ _))); cbn [fst snd];
    repeat rewrite <- app_assoc; reflexivity.
Qed.

(** The whole buffer of an open handle is a whole number of frames. *)
Lemma handle_ok_frames (w : wasapi_t) :
  handle_ok w ->
  to_uint32 (buffer_size w / frame_size w) = buffer_size w / frame_size w
  /\ buffer_size w / frame_size w * frame_size w = buffer_size w.
Proof.
  intros (Hf & (n & Hn & Hb) & _). rewrite Hb.
  assert (Hpos : frame_size w <> 0) by (destruct Hf as [-> | ->]; discriminate).
  rewrite Z.div_mul by exact Hpos. split; [|reflexivity].
  unfold to_uint32. apply Z.mod_small. exact Hn.
Qed.

(** ** The exclusive-mode write *)

(** [wasapi_write_ex] on a handle whose staging buffer is full. *)
Lemma wasapi_write_ex_full (env : environment) (w : wasapi_t) (data : list byte)
    (size : Z) (t : trace) :
  buffer_usage w = buffer_size w ->
  let wait := WaitForSingleObject (write_event w) (if blocking w then INFINITE else 0) in
  let ir := env t wait in
  let flush := wasapi_flush env w (staging w) (buffer_size w) (t ++ [Api wait ir]) in
  if val ir =? WAIT_OBJECT_0 then
    wasapi_write_ex env w data size t =
      (if fst flush then wasapi_stage (set_buffer_usage w 0) data size else (-1, w),
       snd flush)
  else
    fst (wasapi_write_ex env w data size t) = (if blocking w then -1 else 0, w)
    /\ exists new,
         snd (wasapi_write_ex env w data size t) = t ++ Api wait ir :: new
         /\ calls new = (if blocking w then [GetLastError] else [])
         /\ (blocking w = false -> new = []).
Proof.
  intros Hfull. cbv zeta.
  unfold wasapi_write_ex, wasapi_sys_err. rewrite Hfull, Z.eqb_refl.
  destruct (blocking w); run_driver;
    match goal with
    | |- context [env t ?c] => generalize (env t c); intros ir
    end;
    destruct (val ir =? WAIT_OBJECT_0) eqn:E; cbn [negb andb fst snd].
  - destruct (wasapi_flush env w (staging w) (buffer_size w) _) as [br tf].
    cbn [fst snd]. destruct br; reflexivity.
  - split; [reflexivity|].
    eexists. rewrite <- !app_assoc.
    split; [reflexivity|]. split; [reflexivity | discriminate].
  - destruct (wasapi_flush env w (staging w) (buffer_size w) _) as [br tf].
    cbn [fst snd]. destruct br; reflexivity.
  - split; [reflexivity|]. exists []. repeat split; reflexivity.
Qed.

(** C5, as the code has it: on an exclusive-mode handle whose staging
    buffer is full, a non-blocking write checks the event once, with a zero
    timeout.  Not signaled: it returns 0 and nothing else happens.  Signaled:
    it asks the engine for a buffer of [buffer_size / frame_size] frames,
    which is the whole staging buffer.  When [GetBuffer] fails, nothing is
    copied; otherwise all [buffer_size] bytes of staging are copied and the
    frames released.  When [GetBuffer] or [ReleaseBuffer] fails, the write
    logs the failure, returns -1 and leaves the handle as it was; when both
    succeed, usage restarts from 0 and [min (size, buffer_size)] bytes of
    the new data are staged and reported.  The trace says in each case
    exactly what was done. *)
Theorem nonblocking_write_on_full_staging (env : environment) (w : wasapi_t)
    (data : list byte) (size : Z) (t : trace) :
  handle_ok w -> has_buffer w = true -> blocking w = false ->
  buffer_usage w = buffer_size w -> 0 <= size ->
  length (staging w) = Z.to_nat (buffer_size w) ->
  let wait := WaitForSingleObject (write_event w) 0 in
  let ir := env t wait in
  let frames := buffer_size w / frame_size w in
  let get := GetBuffer (renderer w) frames in
  let rel := ReleaseBuffer (renderer w) frames 0 in
  let g := env (t ++ [Api wait ir]) get in
  let r := env (t ++ [Api wait ir; Api get g; EngineWrite (staging w)]) rel in
  let u := Z.min size (buffer_size w) in
  let out := wasapi_write_ex env w data size t in
  frames * frame_size w = buffer_size w
  /\ (val ir <> WAIT_OBJECT_0 -> out = (0, w, t ++ [Api wait ir]))
  /\ (val ir = WAIT_OBJECT_0 -> FAILED (hr g) = true ->
      out = (-1, w,
             t ++ [Api wait ir; Api get g;
                   Logged ERR
                     (MsgComFailed "IAudioRenderClient::GetBuffer" (hr g))]))
  /\ (val ir = WAIT_OBJECT_0 -> FAILED (hr g) = false -> FAILED (hr r) = true ->
      out = (-1, w,
             t ++ [Api wait ir; Api get g; EngineWrite (staging w); Api rel r;
                   Logged ERR
                     (MsgComFailed "IAudioRenderClient::ReleaseBuffer" (hr r))]))
  /\ (val ir = WAIT_OBJECT_0 -> FAILED (hr g) = false -> FAILED (hr r) = false ->
      snd out = t ++ [Api wait ir; Api get g; EngineWrite (staging w); Api rel r]
      /\ fst (fst out) = u
      /\ buffer_usage (snd (fst out)) = u
      /\ staging (snd (fst out)) = memcpy (staging w) 0 data u
      /\ same_session w (snd (fst out))).
Proof.
  intros Hok Hbuf Hnb Hfull Hsize Hlen wait ir frames get rel g r u out.
  destruct (handle_ok_frames w Hok) as (Hfr32 & Hfr).
  split; [exact Hfr|].
  pose proof (wasapi_write_ex_full env w data size t Hfull) as H.
  cbv zeta in H. rewrite Hnb in H. fold wait in H. fold ir in H. fold out in H.
  pose proof (wasapi_flush_cases env w (staging w) (buffer_size w)
                (t ++ [Api wait ir])) as Hfl.
  cbv zeta in Hfl. rewrite Hfr32 in Hfl.
  rewrite firstn_all2 in Hfl by lia.
  repeat rewrite <- app_assoc in Hfl. cbn [app] in Hfl.
  fold frames in Hfl. fold get in Hfl. fold rel in Hfl. fold g in Hfl.
  fold r in Hfl.
  destruct (Z.eqb_spec (val ir) WAIT_OBJECT_0) as [E | E].
  - split; [contradiction|]. rewrite Hfl in H.
    split; [|split].
    + intros _ Hg. rewrite Hg in H. exact H.
    + intros _ Hg Hr. rewrite Hg, Hr in H. exact H.
    + intros _ Hg Hr. rewrite Hg, Hr in H. cbn [fst snd] in H.
      rewrite H. cbn [fst snd].
      pose proof (wasapi_stage_spec (set_buffer_usage w 0) data size
                    (handle_ok_restart w Hok Hbuf) Hbuf Hsize) as Hst.
      cbv zeta in Hst. cbn [buffer_usage buffer_size set_buffer_usage] in Hst.
      rewrite Z.sub_0_r, Z.add_0_l in Hst. destruct Hst as (A & B & C).
      split; [reflexivity|]. split; [exact A|]. split; [exact B|].
      split; [exact C|].
      exact (wasapi_stage_keeps (set_buffer_usage w 0) data size).
  - destruct H as (Hr & new & Ht & _ & Hnil).
    specialize (Hnil eq_refl). subst new.
    split.
    + intros _. destruct out as [o t']. cbn [fst snd] in Hr, Ht. subst o t'.
      reflexivity.
    + repeat split; intros; contradiction.
Qed.

Lemma exclusive_handle_ok (usage : Z) (b : bool) :
  0 <= usage <= 8 -> handle_ok (exclusive_handle usage b).
Proof.
  intros H. split; [left; reflexivity|]. split.
  - exists 2. split; [split; [discriminate | reflexivity] | reflexivity].
  - intros _. exact H.
Defined.

Lemma nonblocking_write_on_full_staging_witness :
  let env := env_accepting in
  let w := exclusive_handle 8 false in
  let data := repeat "001"%byte 4 in
  let t := @nil event in
  let wait := WaitForSingleObject (write_event w) 0 in
  let ir := env t wait in
  let frames := buffer_size w / frame_size w in
  let get := GetBuffer (renderer w) frames in
  let rel := ReleaseBuffer (renderer w) frames 0 in
  let g := env (t ++ [Api wait ir]) get in
  let r := env (t ++ [Api wait ir; Api get g; EngineWrite (staging w)]) rel in
  let u := Z.min 4 (buffer_size w) in
  let out := wasapi_write_ex env w data 4 t in
  frames * frame_size w = buffer_size w
  /\ (val ir <> WAIT_OBJECT_0 -> out = (0, w, t ++ [Api wait ir]))
  /\ (val ir = WAIT_OBJECT_0 -> FAILED (hr g) = true ->
      out = (-1, w,
             t ++ [Api wait ir; Api get g;
                   Logged ERR
                     (MsgComFailed "IAudioRenderClient::GetBuffer" (hr g))]))
  /\ (val ir = WAIT_OBJECT_0 -> FAILED (hr g) = false -> FAILED (hr r) = true ->
      out = (-1, w,
             t ++ [Api wait ir; Api get g; EngineWrite (staging w); Api rel r;
                   Logged ERR
                     (MsgComFailed "IAudioRenderClient::ReleaseBuffer" (hr r))]))
  /\ (val ir = WAIT_OBJECT_0 -> FAILED (hr g) = false -> FAILED (hr r) = false ->
      snd out = t ++ [Api wait ir; Api get g; EngineWrite (staging w); Api rel r]
      /\ fst (fst out) = u
      /\ buffer_usage (snd (fst out)) = u
      /\ staging (snd (fst out)) = memcpy (staging w) 0 data u
      /\ same_session w (snd (fst out))).
Proof.
  apply (nonblocking_write_on_full_staging env_accepting (exclusive_handle 8 false)
           (repeat "001"%byte 4) 4 []).
  - apply exclusive_handle_ok. split; discriminate.
  - reflexivity.
  - reflexivity.
  - reflexivity.
  - discriminate.
  - reflexivity.
Defined.

(** C5 as stated fails when the engine refuses the flush: the event is
    signaled, yet the write returns -1, usage stays at [buffer_size] and no
    byte reaches the engine. *)
Lemma signaled_flush_refused :
  let w := exclusive_handle 8 false in
  let out := wasapi_write_ex env_refusing_buffer w (repeat "001"%byte 4) 4 [] in
  val (env_refusing_buffer [] (WaitForSingleObject (write_event w) 0)) = WAIT_OBJECT_0
  /\ fst (fst out) = -1
  /\ buffer_usage (snd (fst out)) = buffer_size w
  /\ fst (fst out) <> Z.min 4 (buffer_size w)
  /\ forall bytes, ~ In (EngineWrite bytes) (snd out).
Proof.
  cbn. repeat split; try discriminate.
  intros bytes H. repeat (destruct H as [H | H]; [discriminate|]). exact H.
Qed.

(** ** The shared-mode write *)

Lemma wasapi_write_sh_spec (env : environment) (w : wasapi_t) (data : list byte)
    (size : Z) (t : trace) :
  0 < size < 2 ^ 63 ->
  let out := wasapi_write_sh env w data size t in
  fst out = -1
  \/ (fst out = 0 /\ engine_reported_full w (snd out))
  \/ 0 < fst out <= size.
Proof.
  intros Hs out. subst out.
  pattern (wasapi_write_sh env w data size t).
  match goal with |- ?P _ => set (post := P) end.
  assert (Hloc : forall t0, post ((p <- api env (GetCurrentPadding (client w)) ;;
      if FAILED (hr p) then
        wasapi_com_err "IAudioClient::GetCurrentPadding" (hr p) ;; ret (-1)
      else
        let padding := to_uint32 (val p) in
        let buffer_avail :=
          to_size_t (buffer_size w - to_size_t (padding * frame_size w)) in
        if buffer_avail =? 0 then ret 0
        else
          let result :=
            to_ssize_t (if size >? buffer_avail then buffer_avail else size) in
          br <- wasapi_flush env w data (to_size_t result) ;;
          ret (if br then result else -1)) t0)).
  { intros t0. unfold post, wasapi_com_err. run_driver.
    generalize (env t0 (GetCurrentPadding (client w))). intros p.
    destruct (FAILED (hr p)); cbn [fst snd]; [left; reflexivity|].
    destruct (Z.eqb_spec
      (to_size_t (buffer_size w - to_size_t (to_uint32 (val p) * frame_size w))) 0)
      as [E | E]; cbn [fst snd].
    - right. left. split; [reflexivity|]. exists t0, p. auto.
    - pose proof (to_size_t_range
        (buffer_size w - to_size_t (to_uint32 (val p) * frame_size w))) as Hr.
      set (avail := to_size_t _) in *.
      assert (Hu : 0 < (if size >? avail then avail else size) <= size).
      { destruct (Z.gtb_spec size avail); lia. }
      rewrite to_ssize_t_small by lia.
      destruct (wasapi_flush env w data _ _) as [br tf]. cbn [fst snd].
      destruct br; [right; right; exact Hu | left; reflexivity]. }
  unfold wasapi_write_sh. destruct (blocking w).
  - unfold bind at 1. unfold api at 1. cbv beta zeta.
    generalize (env t (WaitForSingleObject (write_event w) INFINITE)). intros ir.
    destruct (val ir =? WAIT_OBJECT_0).
    + exact (Hloc (t ++ [Api (WaitForSingleObject (write_event w) INFINITE) ir])).
    + unfold post, wasapi_sys_err. run_driver. left. reflexivity.
  - exact (Hloc t).
Qed.


Lemma same_session_refl (w : wasapi_t) : same_session w w.
Proof. unfold same_session. auto 10. Qed.

Lemma same_session_trans (w1 w2 w3 : wasapi_t) :
  same_session w1 w2 -> same_session w2 w3 -> same_session w1 w3.
Proof. unfold same_session. intuition congruence. Qed.

Lemma wasapi_write_ex_spec (env : environment) (w : wasapi_t) (data : list byte)
    (size : Z) (t : trace) :
  handle_ok w -> has_buffer w = true -> 0 <= size ->
  let out := fst (wasapi_write_ex env w data size t) in
  handle_ok (snd out) /\ same_session w (snd out)
  /\ (fst out = -1 \/ 0 <= fst out <= size)
  /\ (blocking w = true -> 0 < buffer_size w -> 0 < size ->
      fst out = -1 \/ 0 < fst out <= size).
Proof.
  intros Hok Hbuf Hsize out. subst out.
  assert (Hstage : forall w0, handle_ok w0 -> has_buffer w0 = true ->
            same_session w w0 ->
            let out := wasapi_stage w0 data size in
            handle_ok (snd out) /\ same_session w (snd out)
            /\ (fst out = -1 \/ 0 <= fst out <= size)
            /\ (buffer_usage w0 < buffer_size w0 -> 0 < size ->
                fst out = -1 \/ 0 < fst out <= size)).
  { intros w0 Hok0 Hbuf0 Hsame out.
    destruct (wasapi_stage_spec w0 data size Hok0 Hbuf0 Hsize) as (Hr & _).
    pose proof (wasapi_stage_ok w0 data size Hok0 Hbuf0 Hsize) as Hok'.
    pose proof (wasapi_stage_keeps w0 data size) as Hk.
    destruct Hok0 as (_ & _ & Hu). specialize (Hu Hbuf0).
    subst out. split; [exact Hok'|]. split.
    { eapply same_session_trans; [exact Hsame | exact Hk]. }
    rewrite Hr. split; [right; lia | intros; right; lia]. }
  destruct (Z.eqb_spec (buffer_usage w) (buffer_size w)) as [Hfull | Hpart].
  - pose proof (wasapi_write_ex_full env w data size t Hfull) as H. cbv zeta in H.
    destruct (val _ =? WAIT_OBJECT_0).
    + rewrite H. cbn [fst snd]. destruct (fst (wasapi_flush _ _ _ _ _)).
      * assert (Hok0 : handle_ok (set_buffer_usage w 0)).
        { destruct Hok as (H1 & H2 & H3). repeat split; auto.
          all: cbn; specialize (H3 Hbuf); lia. }
        destruct (Hstage (set_buffer_usage w 0) Hok0 Hbuf (same_session_refl w))
          as (A & B & C & D).
        split; [exact A|]. split; [exact B|]. split; [exact C|].
        intros _ Hpos Hs. apply D; auto.
      * cbn [fst snd]. split; [exact Hok|]. split; [apply same_session_refl|]. auto.
    + destruct H as (-> & _). cbn [fst snd].
      split; [exact Hok|]. split; [apply same_session_refl|]. split.
      * destruct (blocking w); [left; reflexivity | right; lia].
      * intros ->. auto.
  - unfold wasapi_write_ex. destruct (Z.eqb_spec (buffer_usage w) (buffer_size w));
      [contradiction|]. unfold ret. cbn [fst snd].
    destruct (Hstage w Hok Hbuf (same_session_refl w)) as (A & B & C & D).
    split; [exact A|]. split; [exact B|]. split; [exact C|].
    intros _ _ Hs. apply D; auto.
    destruct Hok as (_ & _ & Hu). specialize (Hu Hbuf). lia.
Qed.

(** ** The blocking loop *)

Lemma wasapi_write_loop_eq (env : environment) (fuel : nat) (w : wasapi_t)
    (data : list byte) (size writen ir : Z) :
  wasapi_write_loop env fuel w data size writen ir =
  if (writen <? size) && negb (ir =? 0) then
    match fuel with
    | O => ret None
    | S fuel' =>
        '(ir', w') <-
          (if has_buffer w then
             wasapi_write_ex env w (skipn (Z.to_nat writen) data)
               (to_size_t (size - writen))
           else
             r <- wasapi_write_sh env w (skipn (Z.to_nat writen) data)
                    (to_size_t (size - writen)) ;;
             ret (r, w)) ;;
        if ir' =? -1 then ret (Some (to_size_t (-1), w'))
        else wasapi_write_loop env fuel' w' data size (to_size_t (writen + ir')) ir'
    end
  else ret (Some (writen, w)).
Proof. destruct fuel; reflexivity. Qed.

Lemma wasapi_write_loop_exclusive (env : environment) (fuel : nat) :
  forall (w : wasapi_t) (data : list byte) (size writen ir : Z) (t : trace),
    handle_ok w -> has_buffer w = true -> blocking w = true ->
    0 < buffer_size w -> 0 <= writen <= size -> size < 2 ^ 63 ->
    size - writen <= Z.of_nat fuel -> ir <> 0 ->
    exists r w' t',
      wasapi_write_loop env fuel w data size writen ir t = (Some (r, w'), t')
      /\ (r = size \/ r = to_size_t (-1))
      /\ handle_ok w' /\ same_session w w'.
Proof.
  induction fuel as [| fuel IH];
    intros w data size writen ir t Hok Hbuf Hblk Hpos Hw Hs Hfuel Hir;
    rewrite wasapi_write_loop_eq;
    destruct (Z.ltb_spec writen size) as [Hlt | Hge];
    destruct (Z.eqb_spec ir 0) as [|_]; try contradiction; cbn [andb negb].
  - lia.
  - exists writen, w, t. unfold ret.
    split; [reflexivity|]. split; [left; lia|]. split; [exact Hok|].
    apply same_session_refl.
  - assert (H64 : 2 ^ 63 < 2 ^ 64) by reflexivity.
    rewrite Hbuf. rewrite (to_size_t_small (size - writen)) by lia.
    unfold bind at 1.
    pose proof (wasapi_write_ex_spec env w (skipn (Z.to_nat writen) data)
                  (size - writen) t Hok Hbuf ltac:(lia)) as Hex.
    cbv zeta in Hex.
    destruct (wasapi_write_ex env w _ (size - writen) t) as [[r1 w1] t1].
    cbn [fst snd] in Hex. destruct Hex as (Hok1 & Hsame & _ & Hprog).
    specialize (Hprog Hblk Hpos ltac:(lia)).
    destruct (Z.eqb_spec r1 (-1)) as [-> | Hne].
    + exists (to_size_t (-1)), w1, t1. unfold ret. auto.
    + destruct Hprog as [? | Hr1]; [contradiction|].
      rewrite (to_size_t_small (writen + r1)) by lia.
      destruct Hsame as (S1 & S2 & S3 & S4 & S5 & S6).
      destruct (IH w1 data size (writen + r1) r1 t1) as (r & w' & t' & E & Hr & Hok' & Hs');
        try congruence; try lia.
      exists r, w', t'. split; [exact E|]. split; [exact Hr|]. split; [exact Hok'|].
      eapply same_session_trans; [|exact Hs']. unfold same_session. auto 10.
  - exists writen, w, t. unfold ret.
    split; [reflexivity|]. split; [left; lia|]. split; [exact Hok|].
    apply same_session_refl.
Qed.

Lemma wasapi_write_loop_shared (env : environment) (fuel : nat) :
  forall (w : wasapi_t) (data : list byte) (size writen ir : Z) (t : trace),
    has_buffer w = false ->
    0 <= writen <= size -> size < 2 ^ 63 ->
    size - writen <= Z.of_nat fuel -> ir <> 0 ->
    exists r t',
      wasapi_write_loop env fuel w data size writen ir t = (Some (r, w), t')
      /\ (r = size \/ r = to_size_t (-1)
          \/ (0 <= r < size /\ engine_reported_full w t')).
Proof.
  induction fuel as [| fuel IH];
    intros w data size writen ir t Hbuf Hw Hs Hfuel Hir;
    rewrite wasapi_write_loop_eq;
    destruct (Z.ltb_spec writen size) as [Hlt | Hge];
    destruct (Z.eqb_spec ir 0) as [|_]; try contradiction; cbn [andb negb].
  - lia.
  - exists writen, t. unfold ret. split; [reflexivity | left; lia].
  - assert (H64 : 2 ^ 63 < 2 ^ 64) by reflexivity.
    rewrite Hbuf. rewrite (to_size_t_small (size - writen)) by lia.
    unfold bind at 1. unfold bind at 1.
    pose proof (wasapi_write_sh_spec env w (skipn (Z.to_nat writen) data)
                  (size - writen) t ltac:(lia)) as Hsh.
    cbv zeta in Hsh.
    destruct (wasapi_write_sh env w _ (size - writen) t) as [r1 t1].
    cbn [fst snd] in Hsh. unfold ret at 1.
    destruct (Z.eqb_spec r1 (-1)) as [-> | Hne].
    + exists (to_size_t (-1)), t1. unfold ret. auto.
    + destruct Hsh as [? | [[-> Hfull] | Hr1]]; [contradiction | |].
      * rewrite Z.add_0_r, (to_size_t_small writen) by lia.
        rewrite wasapi_write_loop_eq.
        destruct (Z.ltb_spec writen size); [|lia]. cbn [andb negb Z.eqb].
        exists writen, t1. unfold ret. split; [reflexivity|].
        right. right. split; [lia | exact Hfull].
      * rewrite (to_size_t_small (writen + r1)) by lia.
        apply IH; auto; lia.
  - exists writen, t. unfold ret. split; [reflexivity | left; lia].
Qed.

(** C1, as the code has it: a blocking write of [size] bytes always
    returns; in exclusive mode it returns [size] or -1; in shared mode it
    returns [size], -1, or, when the engine reports no free space after its
    event fired, the number of bytes accepted so far, which is below
    [size]. *)
Theorem blocking_write_result (env : environment) (w : wasapi_t)
    (data : list byte) (size : Z) (t : trace) :
  blocking w = true -> 0 <= size < 2 ^ 63 ->
  (has_buffer w = true -> handle_ok w /\ 0 < buffer_size w) ->
  exists r w' t',
    wasapi_write env w data size t = (Some (r, w'), t')
    /\ (r = size \/ r = -1
        \/ (has_buffer w = false /\ 0 <= r < size /\ engine_reported_full w t')).
Proof.
  intros Hblk Hs Hex. unfold wasapi_write. rewrite Hblk. unfold bind, ret.
  destruct (has_buffer w) eqn:Hbuf.
  - destruct (Hex eq_refl) as (Hok & Hpos).
    destruct (wasapi_write_loop_exclusive env (Z.to_nat size) w data size 0 (-1) t)
      as (r & w' & t' & E & Hr & _); auto; try lia.
    rewrite E. exists (to_ssize_t r), w', t'. split; [reflexivity|].
    destruct Hr as [-> | ->].
    + left. apply to_ssize_t_small. lia.
    + right. left. reflexivity.
  - destruct (wasapi_write_loop_shared env (Z.to_nat size) w data size 0 (-1) t)
      as (r & t' & E & Hr); auto; try lia.
    rewrite E. exists (to_ssize_t r), w, t'. split; [reflexivity|].
    destruct Hr as [-> | [-> | (Hr & Hfull)]].
    + left. apply to_ssize_t_small. lia.
    + right. left. reflexivity.
    + right. right. rewrite to_ssize_t_small by lia. auto.
Qed.

Lemma blocking_write_result_witness :
  exists r w' t',
    wasapi_write env_accepting (exclusive_handle 0 true) (repeat "001"%byte 4) 4 []
      = (Some (r, w'), t')
    /\ (r = 4 \/ r = -1
        \/ (has_buffer (exclusive_handle 0 true) = false /\ 0 <= r < 4
            /\ engine_reported_full (exclusive_handle 0 true) t')).
Proof.
  apply (blocking_write_result env_accepting (exclusive_handle 0 true)
           (repeat "001"%byte 4) 4 []).
  - reflexivity.
  - split; [discriminate | reflexivity].
  - intros _. split; [apply exclusive_handle_ok; split; discriminate | reflexivity].
Defined.

(** C1 as stated fails in shared mode: with room for one frame and the
    engine's buffer full at the next period, a blocking write of 8 bytes
    returns 4. *)
Lemma blocking_write_partial :
  blocking shared_handle = true
  /\ fst (wasapi_write env_filling_up shared_handle (repeat "001"%byte 8) 8 [])
     = Some (4, shared_handle).
Proof. split; reflexivity. Qed.

(** ** The blocking loop always ends *)

Lemma to_size_t_add_ssize_t (a u : Z) :
  0 <= u < 2 ^ 64 -> to_size_t (a + to_ssize_t u) = to_size_t (a + u).
Proof.
  intros Hu. unfold to_size_t, to_ssize_t. cbv zeta.
  rewrite (Z.mod_small u) by exact Hu.
  destruct (u <? 2 ^ 63); [reflexivity|].
  replace (a + (u - 2 ^ 64)) with (a + u + (-1) * 2 ^ 64) by ring.
  apply Z.mod_add. discriminate.
Qed.

Lemma wasapi_stage_accepts (w : wasapi_t) (data : list byte) (size : Z) :
  0 <= size ->
  exists u, 0 <= u <= size /\ u < 2 ^ 64
            /\ fst (wasapi_stage w data size) = to_ssize_t u.
Proof.
  intros Hs. unfold wasapi_stage. cbn [fst].
  pose proof (to_size_t_range (buffer_size w - buffer_usage w)) as Hr.
  set (avail := to_size_t _) in *.
  exists (if size <? avail then size else avail).
  destruct (Z.ltb_spec size avail); repeat split; lia.
Qed.

(** What one call of the blocking loop accepts: -1, or a number of bytes
    no larger than what was asked for. *)
Lemma wasapi_write_ex_accepts (env : environment) (w : wasapi_t) (data : list byte)
    (size : Z) (t : trace) :
  0 <= size ->
  let r := fst (fst (wasapi_write_ex env w data size t)) in
  r = -1 \/ exists u, 0 <= u <= size /\ u < 2 ^ 64 /\ r = to_ssize_t u.
Proof.
  intros Hs. cbv zeta.
  assert (Hzero : exists u, 0 <= u <= size /\ u < 2 ^ 64 /\ 0 = to_ssize_t u).
  { exists 0. repeat split; lia. }
  pattern (wasapi_write_ex env w data size t).
  match goal with |- ?P _ => set (post := P) end.
  unfold wasapi_write_ex, wasapi_sys_err.
  destruct (buffer_usage w =? buffer_size w).
  - unfold bind at 1. unfold api at 1. cbv beta zeta.
    generalize (env t (WaitForSingleObject (write_event w)
                         (if blocking w then INFINITE else 0))).
    intros ir. destruct (val ir =? WAIT_OBJECT_0); cbn [negb andb].
    + unfold bind, ret.
      destruct (wasapi_flush env w (staging w) (buffer_size w) _) as [[] tf];
        unfold post; cbn [negb fst snd]; [|left; reflexivity].
      right. apply wasapi_stage_accepts. exact Hs.
    + destruct (blocking w); unfold post; run_driver;
        [left; reflexivity | right; exact Hzero].
  - unfold post, ret. cbn [fst snd]. right. apply wasapi_stage_accepts. exact Hs.
Qed.

Lemma wasapi_write_sh_accepts (env : environment) (w : wasapi_t) (data : list byte)
    (size : Z) (t : trace) :
  0 <= size ->
  let r := fst (wasapi_write_sh env w data size t) in
  r = -1 \/ exists u, 0 <= u <= size /\ u < 2 ^ 64 /\ r = to_ssize_t u.
Proof.
  intros Hs. cbv zeta. pattern (wasapi_write_sh env w data size t).
  match goal with |- ?P _ => set (post := P) end.
  assert (Hloc : forall t0, post ((p <- api env (GetCurrentPadding (client w)) ;;
      if FAILED (hr p) then
        wasapi_com_err "IAudioClient::GetCurrentPadding" (hr p) ;; ret (-1)
      else
        let padding := to_uint32 (val p) in
        let buffer_avail :=
          to_size_t (buffer_size w - to_size_t (padding * frame_size w)) in
        if buffer_avail =? 0 then ret 0
        else
          let result :=
            to_ssize_t (if size >? buffer_avail then buffer_avail else size) in
          br <- wasapi_flush env w data (to_size_t result) ;;
          ret (if br then result else -1)) t0)).
  { intros t0. unfold post, wasapi_com_err. run_driver.
    generalize (env t0 (GetCurrentPadding (client w))). intros p.
    destruct (FAILED (hr p)); cbn [fst snd]; [left; reflexivity|].
    pose proof (to_size_t_range
      (buffer_size w - to_size_t (to_uint32 (val p) * frame_size w))) as Hr.
    set (avail := to_size_t _) in *.
    destruct (avail =? 0); cbn [fst snd].
    - right. exists 0. repeat split; lia.
    - destruct (wasapi_flush env w data _ _) as [[] tf]; cbn [fst snd];
        [|left; reflexivity].
      right. exists (if size >? avail then avail else size).
      destruct (Z.gtb_spec size avail); repeat split; lia. }
  unfold wasapi_write_sh. destruct (blocking w).
  - unfold bind at 1. unfold api at 1. cbv beta zeta.
    generalize (env t (WaitForSingleObject (write_event w) INFINITE)). intros ir.
    destruct (val ir =? WAIT_OBJECT_0).
    + exact (Hloc (t ++ [Api (WaitForSingleObject (write_event w) INFINITE) ir])).
    + unfold post, wasapi_sys_err. run_driver. left. reflexivity.
  - exact (Hloc t).
Qed.

Lemma wasapi_write_loop_total (env : environment) (fuel : nat) :
  forall (w : wasapi_t) (data : list byte) (size writen ir : Z) (t : trace),
    0 <= writen <= size -> size < 2 ^ 64 -> size - writen <= Z.of_nat fuel ->
    exists res t', wasapi_write_loop env fuel w data size writen ir t = (Some res, t').
Proof.
  induction fuel as [| fuel IH]; intros w data size writen ir t Hw Hs Hfuel;
    rewrite wasapi_write_loop_eq;
    destruct (Z.ltb_spec writen size) as [Hlt | Hge];
    destruct (Z.eqb_spec ir 0) as [|_]; cbn [andb negb];
    try (eexists; eexists; reflexivity).
  - lia.
  - rewrite (to_size_t_small (size - writen)) by lia.
    assert (Hnext : forall (r1 : Z) (w1 : wasapi_t) (t1 : trace),
              (r1 = -1 \/ exists u, 0 <= u <= size - writen /\ u < 2 ^ 64
                                    /\ r1 = to_ssize_t u) ->
              exists res t',
                (if r1 =? -1 then ret (Some (to_size_t (-1), w1))
                 else wasapi_write_loop env fuel w1 data size
                        (to_size_t (writen + r1)) r1) t1 = (Some res, t')).
    { intros r1 w1 t1 Hr. destruct (Z.eqb_spec r1 (-1)) as [|Hne].
      - eexists; eexists; reflexivity.
      - destruct Hr as [? | (u & Hu & Hu64 & ->)]; [contradiction|].
        rewrite to_size_t_add_ssize_t by lia.
        rewrite (to_size_t_small (writen + u)) by lia.
        destruct (Z.eq_dec u 0) as [-> | Hpos].
        + rewrite wasapi_write_loop_eq. change (to_ssize_t 0) with 0.
          cbn [Z.eqb negb]. rewrite andb_false_r.
          eexists; eexists; reflexivity.
        + apply IH; lia. }
    unfold bind at 1. destruct (has_buffer w).
    + pose proof (wasapi_write_ex_accepts env w (skipn (Z.to_nat writen) data)
                    (size - writen) t ltac:(lia)) as Hex.
      cbv zeta in Hex.
      destruct (wasapi_write_ex env w _ (size - writen) t) as [[r1 w1] t1].
      cbn [fst snd] in Hex. apply Hnext. exact Hex.
    + unfold bind at 1.
      pose proof (wasapi_write_sh_accepts env w (skipn (Z.to_nat writen) data)
                    (size - writen) t ltac:(lia)) as Hsh.
      cbv zeta in Hsh.
      destruct (wasapi_write_sh env w _ (size - writen) t) as [r1 t1].
      cbn [fst snd] in Hsh. unfold ret at 1. apply Hnext. exact Hsh.
Qed.

(** X18: [wasapi_write] returns for every handle, in either mode, and
    every [size_t] size: each turn of the blocking loop accepts at least one
    byte or leaves the loop, so the fuel it gives its loop is enough. *)
Theorem wasapi_write_total (env : environment) (w : wasapi_t) (data : list byte)
    (size : Z) (t : trace) :
  0 <= size < 2 ^ 64 ->
  exists r w' t', wasapi_write env w data size t = (Some (r, w'), t').
Proof.
  intros Hs. unfold wasapi_write. destruct (blocking w).
  - destruct (wasapi_write_loop_total env (Z.to_nat size) w data size 0 (-1) t)
      as ([r w'] & t' & E); try lia.
    unfold bind, ret. rewrite E. cbn. eauto.
  - destruct (has_buffer w); unfold bind, ret.
    + destruct (wasapi_write_ex env w data size t) as [[r w'] t']. eauto.
    + destruct (wasapi_write_sh env w data size t) as [r t']. eauto.
Qed.

Lemma wasapi_write_total_witness :
  0 <= 8 < 2 ^ 64
  /\ exists r w' t',
       wasapi_write env_accepting
         (set_blocking opened_handle true) (repeat "001"%byte 8) 8 opened_trace
       = (Some (r, w'), t').
Proof.
  split; [lia|]. apply wasapi_write_total. lia.
Defined.

(** ** Open *)

Lemma wasapi_init_error_none (env : environment) (w : wasapi_t) (c : bool) (t : trace) :
  fst (wasapi_init_error env w c t) = None.
Proof.
  unfold wasapi_init_error, WASAPI_RELEASE.
  destruct (renderer w =? NULL), (client w =? NULL), (device w =? NULL),
    (write_event w =? NULL), (has_buffer w), c; reflexivity.
Qed.

Ltac init_failed :=
  unfold bind, emit, api; cbv beta iota zeta;
  match goal with
  | |- context [wasapi_init_error ?env ?w ?c ?t] =>
      let H := fresh in
      pose proof (wasapi_init_error_none env w c t) as H;
      destruct (wasapi_init_error env w c t); cbn [fst] in H; rewrite H;
      unfold ret; cbv beta iota; let Hd := fresh in intro Hd; discriminate Hd
  end.

Lemma wasapi_init_success (env : environment) (settings : wasapi_settings)
    (dev_id : option string) (rate latency : Z) (t : trace)
    (w : wasapi_t) (new_rate : option Z) (t' : trace) :
  wasapi_init env settings dev_id rate latency t = (Some w, new_rate, t') ->
  let t0 := t ++ answered env t [calloc BlkHandle; CoInitializeEx] in
  let resolved := wasapi_init_resolve env dev_id t0 in
  let negotiation :=
    wasapi_init_client env (fst resolved) (exclusive_mode settings)
      (float_format settings) rate latency (snd resolved) in
  let exclusive := fst (fst negotiation) in
  let n := snd (fst negotiation) in
  device w = fst resolved /\ device w <> NULL
  /\ client w = n_client n /\ client w <> NULL
  /\ (exists post, t' = snd negotiation ++ post)
  /\ new_rate = Some (n_rate n)
  /\ frame_size w = (if n_float_fmt n then 8 else 4)
  /\ (exists frames, 0 <= frames < 2 ^ 32 /\ buffer_size w = frames * frame_size w)
  /\ buffer_usage w = 0
  /\ has_buffer w = exclusive
  /\ blocking w = false /\ running w = false.
Proof.
  unfold wasapi_init, wasapi_err, wasapi_com_err, wasapi_sys_err.
  unfold bind at 1. unfold api at 1. cbv beta zeta. cbn [answered app].
  generalize (env t (calloc BlkHandle)). intros m.
  destruct (val m =? NULL); [run_driver; intros; discriminate|].
  unfold bind at 1. unfold api at 1. cbv beta zeta.
  match goal with |- context [env ?h CoInitializeEx] =>
    generalize (env h CoInitializeEx); intros ci end.
  destruct (FAILED (hr ci)).
  { init_failed. }
  unfold bind at 1. rewrite <- app_assoc. cbn [app].
  destruct (wasapi_init_resolve env dev_id _) as [dev t2]. cbn [fst snd].
  destruct (Z.eqb_spec dev NULL) as [|Hdev]; [init_failed|].
  unfold bind at 1.
  destruct (wasapi_init_client env dev _ _ rate latency t2) as [[exclusive n] t3].
  cbn [fst snd].
  destruct (Z.eqb_spec (n_client n) NULL) as [|Hcl]; [init_failed|].
  unfold bind at 1. unfold api at 1. cbv beta zeta.
  generalize (env t3 (GetBufferSize (n_client n))). intros b.
  destruct (FAILED (hr b)).
  { init_failed. }
  assert (Hframes : 0 <= to_uint32 (val b) < 2 ^ 32).
  { unfold to_uint32. apply Z.mod_pos_bound. reflexivity. }
  assert (Hsize : to_size_t (to_uint32 (val b) * (if n_float_fmt n then 8 else 4))
                  = to_uint32 (val b) * (if n_float_fmt n then 8 else 4)).
  { apply to_size_t_small. change (2 ^ 64) with (2 ^ 32 * 2 ^ 32).
    change (2 ^ 32) with 4294967296 in *. destruct (n_float_fmt n); lia. }
  rewrite Hsize.
  set (fsize := if n_float_fmt n then 8 else 4) in *.
  set (frames := to_uint32 (val b)) in *.
  assert (Hrest : forall (w0 : wasapi_t) (t4 : trace),
    (exists post, t4 = t3 ++ post) ->
    (ev <- api env CreateEventA ;;
     let w1 := mkWasapi (device w0) (client w0) (renderer w0) (val ev)
                 (buffer w0) (buffer_size w0) (buffer_usage w0) (frame_size w0)
                 (blocking w0) (running w0) in
     if val ev =? NULL then
       (e <- api env GetLastError ;;
        emit (Logged ERR (MsgSysFailed "CreateEventA" (val e)))) ;;
       r <- wasapi_init_error env w1 true ;; ret (r, Some (n_rate n))
     else
       se <- api env (SetEventHandle (client w1) (write_event w1)) ;;
       if FAILED (hr se) then
         emit (Logged ERR (MsgComFailed "IAudioClient::SetEventHandle" (hr se))) ;;
         r <- wasapi_init_error env w1 true ;; ret (r, Some (n_rate n))
       else
         gs <- api env (GetService (client w1)) ;;
         if FAILED (hr gs) then
           emit (Logged ERR (MsgComFailed "IAudioClient::GetService" (hr gs))) ;;
           r <- wasapi_init_error env w1 true ;; ret (r, Some (n_rate n))
         else
           let w2 := mkWasapi (device w1) (client w1) (val gs) (write_event w1)
                       (buffer w1) (buffer_size w1) (buffer_usage w1)
                       (frame_size w1) (blocking w1) (running w1) in
           gb <- api env (GetBuffer (renderer w2) frames) ;;
           if FAILED (hr gb) then
             emit (Logged ERR (MsgComFailed "IAudioRenderClient::GetBuffer" (hr gb))) ;;
             r <- wasapi_init_error env w2 true ;; ret (r, Some (n_rate n))
           else
             rb <- api env (ReleaseBuffer (renderer w2) frames
                              AUDCLNT_BUFFERFLAGS_SILENT) ;;
             if FAILED (hr rb) then
               emit (Logged ERR
                       (MsgComFailed "IAudioRenderClient::ReleaseBuffer" (hr rb))) ;;
               r <- wasapi_init_error env w2 true ;; ret (r, Some (n_rate n))
             else ret (Some w2, Some (n_rate n))) t4 = (Some w, new_rate, t') ->
    device w = device w0 /\ client w = client w0 /\ buffer w = buffer w0
    /\ buffer_size w = buffer_size w0 /\ buffer_usage w = buffer_usage w0
    /\ frame_size w = frame_size w0 /\ blocking w = blocking w0
    /\ running w = running w0 /\ new_rate = Some (n_rate n)
    /\ exists post, t' = t3 ++ post).
  { intros w0 t4 (post4 & ->).
    unfold bind at 1. unfold api at 1. cbv beta zeta.
    match goal with |- context [env ?h CreateEventA] =>
      generalize (env h CreateEventA); intros ev end.
    cbn [device client renderer write_event buffer buffer_size buffer_usage
         frame_size blocking running].
    destruct (val ev =? NULL).
    { init_failed. }
    unfold bind at 1. unfold api at 1. cbv beta zeta.
    match goal with |- context [env ?h (SetEventHandle ?a ?b)] =>
      generalize (env h (SetEventHandle a b)); intros se end.
    destruct (FAILED (hr se)).
    { init_failed. }
    unfold bind at 1. unfold api at 1. cbv beta zeta.
    match goal with |- context [env ?h (GetService ?a)] =>
      generalize (env h (GetService a)); intros gs end.
    destruct (FAILED (hr gs)).
    { init_failed. }
    unfold bind at 1. unfold api at 1. cbv beta zeta.
    match goal with |- context [env ?h (GetBuffer ?a ?b)] =>
      generalize (env h (GetBuffer a b)); intros gb end.
    destruct (FAILED (hr gb)).
    { init_failed. }
    unfold bind at 1. unfold api at 1. cbv beta zeta.
    match goal with |- context [env ?h (ReleaseBuffer ?a ?b ?c)] =>
      generalize (env h (ReleaseBuffer a b c)); intros rb end.
    destruct (FAILED (hr rb)).
    { init_failed. }
    unfold ret. intros H. inversion H; subst. cbn.
    repeat (split; [reflexivity|]).
    eexists. repeat rewrite <- app_assoc. reflexivity. }
  assert (Hfs : fsize = 4 \/ fsize = 8) by (unfold fsize; destruct (n_float_fmt n); auto).
  destruct exclusive.
  - unfold bind at 1. unfold api at 1. cbv beta zeta.
    match goal with |- context [env ?h (malloc ?a ?b)] =>
      generalize (env h (malloc a b)); intros mb end.
    destruct (val mb =? NULL).
    { init_failed. }
    intros H. apply Hrest in H; [|eexists; rewrite <- app_assoc; reflexivity].
    cbn in H. destruct H as (H1 & H2 & H3 & H4 & H5 & H6 & H7 & H8 & H9 & H10).
    unfold has_buffer. rewrite H1, H2, H3, H4, H5, H6.
    repeat (split; [solve [auto | exists frames; auto]|]). auto.
  - intros H. apply Hrest in H; [|eexists; reflexivity].
    cbn in H. destruct H as (H1 & H2 & H3 & H4 & H5 & H6 & H7 & H8 & H9 & H10).
    unfold has_buffer. rewrite H1, H2, H3, H4, H5, H6.
    repeat (split; [solve [auto | exists frames; auto]|]). auto.
Qed.

(** ** Invariants of an open handle *)

Lemma wasapi_write_loop_keeps (env : environment) (fuel : nat) :
  forall (w : wasapi_t) (data : list byte) (size writen ir : Z) (t : trace)
         (r : Z) (w' : wasapi_t) (t' : trace),
    handle_ok w ->
    wasapi_write_loop env fuel w data size writen ir t = (Some (r, w'), t') ->
    handle_ok w' /\ same_session w w'.
Proof.
  induction fuel as [| fuel IH]; intros w data size writen ir t r w' t' Hok;
    rewrite wasapi_write_loop_eq;
    destruct ((writen <? size) && negb (ir =? 0)).
  - discriminate.
  - unfold ret. intros H. inversion H; subst. auto using same_session_refl.
  - unfold bind at 1. destruct (has_buffer w) eqn:Hbuf.
    + pose proof (wasapi_write_ex_spec env w (skipn (Z.to_nat writen) data)
                    (to_size_t (size - writen)) t Hok Hbuf
                    (proj1 (to_size_t_range _))) as Hex.
      cbv zeta in Hex.
      destruct (wasapi_write_ex env w _ _ t) as [[r1 w1] t1].
      cbn [fst snd] in Hex. destruct Hex as (Hok1 & Hsame & _).
      destruct (r1 =? -1).
      * unfold ret. intros H. inversion H; subst. auto.
      * intros H. apply IH in H; [|exact Hok1]. destruct H as (H1 & H2).
        split; [exact H1 | eapply same_session_trans; eauto].
    + unfold bind at 1. destruct (wasapi_write_sh env w _ _ t) as [r1 t1].
      unfold ret at 1. destruct (r1 =? -1).
      * unfold ret. intros H. inversion H; subst. auto using same_session_refl.
      * apply IH. exact Hok.
  - unfold ret. intros H. inversion H; subst. auto using same_session_refl.
Qed.

Lemma wasapi_write_keeps (env : environment) (w : wasapi_t) (data : list byte)
    (size : Z) (t : trace) (r : Z) (w' : wasapi_t) (t' : trace) :
  handle_ok w -> 0 <= size ->
  wasapi_write env w data size t = (Some (r, w'), t') ->
  handle_ok w' /\ same_session w w'.
Proof.
  intros Hok Hs. unfold wasapi_write. destruct (blocking w).
  - unfold bind, ret.
    destruct (wasapi_write_loop env _ w data size 0 (-1) t) as [[[r1 w1]|] t1] eqn:E;
      cbn [option_map fst snd]; intros H; inversion H; subst.
    eapply wasapi_write_loop_keeps; eauto.
  - destruct (has_buffer w) eqn:Hbuf.
    + unfold bind, ret.
      pose proof (wasapi_write_ex_spec env w data size t Hok Hbuf Hs) as Hex.
      cbv zeta in Hex. destruct (wasapi_write_ex env w data size t) as [[r1 w1] t1].
      cbn [fst snd] in Hex. intros H. inversion H; subst. tauto.
    + unfold bind, ret. destruct (wasapi_write_sh env w data size t).
      intros H. inversion H; subst. auto using same_session_refl.
Qed.

Lemma driven_keeps (env : environment) (w0 : wasapi_t) (t0 : trace)
    (w : wasapi_t) (t : trace) :
  handle_ok w0 -> driven env w0 t0 w t ->
  handle_ok w /\ frame_size w = frame_size w0.
Proof.
  intros Hok0 Hd. induction Hd as
    [ | w t data size r w' t' Hd IH Hs Hw | w t r w' t' Hd IH Hop
    | w t r w' t' Hd IH Hop | w t nb w' t' Hd IH Hop | w t r t' Hd IH Hop ].
  - auto.
  - destruct IH as (Hok & Hf).
    destruct (wasapi_write_keeps env w data size t r w' t' Hok (proj1 Hs) Hw)
      as (Hok' & Hsame).
    split; [exact Hok'|]. destruct Hsame as (-> & _). exact Hf.
  - destruct IH as (Hok & Hf). revert Hop.
    unfold wasapi_stop, wasapi_com_err. run_driver.
    destruct (FAILED _); intros H; inversion H; subst; auto.
  - destruct IH as (Hok & Hf). revert Hop.
    unfold wasapi_start, wasapi_com_err. run_driver.
    destruct (FAILED _); intros H; inversion H; subst; auto.
  - destruct IH as (Hok & Hf). revert Hop.
    unfold wasapi_set_nonblock_state. run_driver.
    intros H; inversion H; subst. auto.
  - exact IH.
Qed.

Lemma wasapi_init_handle_ok (env : environment) (settings : wasapi_settings)
    (dev_id : option string) (rate latency : Z) (t : trace)
    (w : wasapi_t) (new_rate : option Z) (t' : trace) :
  wasapi_init env settings dev_id rate latency t = (Some w, new_rate, t') ->
  handle_ok w.
Proof.
  intros H. apply wasapi_init_success in H. cbv zeta in H.
  destruct H as (_ & _ & _ & _ & _ & _ & Hf & Hb & Hu & _).
  split; [|split].
  - rewrite Hf. destruct (n_float_fmt _); auto.
  - exact Hb.
  - intros _. rewrite Hu. destruct Hb as (frames & Hfr & ->).
    rewrite Hf. destruct (n_float_fmt _); lia.
Qed.


Lemma opened_handle_init :
  wasapi_init env_accepting (mkSettings true false) None 48000 64 []
  = (Some opened_handle, Some 48000, opened_trace).
Proof. reflexivity. Defined.



(** C10: on every handle [wasapi_init] has opened, [uses_float] is true
    exactly when [frame_size] is 8, which is exactly when the negotiation run
    by [wasapi_init] selected float samples (otherwise [frame_size] is 4);
    no later operation changes [frame_size], so [uses_float] keeps the value
    it had at open. *)
Theorem use_float_fixed_at_open (env : environment) (settings : wasapi_settings)
    (dev_id : option string) (rate latency : Z) (t : trace)
    (w0 : wasapi_t) (new_rate : option Z) (t0 : trace)
    (w : wasapi_t) (t1 : trace) :
  wasapi_init env settings dev_id rate latency t = (Some w0, new_rate, t0) ->
  driven env w0 t0 w t1 ->
  let resolved :=
    wasapi_init_resolve env dev_id
      (t ++ answered env t [calloc BlkHandle; CoInitializeEx]) in
  let negotiation :=
    wasapi_init_client env (fst resolved) (exclusive_mode settings)
      (float_format settings) rate latency (snd resolved) in
  let selected_float := n_float_fmt (snd (fst negotiation)) in
  (wasapi_use_float w = true <-> frame_size w = 8)
  /\ (frame_size w = 8 <-> selected_float = true)
  /\ (frame_size w = 4 <-> selected_float = false)
  /\ wasapi_use_float w = selected_float
  /\ wasapi_use_float w = wasapi_use_float w0.
Proof.
  intros Hinit Hd resolved negotiation selected_float.
  pose proof (wasapi_init_handle_ok _ _ _ _ _ _ _ _ _ Hinit) as Hok0.
  destruct (driven_keeps env w0 t0 w t1 Hok0 Hd) as (_ & Hf).
  apply wasapi_init_success in Hinit. cbv zeta in Hinit.
  destruct Hinit as (_ & _ & _ & _ & _ & _ & Hfs & _).
  fold resolved in Hfs. fold negotiation in Hfs. fold selected_float in Hfs.
  unfold wasapi_use_float. rewrite Hf, Hfs.
  destruct selected_float; cbn; repeat split; intros; try discriminate; auto.
Qed.

Lemma use_float_fixed_at_open_witness :
  wasapi_init env_accepting (mkSettings true false) None 48000 64 []
    = (Some opened_handle, Some 48000, opened_trace)
  /\ driven env_accepting opened_handle opened_trace opened_handle opened_trace
  /\ (wasapi_use_float opened_handle = true <-> frame_size opened_handle = 8)
  /\ wasapi_use_float opened_handle = false.
Proof.
  split; [exact opened_handle_init|]. split; [apply driven_open|].
  pose proof (use_float_fixed_at_open env_accepting (mkSettings true false) None
                48000 64 [] opened_handle (Some 48000) opened_trace
                opened_handle opened_trace opened_handle_init
                (driven_open env_accepting opened_handle opened_trace))
    as (H1 & _ & _ & H4 & _).
  split; [exact H1 | exact H4].
Defined.

(** ** Mode fallback *)

(** C3: [wasapi_init_client] attempts the preferred mode first.  When that
    attempt yields a client, nothing else is attempted and the mode flag is
    kept.  When it yields none, the other mode is attempted from where the
    first attempt left off; if that yields a client the mode flag is
    flipped, and if it yields none the negotiation returns no client. *)
Theorem mode_fallback (env : environment) (device : Z) (exclusive float_fmt : bool)
    (rate latency : Z) (t : trace) :
  let attempt (e : bool) :=
    if e then wasapi_init_client_ex env else wasapi_init_client_sh env in
  let first := attempt exclusive device float_fmt rate (LatRequested latency) t in
  let n1 := fst first in
  let second :=
    attempt (negb exclusive) device (n_float_fmt n1) (n_rate n1) (n_latency n1)
      (snd first) in
  let n2 := fst second in
  let out := wasapi_init_client env device exclusive float_fmt rate latency t in
  (n_client n1 <> NULL ->
   fst out = (exclusive, n1)
   /\ snd out = snd first ++ [Logged LOG (MsgClientInitialized exclusive
                  (n_float_fmt n1) (n_rate n1) (n_latency n1))])
  /\ (n_client n1 = NULL -> n_client n2 <> NULL ->
      fst out = (negb exclusive, n2)
      /\ snd out = snd second ++ [Logged LOG (MsgClientInitialized (negb exclusive)
                     (n_float_fmt n2) (n_rate n2) (n_latency n2))])
  /\ (n_client n1 = NULL -> n_client n2 = NULL ->
      fst out = (exclusive, n2)
      /\ snd out = snd second ++ [Logged ERR (Msg "Failed to initialize client")]).
Proof.
  cbv zeta. unfold wasapi_init_client, wasapi_err.
  destruct exclusive; cbn [negb]; unfold bind, ret, emit.
  - destruct (wasapi_init_client_ex env device float_fmt rate _ t) as [n1 t1].
    cbn [fst snd].
    destruct (Z.eqb_spec (n_client n1) NULL) as [E1 | E1].
    + destruct (wasapi_init_client_sh env device _ _ _ t1) as [n2 t2]. cbn [fst snd].
      destruct (Z.eqb_spec (n_client n2) NULL) as [E2 | E2]; cbn [negb];
        repeat split; intros; try contradiction; auto.
    + destruct (Z.eqb_spec (n_client n1) NULL); [contradiction|].
      repeat split; intros; try contradiction; auto.
  - destruct (wasapi_init_client_sh env device float_fmt rate _ t) as [n1 t1].
    cbn [fst snd].
    destruct (Z.eqb_spec (n_client n1) NULL) as [E1 | E1].
    + destruct (wasapi_init_client_ex env device _ _ _ t1) as [n2 t2]. cbn [fst snd].
      destruct (Z.eqb_spec (n_client n2) NULL) as [E2 | E2]; cbn [negb];
        repeat split; intros; try contradiction; auto.
    + destruct (Z.eqb_spec (n_client n1) NULL); [contradiction|].
      repeat split; intros; try contradiction; auto.
Qed.

Lemma mode_fallback_witness :
  fst (fst (wasapi_init_client env_accepting 1 true false 48000 64 [])) = true
  /\ fst (fst (wasapi_init_client env_exclusive_in_use 1 true false 48000 64 []))
     = false
  /\ n_client (snd (fst (wasapi_init_client env_no_format 1 true false 48000 64 [])))
     = NULL.
Proof.
  destruct (mode_fallback env_accepting 1 true false 48000 64 []) as (H1 & _).
  destruct (mode_fallback env_exclusive_in_use 1 true false 48000 64 [])
    as (_ & H2 & _).
  destruct (mode_fallback env_no_format 1 true false 48000 64 []) as (_ & _ & H3).
  split; [|split].
  - rewrite (proj1 (H1 ltac:(discriminate))). reflexivity.
  - rewrite (proj1 (H2 eq_refl ltac:(discriminate))). reflexivity.
  - rewrite (proj1 (H3 eq_refl eq_refl)). reflexivity.
Defined.

(** ** Negotiation: the rate loop follows the list of candidates *)

Lemma wasapi_next_rate_upcoming (rate j : Z) :
  rate <> 0 -> 0 <= j ->
  upcoming rate (snd (wasapi_next_rate rate j)) (fst (wasapi_next_rate rate j))
  = filter (fun x => negb (x =? rate)) (skipn (Z.to_nat j) preferred_rates)
  /\ j < snd (wasapi_next_rate rate j).
Proof.
  intros Hr Hj.
  assert (Hc : j = 0 \/ j = 1 \/ j = 2 \/ j = 3 \/ 4 <= j) by lia.
  destruct Hc as [-> | [-> | [-> | [-> | Hj4]]]].
  1-4: unfold wasapi_next_rate, wasapi_pref_rate, upcoming, preferred_rates;
    repeat (cbn -[Z.eqb Z.to_nat];
            change (Z.to_nat 0) with 0%nat; change (Z.to_nat 1) with 1%nat;
            change (Z.to_nat 2) with 2%nat; change (Z.to_nat 3) with 3%nat;
            change (Z.to_nat 4) with 4%nat; change (Z.to_nat 5) with 5%nat;
            cbn -[Z.eqb Z.to_nat];
            match goal with
            | Hr : ?r <> 0 |- context [?a =? ?r] => destruct (Z.eqb_spec a r)
            end);
    subst; try lia; cbn; (split; [reflexivity | lia]).
  unfold wasapi_next_rate, wasapi_pref_rate, upcoming.
  destruct (Z.geb_spec j 4); [|lia].
  destruct (Z.eqb_spec 0 rate); [congruence|]. cbn [fst snd].
  rewrite Z.eqb_refl. rewrite skipn_all2 by (cbn; lia). split; [reflexivity | lia].
Qed.

Lemma upcoming_length (rate rate_res : Z) :
  (length (upcoming rate 0 rate_res) <= rate_fuel)%nat.
Proof.
  unfold upcoming, rate_fuel. destruct (rate_res =? 0); cbn [length]; [lia|].
  pose proof (filter_length_le (fun x => negb (x =? rate))
                (skipn (Z.to_nat 0) preferred_rates)) as H.
  rewrite length_skipn in H. change (length preferred_rates) with 4%nat in H.
  lia.
Qed.

Lemma wasapi_init_client_sh_rates_eq (env : environment) (fuel : nat)
    (device rate : Z) (f : bool) (j rate_res client : Z) (h : HRESULT) :
  wasapi_init_client_sh_rates env fuel device rate f j rate_res client h =
  if rate_res =? 0 then ret (Fallthrough client (Ticks 0) h)
  else
    match fuel with
    | O => ret OutOfFuel
    | S fuel' =>
        x <- wasapi_init_client_sh_turn env device f rate_res client ;;
        match x with
        | Answered client _ h =>
            if negb (h =? AUDCLNT_E_UNSUPPORTED_FORMAT) then
              ret (Break client (Ticks 0) h rate_res)
            else
              wasapi_warn "Unsupported format" ;;
              let (rate_res', j') := wasapi_next_rate rate j in
              wasapi_init_client_sh_rates env fuel' device rate f
                j' rate_res' client h
        | TurnReturnNull => ret ReturnNull
        | TurnGotoError client => ret (GotoError client)
        end
    end.
Proof. destruct fuel; reflexivity. Qed.

Lemma wasapi_init_client_ex_rates_eq (env : environment) (fuel : nat)
    (device rate : Z) (latency : latency_ms) (f : bool) (j rate_res client : Z)
    (dur : ref_time) (h : HRESULT) :
  wasapi_init_client_ex_rates env fuel device rate latency f j rate_res client dur h =
  if rate_res =? 0 then ret (Fallthrough client dur h)
  else
    match fuel with
    | O => ret OutOfFuel
    | S fuel' =>
        x <- wasapi_init_client_ex_turn env device latency f rate_res client dur ;;
        match x with
        | Answered client dur h =>
            if negb (h =? AUDCLNT_E_UNSUPPORTED_FORMAT) then
              if negb (negb (h =? AUDCLNT_E_DEVICE_IN_USE)) then
                wasapi_warn "Device already in use" ;; ret (GotoError client)
              else if negb (negb (h =? AUDCLNT_E_EXCLUSIVE_MODE_NOT_ALLOWED)) then
                wasapi_warn "Exclusive mode disabled" ;; ret (GotoError client)
              else ret (Break client dur h rate_res)
            else
              wasapi_warn "Unsupported format" ;;
              let (rate_res', j') := wasapi_next_rate rate j in
              wasapi_init_client_ex_rates env fuel' device rate latency f
                j' rate_res' client dur h
        | TurnReturnNull => ret ReturnNull
        | TurnGotoError client => ret (GotoError client)
        end
    end.
Proof. destruct fuel; reflexivity. Qed.

Lemma upcoming_done (rate j : Z) : upcoming rate j 0 = [].
Proof. reflexivity. Qed.

Lemma upcoming_next (rate j rate_res : Z) :
  (rate_res =? 0) = false ->
  upcoming rate j rate_res
  = rate_res :: filter (fun x => negb (x =? rate)) (skipn (Z.to_nat j) preferred_rates).
Proof. intros E. unfold upcoming. rewrite E. reflexivity. Qed.

(** The rate loop, entered with index [j] and [rate_res], tries what is
    [upcoming] there, in order. *)
Lemma wasapi_init_client_sh_rates_in_order (env : environment) (device rate : Z)
    (f : bool) :
  rate <> 0 ->
  forall (fuel : nat) (j rate_res client : Z) (h : HRESULT) (t : trace),
    0 <= j -> (length (upcoming rate j rate_res) <= fuel)%nat ->
    (x <- wasapi_init_client_sh_rates env fuel device rate f j rate_res client h ;;
     ret (x, f)) t
    = shared_in_order env device (map (pair f) (upcoming rate j rate_res)) f client h t.
Proof.
  intros Hr. induction fuel as [| fuel IH]; intros j rate_res client h t Hj Hlen;
    rewrite wasapi_init_client_sh_rates_eq;
    (destruct (Z.eqb_spec rate_res 0) as [-> | E0];
     [rewrite upcoming_done; reflexivity|]);
    apply Z.eqb_neq in E0; rewrite (upcoming_next _ _ _ E0) in *;
    cbn [length] in Hlen; [lia|].
  cbn [map shared_in_order]. unfold bind, ret in *.
  destruct (wasapi_init_client_sh_turn env device f rate_res client t) as [x t1].
  destruct x as [c d h' | | c]; try reflexivity.
  destruct (h' =? AUDCLNT_E_UNSUPPORTED_FORMAT); cbn [negb]; [|reflexivity].
  destruct (wasapi_warn "Unsupported format" t1) as [[] t2].
  destruct (wasapi_next_rate_upcoming rate j Hr Hj) as (Hup & Hlt).
  destruct (wasapi_next_rate rate j) as [rate' j']. cbn [fst snd] in Hup, Hlt.
  rewrite <- Hup. apply IH; [lia | rewrite Hup; lia].
Qed.

Lemma wasapi_init_client_ex_rates_in_order (env : environment) (device rate : Z)
    (latency : latency_ms) (f : bool) :
  rate <> 0 ->
  forall (fuel : nat) (j rate_res client : Z) (dur : ref_time) (h : HRESULT)
         (t : trace),
    0 <= j -> (length (upcoming rate j rate_res) <= fuel)%nat ->
    (x <- wasapi_init_client_ex_rates env fuel device rate latency f j rate_res
            client dur h ;;
     ret (x, f)) t
    = exclusive_in_order env device latency (map (pair f) (upcoming rate j rate_res))
        f client dur h t.
Proof.
  intros Hr. induction fuel as [| fuel IH]; intros j rate_res client dur h t Hj Hlen;
    rewrite wasapi_init_client_ex_rates_eq;
    (destruct (Z.eqb_spec rate_res 0) as [-> | E0];
     [rewrite upcoming_done; reflexivity|]);
    apply Z.eqb_neq in E0; rewrite (upcoming_next _ _ _ E0) in *;
    cbn [length] in Hlen; [lia|].
  cbn [map exclusive_in_order]. unfold bind, ret in *.
  destruct (wasapi_init_client_ex_turn env device latency f rate_res client dur t)
    as [x t1].
  destruct x as [c d h' | | c]; try reflexivity.
  destruct (h' =? AUDCLNT_E_UNSUPPORTED_FORMAT); cbn [negb].
  - destruct (wasapi_warn "Unsupported format" t1) as [[] t2].
    destruct (wasapi_next_rate_upcoming rate j Hr Hj) as (Hup & Hlt).
    destruct (wasapi_next_rate rate j) as [rate' j']. cbn [fst snd] in Hup, Hlt.
    rewrite <- Hup. apply IH; [lia | rewrite Hup; lia].
  - destruct (h' =? AUDCLNT_E_DEVICE_IN_USE); cbn [negb]; [reflexivity|].
    destruct (h' =? AUDCLNT_E_EXCLUSIVE_MODE_NOT_ALLOWED); reflexivity.
Qed.

Lemma shared_in_order_app (env : environment) (device : Z) (l1 l2 : list (bool * Z)) :
  forall (fl : bool) (client : Z) (h : HRESULT) (t : trace),
    shared_in_order env device (l1 ++ l2) fl client h t =
    let '(x, fl', t1) := shared_in_order env device l1 fl client h t in
    match x with
    | Fallthrough c _ h' => shared_in_order env device l2 fl' c h' t1
    | _ => (x, fl', t1)
    end.
Proof.
  induction l1 as [| [f r] l1 IH]; intros fl client h t; [reflexivity|].
  cbn [app shared_in_order]. unfold bind, ret.
  destruct (wasapi_init_client_sh_turn env device f r client t) as [x t1].
  destruct x as [c d h' | | c]; try reflexivity.
  destruct (h' =? AUDCLNT_E_UNSUPPORTED_FORMAT); [|reflexivity].
  destruct (wasapi_warn "Unsupported format" t1) as [[] t2]. apply IH.
Qed.

Lemma exclusive_in_order_app (env : environment) (device : Z) (latency : latency_ms)
    (l1 l2 : list (bool * Z)) :
  forall (fl : bool) (client : Z) (dur : ref_time) (h : HRESULT) (t : trace),
    exclusive_in_order env device latency (l1 ++ l2) fl client dur h t =
    let '(x, fl', t1) := exclusive_in_order env device latency l1 fl client dur h t in
    match x with
    | Fallthrough c d h' => exclusive_in_order env device latency l2 fl' c d h' t1
    | _ => (x, fl', t1)
    end.
Proof.
  induction l1 as [| [f r] l1 IH]; intros fl client dur h t; [reflexivity|].
  cbn [app exclusive_in_order]. unfold bind, ret.
  destruct (wasapi_init_client_ex_turn env device latency f r client dur t) as [x t1].
  destruct x as [c d h' | | c]; try reflexivity.
  destruct (h' =? AUDCLNT_E_UNSUPPORTED_FORMAT).
  - destruct (wasapi_warn "Unsupported format" t1) as [[] t2]. apply IH.
  - destruct (h' =? AUDCLNT_E_DEVICE_IN_USE);
      [destruct (wasapi_warn _ t1) as [[] t2]; reflexivity|].
    destruct (h' =? AUDCLNT_E_EXCLUSIVE_MODE_NOT_ALLOWED);
      [destruct (wasapi_warn _ t1) as [[] t2]; reflexivity | reflexivity].
Qed.

Lemma upcoming_at_entry (rate : Z) :
  rate <> 0 -> upcoming rate 0 rate = rates_in_order rate.
Proof.
  intros Hr. apply Z.eqb_neq in Hr. rewrite (upcoming_next _ _ _ Hr). reflexivity.
Qed.

Lemma wasapi_init_client_sh_formats_in_order (env : environment) (device : Z)
    (f : bool) (rate client : Z) (h : HRESULT) (t : trace) :
  rate <> 0 ->
  wasapi_init_client_sh_formats env device f rate client h t
  = shared_in_order env device (candidates f rate) f client h t.
Proof.
  intros Hr. unfold wasapi_init_client_sh_formats, candidates.
  rewrite shared_in_order_app.
  pose proof (wasapi_init_client_sh_rates_in_order env device rate f Hr rate_fuel
                0 rate client h t (Z.le_refl 0) (upcoming_length rate rate)) as H1.
  rewrite (upcoming_at_entry rate Hr) in H1. rewrite <- H1. unfold bind, ret.
  destruct (wasapi_init_client_sh_rates env rate_fuel device rate f 0 rate client h t)
    as [x0 t1].
  destruct x0 as [c d h' r' | c d h' | | c |]; try reflexivity.
  pose proof (wasapi_init_client_sh_rates_in_order env device rate (negb f) Hr
                rate_fuel 0 rate c h' t1 (Z.le_refl 0) (upcoming_length rate rate))
    as H2.
  rewrite (upcoming_at_entry rate Hr) in H2. unfold bind, ret in H2. rewrite H2.
  reflexivity.
Qed.

Lemma wasapi_init_client_ex_formats_in_order (env : environment) (device : Z)
    (latency : latency_ms) (f : bool) (rate client : Z) (dur : ref_time)
    (h : HRESULT) (t : trace) :
  rate <> 0 ->
  wasapi_init_client_ex_formats env device latency f rate client dur h t
  = exclusive_in_order env device latency (candidates f rate) f client dur h t.
Proof.
  intros Hr. unfold wasapi_init_client_ex_formats, candidates.
  rewrite exclusive_in_order_app.
  pose proof (wasapi_init_client_ex_rates_in_order env device rate latency f Hr
                rate_fuel 0 rate client dur h t (Z.le_refl 0)
                (upcoming_length rate rate)) as H1.
  rewrite (upcoming_at_entry rate Hr) in H1. rewrite <- H1. unfold bind, ret.
  destruct (wasapi_init_client_ex_rates env rate_fuel device rate latency f 0 rate
              client dur h t) as [x0 t1].
  destruct x0 as [c d h' r' | c d h' | | c |]; try reflexivity.
  pose proof (wasapi_init_client_ex_rates_in_order env device rate latency (negb f)
                Hr rate_fuel 0 rate c d h' t1 (Z.le_refl 0)
                (upcoming_length rate rate)) as H2.
  rewrite (upcoming_at_entry rate Hr) in H2. unfold bind, ret in H2. rewrite H2.
  reflexivity.
Qed.

(** ** Negotiation: what the trace shows *)

Lemma steps_app (a b : trace) : steps (a ++ b) = steps a ++ steps b.
Proof. apply flat_map_app. Qed.

Lemma cands_app (a b : list step) : cands (a ++ b) = cands a ++ cands b.
Proof. apply flat_map_app. Qed.

Lemma cands_answers (hs : list HRESULT) : cands (map Ans hs) = [].
Proof. induction hs; [reflexivity | exact IHhs]. Qed.

(** Run a driver function symbolically: reduce, name every answer of the
    environment (earliest first), and split on every test. *)
Ltac drive env :=
  repeat first
    [ progress cbv beta iota zeta delta [bind ret api emit fst snd negb]
    | match goal with
      | |- context [env ?h ?c] =>
          lazymatch h with
          | context [env _ _] => fail
          | _ => lazymatch c with
                 | context [env _ _] => fail
                 | _ => let r := fresh "r" in generalize (env h c); intros r
                 end
          end
      end
    | match goal with
      | |- context [if FAILED ?h then _ else _] => destruct (FAILED h) eqn:?
      | |- context [if ?a =? ?b then _ else _] => destruct (Z.eqb_spec a b)
      | |- context [if ?a >? ?b then _ else _] => destruct (a >? b) eqn:?
      end ].

(** The same without naming the answers, for statements that mention them. *)
Ltac drive_tests :=
  repeat first
    [ progress cbv beta iota zeta delta [bind ret api emit fst snd negb]
    | match goal with
      | |- context [if FAILED ?h then _ else _] => destruct (FAILED h) eqn:?
      | |- context [if ?a =? ?b then _ else _] => destruct (Z.eqb_spec a b)
      | |- context [if ?a >? ?b then _ else _] => destruct (a >? b) eqn:?
      end ].

Ltac trace_steps :=
  cbn [fst snd]; rewrite ?steps_app; cbn [steps flat_map app];
  rewrite <- ?app_assoc; cbn [app].

(** One turn announces its candidate and then shows one to three answers
    to [Initialize]; all but the last are answers after which the same
    candidate is initialized again, and the last is the answer the turn
    ends with, if it ends with one. *)
Lemma wasapi_init_client_ex_turn_steps (env : environment) (device : Z)
    (latency : latency_ms) (f : bool) (r client : Z) (dur : ref_time) (t : trace) :
  let out := wasapi_init_client_ex_turn env device latency f r client dur t in
  exists retries final,
    steps (snd out) = steps t ++ Cand f r :: map Ans retries ++ [Ans final]
    /\ Forall retried retries
    /\ match fst out with
       | Answered _ _ h => h = final
       | _ => retried final
       end.
Proof.
  unfold wasapi_init_client_ex_turn, wasapi_com_err. drive env; trace_steps.
  all: unfold retried;
    first [ exists []; eexists; split; [reflexivity|]; split; [constructor|];
            solve [auto]
          | eexists [_]; eexists; split; [reflexivity|];
            split; [repeat constructor; solve [auto]|]; solve [auto]
          | eexists [_; _]; eexists; split; [reflexivity|];
            split; [repeat constructor; solve [auto]|]; solve [auto] ].
Qed.

Lemma retried_not_fatal (h : HRESULT) : retried h -> ~ mode_fatal h.
Proof. intros [-> | ->] [H | H]; discriminate H. Qed.

Lemma unsupported_not_fatal : ~ mode_fatal AUDCLNT_E_UNSUPPORTED_FORMAT.
Proof. intros [H | H]; discriminate H. Qed.

Lemma fatal_answers_last_turn (f : bool) (r : Z) (retries : list HRESULT)
    (final : HRESULT) (rest : list step) :
  Forall retried retries -> (mode_fatal final -> rest = []) ->
  fatal_answers_last rest ->
  fatal_answers_last (Cand f r :: map Ans retries ++ Ans final :: rest).
Proof.
  intros Hre Hfin Hrest. cbn [fatal_answers_last].
  induction Hre as [| h hs Hh _ IH]; cbn [map app fatal_answers_last].
  - auto.
  - split; [|exact IH]. intros Hf. destruct (retried_not_fatal h Hh Hf).
Qed.

Lemma only_unsupported_advances_turn (f : bool) (r : Z) (retries : list HRESULT)
    (final : HRESULT) (rest : list step) :
  (rest = [] \/ final = AUDCLNT_E_UNSUPPORTED_FORMAT) ->
  only_unsupported_advances rest ->
  only_unsupported_advances (Cand f r :: map Ans retries ++ Ans final :: rest).
Proof.
  intros Hfin Hrest. cbn [only_unsupported_advances].
  induction retries as [| h hs IH]; cbn [map app only_unsupported_advances].
  - split; [|exact Hrest]. destruct rest as [| [f' r' | h'] rest']; auto.
    destruct Hfin as [H | H]; [discriminate H | exact H].
  - split; [|exact IH]. destruct hs; cbn [map app]; exact I.
Qed.

Lemma in_turn_answers (f : bool) (r : Z) (retries : list HRESULT)
    (final : HRESULT) (rest : list step) (h : HRESULT) :
  In (Ans h) (Cand f r :: map Ans retries ++ Ans final :: rest) ->
  In h retries \/ h = final \/ In (Ans h) rest.
Proof.
  intros [H | H]; [discriminate H|].
  apply in_app_or in H. destruct H as [H | [H | H]].
  - left. apply in_map_iff in H. destruct H as (x & E & Hx). congruence.
  - right. left. congruence.
  - right. right. exact H.
Qed.

Lemma cands_turn (f : bool) (r : Z) (answers : list HRESULT) (rest : list step) :
  cands (Cand f r :: map Ans answers ++ rest) = (f, r) :: cands rest.
Proof.
  change (Cand f r :: map Ans answers ++ rest)
    with ([Cand f r] ++ map Ans answers ++ rest).
  rewrite !cands_app, cands_answers. reflexivity.
Qed.

(** What a pass over a list of candidates shows, and how it ends. *)
Lemma exclusive_in_order_steps (env : environment) (device : Z)
    (latency : latency_ms) (cs : list (bool * Z)) :
  forall (fl : bool) (client : Z) (dur : ref_time) (h : HRESULT) (t : trace),
    let out := exclusive_in_order env device latency cs fl client dur h t in
    exists S k,
      steps (snd out) = steps t ++ S
      /\ cands S = firstn k cs
      /\ fatal_answers_last S /\ only_unsupported_advances S
      /\ (S = [] \/ exists f r S', S = Cand f r :: S')
      /\ (forall h', In (Ans h') S -> mode_fatal h' ->
          exists c, fst (fst out) = GotoError c)
      /\ match fst (fst out) with
         | Break _ _ h' r =>
             nth_error cs (k - 1) = Some (snd (fst out), r) /\ (1 <= k)%nat
             /\ h' <> AUDCLNT_E_UNSUPPORTED_FORMAT
         | Fallthrough _ _ h' =>
             k = length cs
             /\ ((S = [] /\ h' = h) \/ h' = AUDCLNT_E_UNSUPPORTED_FORMAT)
         | _ => True
         end.
Proof.
  induction cs as [| [f r] cs IH]; intros fl client dur h t.
  - exists [], 0%nat. cbn. rewrite app_nil_r.
    repeat split; auto. intros h' [].
  - cbn [exclusive_in_order]. unfold bind, ret.
    destruct (wasapi_init_client_ex_turn_steps env device latency f r client dur t)
      as (retries & final & Hsteps & Hre & Hfin).
    destruct (wasapi_init_client_ex_turn env device latency f r client dur t)
      as [x t1].
    cbn [fst snd] in Hsteps, Hfin.
    assert (Hturn : exists S k,
              steps t1 = steps t ++ S
              /\ cands S = firstn k ((f, r) :: cs)
              /\ fatal_answers_last S /\ only_unsupported_advances S
              /\ (S = [] \/ exists f0 r0 S', S = Cand f0 r0 :: S')
              /\ (forall h', In (Ans h') S -> mode_fatal h' ->
                  mode_fatal final)).
    { exists (Cand f r :: map Ans retries ++ [Ans final]), 1%nat.
      split; [exact Hsteps|]. split; [apply cands_turn|].
      split; [apply fatal_answers_last_turn; cbn; auto|].
      split; [apply only_unsupported_advances_turn; cbn; auto|].
      split; [right; eauto|].
      intros h' Hin Hf. apply in_turn_answers in Hin.
      destruct Hin as [Hin | [-> | []]]; [|exact Hf].
      rewrite Forall_forall in Hre. destruct (retried_not_fatal h' (Hre h' Hin) Hf). }
    destruct x as [c d h' | | c].
    + subst final. destruct (Z.eqb_spec h' AUDCLNT_E_UNSUPPORTED_FORMAT) as [-> | Hne].
      * unfold wasapi_warn, emit. cbv beta iota zeta.
        specialize (IH f c d AUDCLNT_E_UNSUPPORTED_FORMAT
                      (t1 ++ [Logged WARN (Msg "Unsupported format")])).
        cbv zeta in IH.
        destruct (exclusive_in_order env device latency cs f c d
                    AUDCLNT_E_UNSUPPORTED_FORMAT
                    (t1 ++ [Logged WARN (Msg "Unsupported format")]))
          as [[x' fl'] t2].
        cbn [fst snd] in IH |- *.
        destruct IH as (S' & k' & HS' & Hc' & Hf' & Ha' & Hh' & Hin' & Hex').
        exists (Cand f r :: map Ans retries ++ Ans AUDCLNT_E_UNSUPPORTED_FORMAT :: S'),
          (S k').
        split.
        { rewrite HS', steps_app, Hsteps. cbn [steps flat_map app].
          rewrite app_nil_r, <- !app_assoc. cbn [app].
          rewrite <- app_assoc. reflexivity. }
        split.
        { change (Ans AUDCLNT_E_UNSUPPORTED_FORMAT :: S')
            with ([Ans AUDCLNT_E_UNSUPPORTED_FORMAT] ++ S').
          rewrite app_assoc, <- map_last, cands_turn.
          cbn [firstn]. congruence. }
        split.
        { apply fatal_answers_last_turn; auto.
          intros Hf. destruct (unsupported_not_fatal Hf). }
        split; [apply only_unsupported_advances_turn; auto|].
        split; [right; eauto|].
        split.
        { intros h0 Hin Hf. apply in_turn_answers in Hin.
          destruct Hin as [Hin | [-> | Hin]].
          - rewrite Forall_forall in Hre.
            destruct (retried_not_fatal h0 (Hre h0 Hin) Hf).
          - destruct (unsupported_not_fatal Hf).
          - exact (Hin' h0 Hin Hf). }
        destruct x'; auto.
        destruct Hex' as (Hn & Hk & Hu). split; [|split; [lia | exact Hu]].
        { replace (S k' - 1)%nat with (S (k' - 1)) by lia. exact Hn. }
        destruct Hex' as (Hk & Hex'). split; [cbn [length]; congruence|].
        right. destruct Hex' as [[_ E] | E]; exact E.
      * destruct Hturn as (S0 & k0 & A & B & C & D & E & F).
        destruct (Z.eqb_spec h' AUDCLNT_E_DEVICE_IN_USE) as [-> | Hn1];
          [|destruct (Z.eqb_spec h' AUDCLNT_E_EXCLUSIVE_MODE_NOT_ALLOWED)
              as [-> | Hn2]].
        -- unfold wasapi_warn, emit. cbn [fst snd].
           exists S0, k0. rewrite steps_app. cbn [steps flat_map].
           rewrite app_nil_r. repeat (split; [assumption|]).
           split; [eauto | exact I].
        -- unfold wasapi_warn, emit. cbn [fst snd].
           exists S0, k0. rewrite steps_app. cbn [steps flat_map].
           rewrite app_nil_r. repeat (split; [assumption|]).
           split; [eauto | exact I].
        -- cbn [fst snd]. exists (Cand f r :: map Ans retries ++ [Ans h']), 1%nat.
           split; [exact Hsteps|]. split; [apply cands_turn|].
           split; [apply fatal_answers_last_turn; cbn; auto|].
           split; [apply only_unsupported_advances_turn; cbn; auto|].
           split; [right; eauto|].
           split.
           { intros h0 Hin Hf. apply in_turn_answers in Hin.
             destruct Hin as [Hin | [-> | []]].
             - rewrite Forall_forall in Hre.
               destruct (retried_not_fatal h0 (Hre h0 Hin) Hf).
             - destruct Hf; contradiction. }
           cbn. auto.
    + destruct Hturn as (S0 & k0 & A & B & C & D & E & F).
      cbn [fst snd]. exists S0, k0. repeat (split; [assumption|]).
      split; [|exact I]. intros h0 Hin Hf.
      destruct (retried_not_fatal final Hfin (F h0 Hin Hf)).
    + destruct Hturn as (S0 & k0 & A & B & C & D & E & F).
      cbn [fst snd]. exists S0, k0. repeat (split; [assumption|]).
      split; [|exact I]. intros h0 Hin Hf.
      destruct (retried_not_fatal final Hfin (F h0 Hin Hf)).
Qed.

Lemma candidates_not_nil (f : bool) (rate : Z) : candidates f rate <> [].
Proof. discriminate. Qed.

Lemma FAILED_unsupported : FAILED AUDCLNT_E_UNSUPPORTED_FORMAT = true.
Proof. reflexivity. Qed.

Lemma firstn_all_nil {A} (l : list A) : firstn (length l) l = [] -> l = [].
Proof. rewrite firstn_all. auto. Qed.

(** With a rate of 0 the rate loop is never entered. *)
Lemma wasapi_init_client_ex_formats_zero (env : environment) (device : Z)
    (latency : latency_ms) (f : bool) (client : Z) (dur : ref_time)
    (h : HRESULT) (t : trace) :
  wasapi_init_client_ex_formats env device latency f 0 client dur h t
  = (Fallthrough client dur h, negb f, t).
Proof. reflexivity. Qed.

Lemma wasapi_init_client_sh_formats_zero (env : environment) (device : Z)
    (f : bool) (client : Z) (h : HRESULT) (t : trace) :
  wasapi_init_client_sh_formats env device f 0 client h t
  = (Fallthrough client (Ticks 0) h, negb f, t).
Proof. reflexivity. Qed.

(** What an exclusive-mode attempt shows. *)
Lemma wasapi_init_client_ex_steps (env : environment) (device : Z) (f : bool)
    (rate : Z) (latency : latency_ms) (t : trace) :
  let out := wasapi_init_client_ex env device f rate latency t in
  exists S k,
    steps (snd out) = steps t ++ S
    /\ cands S = firstn k (candidates f rate)
    /\ fatal_answers_last S /\ only_unsupported_advances S
    /\ (forall h', In (Ans h') S -> mode_fatal h' ->
        fst out = mkNegotiated NULL f rate latency)
    /\ (n_client (fst out) <> NULL -> rate <> 0 ->
        nth_error (candidates f rate) (k - 1)
        = Some (n_float_fmt (fst out), n_rate (fst out)) /\ (1 <= k)%nat).
Proof.
  assert (Hnone : forall (n : negotiated) (t' : trace),
            steps t' = steps t -> (n_client n <> NULL -> rate = 0) ->
            exists S k,
              steps t' = steps t ++ S
              /\ cands S = firstn k (candidates f rate)
              /\ fatal_answers_last S /\ only_unsupported_advances S
              /\ (forall h', In (Ans h') S -> mode_fatal h' ->
                  n = mkNegotiated NULL f rate latency)
              /\ (n_client n <> NULL -> rate <> 0 ->
                  nth_error (candidates f rate) (k - 1)
                  = Some (n_float_fmt n, n_rate n) /\ (1 <= k)%nat)).
  { intros n t' Ht Hn. exists [], 0%nat. rewrite app_nil_r.
    split; [exact Ht|]. split; [reflexivity|]. split; [exact I|].
    split; [exact I|]. split; [intros h' []|].
    intros H1 H2. destruct (H2 (Hn H1)). }
  cbv zeta. pattern (wasapi_init_client_ex env device f rate latency t).
  match goal with |- ?P _ => set (post := P) end.
  unfold wasapi_init_client_ex, wasapi_com_err, wasapi_com_warn.
  unfold bind at 1. unfold api at 1. cbv beta zeta.
  generalize (env t (Activate device)). intros a.
  destruct (FAILED (hr a)).
  { unfold bind, emit, ret, post. cbn [fst snd]. apply Hnone.
    - trace_steps. rewrite app_nil_r. reflexivity.
    - intros H. destruct (H eq_refl). }
  unfold bind at 1. unfold api at 1. cbv beta zeta.
  match goal with |- context [env ?h (GetDevicePeriod ?c)] =>
    generalize (env h (GetDevicePeriod c)); intros p end.
  destruct (FAILED (hr p)) eqn:Hp.
  { unfold WASAPI_RELEASE. drive env; unfold post; cbn [fst snd]; apply Hnone;
      try (trace_steps; rewrite app_nil_r; reflexivity);
      intros H; destruct (H eq_refl). }
  unfold bind at 1.
  destruct (Z.eqb_spec rate 0) as [-> | Hr].
  { rewrite wasapi_init_client_ex_formats_zero. rewrite Hp.
    drive env; unfold post; cbn [fst snd]; apply Hnone; auto;
      trace_steps; rewrite app_nil_r; reflexivity. }
  rewrite wasapi_init_client_ex_formats_in_order by exact Hr.
  match goal with |- context [exclusive_in_order env device latency ?cs ?fl ?c ?d ?h ?t0] =>
    pose proof (exclusive_in_order_steps env device latency cs fl c d h t0) as Hscan;
    cbv zeta in Hscan;
    destruct (exclusive_in_order env device latency cs fl c d h t0) as [[x fl'] t1]
  end.
  cbn [fst snd] in Hscan.
  destruct Hscan as (S & k & HS & Hc & Hfl & Hadv & _ & Hfatal & Hex).
  rewrite !steps_app in HS. cbn [steps flat_map app] in HS.
  rewrite !app_nil_r in HS.
  assert (Hdone : forall (n : negotiated) (t' : trace),
            steps t' = steps t1 ->
            ((exists c, x = GotoError c) -> n = mkNegotiated NULL f rate latency) ->
            (n_client n <> NULL ->
             nth_error (candidates f rate) (k - 1)
             = Some (n_float_fmt n, n_rate n) /\ (1 <= k)%nat) ->
            exists S k,
              steps t' = steps t ++ S
              /\ cands S = firstn k (candidates f rate)
              /\ fatal_answers_last S /\ only_unsupported_advances S
              /\ (forall h', In (Ans h') S -> mode_fatal h' ->
                  n = mkNegotiated NULL f rate latency)
              /\ (n_client n <> NULL -> rate <> 0 ->
                  nth_error (candidates f rate) (k - 1)
                  = Some (n_float_fmt n, n_rate n) /\ (1 <= k)%nat)).
  { intros n t' Ht Hg Hn. exists S, k. rewrite Ht, HS.
    repeat (split; [assumption || reflexivity|]).
    split; [|auto]. intros h' Hin Hf. apply Hg. exact (Hfatal h' Hin Hf). }
  destruct x as [c d h' r | c d h' | | c |]; unfold WASAPI_RELEASE.
  - destruct Hex as (Hn & Hk & _).
    drive env; unfold post; cbn [fst snd]; apply Hdone;
      try (trace_steps; rewrite ?app_nil_r; reflexivity);
      try (intros (c0 & Hc0); discriminate Hc0);
      try (intros H; destruct (H eq_refl)); auto.
  - destruct Hex as (Hk & Hex).
    assert (Hh' : h' = AUDCLNT_E_UNSUPPORTED_FORMAT).
    { destruct Hex as [[-> _] | E]; [|exact E].
      subst k. cbn [cands flat_map] in Hc. symmetry in Hc.
      apply firstn_all_nil in Hc. destruct (candidates_not_nil f rate Hc). }
    subst h'. rewrite FAILED_unsupported.
    drive env; unfold post; cbn [fst snd]; apply Hdone;
      try (trace_steps; rewrite ?app_nil_r; reflexivity);
      try (intros (c0 & Hc0); discriminate Hc0);
      try (intros H; destruct (H eq_refl)); auto.
  - drive env; unfold post; cbn [fst snd]; apply Hdone; auto; intros H; destruct (H eq_refl).
  - drive env; unfold post; cbn [fst snd]; apply Hdone;
      try (trace_steps; rewrite ?app_nil_r; reflexivity); auto;
      intros H; destruct (H eq_refl).
  - drive env; unfold post; cbn [fst snd]; apply Hdone; auto; intros H; destruct (H eq_refl).
Qed.




(** ** Exclusive mode: answers that end the attempt *)

(** C4: in an exclusive-mode attempt, an answer "device in use" or
    "exclusive mode not allowed" to [Initialize] is the last step of the
    attempt: no further candidate is announced or initialized, and the
    attempt returns no client and leaves format, rate and latency as they
    were.  An answer directly followed by the announcement of another
    candidate is always "unsupported format". *)
Theorem exclusive_mode_fatal_answers (env : environment) (device : Z) (f : bool)
    (rate : Z) (latency : latency_ms) (t : trace) :
  let out := wasapi_init_client_ex env device f rate latency t in
  exists S,
    steps (snd out) = steps t ++ S
    /\ fatal_answers_last S
    /\ only_unsupported_advances S
    /\ forall h, In (Ans h) S -> mode_fatal h ->
         fst out = mkNegotiated NULL f rate latency.
Proof.
  destruct (wasapi_init_client_ex_steps env device f rate latency t)
    as (S & k & HS & _ & Hf & Ha & Hfatal & _).
  exists S. auto.
Qed.

(** ** Negotiation: the order of the candidates *)

Lemma moves_app (a b : trace) : moves (a ++ b) = moves a ++ moves b.
Proof. apply flat_map_app. Qed.

Lemma format_candidate_set_format (f : bool) (r : Z) :
  format_candidate (wasapi_set_format f r) = (f, r).
Proof. destruct f; reflexivity. Qed.

Ltac trace_moves :=
  cbn [fst snd]; rewrite ?moves_app; cbn [moves flat_map app];
  rewrite ?format_candidate_set_format; rewrite <- ?app_assoc; cbn [app].

Lemma retried_not_unsupported (h : HRESULT) :
  retried h -> (h =? AUDCLNT_E_UNSUPPORTED_FORMAT) = false.
Proof. intros [-> | ->]; reflexivity. Qed.

Lemma tried_moves (t : trace) : tried t = announcements (moves t).
Proof.
  unfold tried. induction t as [| e t IH]; [reflexivity|].
  change (e :: t) with ([e] ++ t).
  rewrite steps_app, moves_app, cands_app. unfold announcements in *.
  rewrite flat_map_app, <- IH. f_equal.
  destruct e as [[] a | [] [] |]; reflexivity.
Qed.

Lemma announcements_turns (turns : list cand_turn) :
  announcements (flat_map turn_moves turns) = map t_cand turns.
Proof.
  induction turns as [| x turns IH]; [reflexivity|].
  cbn [flat_map map]. unfold announcements in *. rewrite flat_map_app, IH.
  unfold turn_moves. cbn [flat_map app]. f_equal.
  induction (t_retries x ++ [t_final x]) as [| h hs IHh]; [reflexivity | exact IHh].
Qed.

(** One turn of either rate loop is the turn of its candidate: the
    candidate is announced and then offered, again after each answer that
    asks for it; the turn ends with the last answer, or is cut short after
    an answer that asked for another offer. *)
Lemma wasapi_init_client_sh_turn_moves (env : environment) (device : Z)
    (f : bool) (r client : Z) (t : trace) :
  let out := wasapi_init_client_sh_turn env device f r client t in
  exists x,
    t_cand x = (f, r)
    /\ moves (snd out) = moves t ++ turn_moves x
    /\ Forall retried (t_retries x)
    /\ match fst out with
       | Answered _ _ h => h = t_final x
       | _ => retried (t_final x)
       end.
Proof.
  unfold wasapi_init_client_sh_turn, wasapi_com_err. drive env; trace_moves.
  all: unfold retried, turn_moves;
    first [ eexists (mkTurn (f, r) [] _); split; [reflexivity|];
            split; [reflexivity|]; split; [constructor|]; solve [auto]
          | eexists (mkTurn (f, r) [_] _); split; [reflexivity|];
            split; [reflexivity|];
            split; [repeat constructor; solve [auto]|]; solve [auto] ].
Qed.

Lemma wasapi_init_client_ex_turn_moves (env : environment) (device : Z)
    (latency : latency_ms) (f : bool) (r client : Z) (dur : ref_time) (t : trace) :
  let out := wasapi_init_client_ex_turn env device latency f r client dur t in
  exists x,
    t_cand x = (f, r)
    /\ moves (snd out) = moves t ++ turn_moves x
    /\ Forall retried (t_retries x)
    /\ match fst out with
       | Answered _ _ h => h = t_final x
       | _ => retried (t_final x)
       end.
Proof.
  unfold wasapi_init_client_ex_turn, wasapi_com_err. drive env; trace_moves.
  all: unfold retried, turn_moves;
    first [ eexists (mkTurn (f, r) [] _); split; [reflexivity|];
            split; [reflexivity|]; split; [constructor|]; solve [auto]
          | eexists (mkTurn (f, r) [_] _); split; [reflexivity|];
            split; [reflexivity|];
            split; [repeat constructor; solve [auto]|]; solve [auto]
          | eexists (mkTurn (f, r) [_; _] _); split; [reflexivity|];
            split; [reflexivity|];
            split; [repeat constructor; solve [auto]|]; solve [auto] ].
Qed.

Lemma follows_order_single (x : cand_turn) (c : bool * Z) (cs : list (bool * Z)) :
  t_cand x = c -> Forall retried (t_retries x) ->
  (t_final x =? AUDCLNT_E_UNSUPPORTED_FORMAT) = false ->
  follows_order (c :: cs) [x].
Proof. intros Hc Hre Hf. cbn [follows_order]. rewrite Hf. auto. Qed.

Lemma pass_end_cons (h h0 : HRESULT) (x0 : cand_turn) (turns : list cand_turn)
    (x : loop_exit) (fl : bool) :
  h0 = AUDCLNT_E_UNSUPPORTED_FORMAT ->
  pass_end h0 turns x fl -> pass_end h (x0 :: turns) x fl.
Proof.
  intros Hh0 H. destruct x as [c d h' r | c d h' | | c |]; cbn [pass_end] in *; auto.
  - destruct H as (earlier & last & -> & Hf & Hc).
    exists (x0 :: earlier), last. auto.
  - right. destruct H as [[_ ->] | ->]; auto.
Qed.

Lemma shared_in_order_moves (env : environment) (device : Z)
    (cs : list (bool * Z)) :
  forall (fl : bool) (client : Z) (h : HRESULT) (t : trace),
    let out := shared_in_order env device cs fl client h t in
    exists turns,
      moves (snd out) = moves t ++ flat_map turn_moves turns
      /\ follows_order cs turns
      /\ (turns = [] -> cs = [])
      /\ pass_end h turns (fst (fst out)) (snd (fst out)).
Proof.
  induction cs as [| [f r] cs IH]; intros fl client h t.
  - exists []. cbn [shared_in_order exclusive_in_order]. unfold ret.
    cbn [fst snd flat_map follows_order pass_end]. rewrite app_nil_r.
    split; [reflexivity|]. split; [exact I|]. split; [reflexivity|]. left. auto.
  - cbn [shared_in_order]. unfold bind, ret.
    destruct (wasapi_init_client_sh_turn_moves env device f r client t)
      as (x0 & Hc & Hm & Hre & Hfin).
    destruct (wasapi_init_client_sh_turn env device f r client t) as [x t1].
    cbn [fst snd] in Hm, Hfin.
    assert (Hone : forall (x' : loop_exit),
              (t_final x0 =? AUDCLNT_E_UNSUPPORTED_FORMAT) = false ->
              pass_end h [x0] x' f ->
              exists turns,
                moves t1 = moves t ++ flat_map turn_moves turns
                /\ follows_order ((f, r) :: cs) turns
                /\ (turns = [] -> (f, r) :: cs = [])
                /\ pass_end h turns x' f).
    { intros x' Hf Hend. exists [x0]. cbn [flat_map]. rewrite app_nil_r.
      split; [exact Hm|]. split; [apply follows_order_single; assumption|].
      split; [discriminate | exact Hend]. }
    destruct x as [c d h' | | c].
    + subst h'.
      destruct (Z.eqb_spec (t_final x0) AUDCLNT_E_UNSUPPORTED_FORMAT) as [E | Hne].
      * unfold wasapi_warn, emit. cbv beta iota zeta.
        specialize (IH f c (t_final x0)
                      (t1 ++ [Logged WARN (Msg "Unsupported format")])).
        cbv zeta in IH.
        destruct (shared_in_order env device cs f c (t_final x0)
                    (t1 ++ [Logged WARN (Msg "Unsupported format")]))
          as [[x' fl'] t2].
        cbn [fst snd] in IH |- *.
        destruct IH as (turns & Hm' & Hord & Hnil & Hend).
        exists (x0 :: turns).
        split.
        { rewrite Hm', moves_app, Hm. cbn [moves flat_map app].
          rewrite app_nil_r, <- !app_assoc. reflexivity. }
        split.
        { cbn [follows_order]. rewrite E. cbn [Z.eqb]. rewrite Z.eqb_refl. auto. }
        split; [discriminate|].
        apply (pass_end_cons h (t_final x0)); assumption.
      * cbn [fst snd]. apply Hone; [reflexivity|].
        cbn [pass_end]. exists [], x0. auto.
    + cbn [fst snd]. apply Hone; [apply retried_not_unsupported; exact Hfin | exact I].
    + cbn [fst snd]. apply Hone; [apply retried_not_unsupported; exact Hfin | exact I].
Qed.

Lemma exclusive_in_order_moves (env : environment) (device : Z)
    (latency : latency_ms) (cs : list (bool * Z)) :
  forall (fl : bool) (client : Z) (dur : ref_time) (h : HRESULT) (t : trace),
    let out := exclusive_in_order env device latency cs fl client dur h t in
    exists turns,
      moves (snd out) = moves t ++ flat_map turn_moves turns
      /\ follows_order cs turns
      /\ (turns = [] -> cs = [])
      /\ pass_end h turns (fst (fst out)) (snd (fst out)).
Proof.
  induction cs as [| [f r] cs IH]; intros fl client dur h t.
  - exists []. cbn [shared_in_order exclusive_in_order]. unfold ret.
    cbn [fst snd flat_map follows_order pass_end]. rewrite app_nil_r.
    split; [reflexivity|]. split; [exact I|]. split; [reflexivity|]. left. auto.
  - cbn [exclusive_in_order]. unfold bind, ret.
    destruct (wasapi_init_client_ex_turn_moves env device latency f r client dur t)
      as (x0 & Hc & Hm & Hre & Hfin).
    destruct (wasapi_init_client_ex_turn env device latency f r client dur t)
      as [x t1].
    cbn [fst snd] in Hm, Hfin.
    assert (Hone : forall (x' : loop_exit) (t' : trace),
              moves t' = moves t1 ->
              (t_final x0 =? AUDCLNT_E_UNSUPPORTED_FORMAT) = false ->
              pass_end h [x0] x' f ->
              exists turns,
                moves t' = moves t ++ flat_map turn_moves turns
                /\ follows_order ((f, r) :: cs) turns
                /\ (turns = [] -> (f, r) :: cs = [])
                /\ pass_end h turns x' f).
    { intros x' t' Ht' Hf Hend. exists [x0]. cbn [flat_map]. rewrite app_nil_r.
      split; [rewrite Ht'; exact Hm|].
      split; [apply follows_order_single; assumption|].
      split; [discriminate | exact Hend]. }
    destruct x as [c d h' | | c].
    + subst h'.
      destruct (Z.eqb_spec (t_final x0) AUDCLNT_E_UNSUPPORTED_FORMAT) as [E | Hne].
      * unfold wasapi_warn, emit. cbv beta iota zeta.
        specialize (IH f c d (t_final x0)
                      (t1 ++ [Logged WARN (Msg "Unsupported format")])).
        cbv zeta in IH.
        destruct (exclusive_in_order env device latency cs f c d (t_final x0)
                    (t1 ++ [Logged WARN (Msg "Unsupported format")]))
          as [[x' fl'] t2].
        cbn [fst snd] in IH |- *.
        destruct IH as (turns & Hm' & Hord & Hnil & Hend).
        exists (x0 :: turns).
        split.
        { rewrite Hm', moves_app, Hm. cbn [moves flat_map app].
          rewrite app_nil_r, <- !app_assoc. reflexivity. }
        split.
        { cbn [follows_order]. rewrite E. cbn [Z.eqb]. rewrite Z.eqb_refl. auto. }
        split; [discriminate|].
        apply (pass_end_cons h (t_final x0)); assumption.
      * destruct (t_final x0 =? AUDCLNT_E_DEVICE_IN_USE);
          [|destruct (t_final x0 =? AUDCLNT_E_EXCLUSIVE_MODE_NOT_ALLOWED)];
          unfold wasapi_warn, emit; cbn [fst snd]; apply Hone;
          try exact I;
          try (rewrite moves_app; cbn [moves flat_map]; apply app_nil_r);
          try reflexivity.
        cbn [pass_end]. exists [], x0. auto.
    + cbn [fst snd].
      apply Hone; [reflexivity | apply retried_not_unsupported; exact Hfin | exact I].
    + cbn [fst snd].
      apply Hone; [reflexivity | apply retried_not_unsupported; exact Hfin | exact I].
Qed.

(** What a shared-mode attempt shows. *)
Lemma wasapi_init_client_sh_moves (env : environment) (device : Z) (f : bool)
    (rate : Z) (latency : latency_ms) (t : trace) :
  rate <> 0 ->
  let a := env t (Activate device) in
  let out := wasapi_init_client_sh env device f rate latency t in
  exists turns,
    moves (snd out) = moves t ++ flat_map turn_moves turns
    /\ follows_order (candidates f rate) turns
    /\ (turns = [] -> FAILED (hr a) = true)
    /\ (n_client (fst out) <> NULL ->
        exists earlier last,
          turns = earlier ++ [last]
          /\ FAILED (t_final last) = false
          /\ t_cand last = (n_float_fmt (fst out), n_rate (fst out))).
Proof.
  intros Hr a out. subst a. remember (env t (Activate device)) as a eqn:Ea.
  post_of out.
  unfold wasapi_init_client_sh, wasapi_com_err, wasapi_com_warn.
  unfold bind at 1. unfold api at 1. cbv beta zeta. rewrite <- Ea. clear Ea.
  destruct (FAILED (hr a)) eqn:Ha.
  { unfold bind, emit, ret, post. cbn [fst snd]. exists [].
    trace_moves. rewrite app_nil_r.
    split; [reflexivity|]. split; [exact I|]. split; [reflexivity|].
    intros H. destruct (H eq_refl). }
  unfold bind at 1.
  rewrite wasapi_init_client_sh_formats_in_order by exact Hr.
  match goal with |- context [shared_in_order env device ?cs ?fl ?c ?h ?t0] =>
    pose proof (shared_in_order_moves env device cs fl c h t0) as Hscan;
    cbv zeta in Hscan;
    destruct (shared_in_order env device cs fl c h t0) as [[x fl'] t1]
  end.
  cbn [fst snd] in Hscan.
  destruct Hscan as (turns & Hm & Hord & Hnil & Hend).
  rewrite moves_app in Hm. cbn [moves flat_map app] in Hm.
  rewrite app_nil_r in Hm.
  assert (Hdone : forall (n : negotiated) (t' : trace),
            moves t' = moves t1 ->
            (n_client n <> NULL ->
             exists earlier last,
               turns = earlier ++ [last]
               /\ FAILED (t_final last) = false
               /\ t_cand last = (n_float_fmt n, n_rate n)) ->
            post (n, t')).
  { intros n t' Ht Hn. unfold post. cbn [fst snd]. exists turns.
    rewrite Ht. split; [exact Hm|]. split; [exact Hord|].
    split; [|exact Hn].
    intros E. destruct (candidates_not_nil f rate (Hnil E)). }
  destruct x as [c d h' r | c d h' | | c |]; unfold WASAPI_RELEASE;
    cbn [pass_end] in Hend.
  - destruct Hend as (earlier & last & Hturns & Hfin & Hcand). subst h'.
    drive env; apply Hdone;
      try (trace_moves; rewrite ?app_nil_r; reflexivity);
      cbn [n_client n_float_fmt n_rate];
      try (intros H; destruct (H eq_refl); fail);
      intros _; exists earlier, last; auto.
  - assert (Hh' : h' = AUDCLNT_E_UNSUPPORTED_FORMAT).
    { destruct Hend as [[E _] | E]; [|exact E].
      destruct (candidates_not_nil f rate (Hnil E)). }
    subst h'. rewrite FAILED_unsupported.
    drive env; apply Hdone;
      try (trace_moves; rewrite ?app_nil_r; reflexivity);
      intros H; destruct (H eq_refl).
  - drive env; apply Hdone; auto; intros H; destruct (H eq_refl).
  - drive env; apply Hdone;
      try (trace_moves; rewrite ?app_nil_r; reflexivity);
      intros H; destruct (H eq_refl).
  - drive env; apply Hdone; auto; intros H; destruct (H eq_refl).
Qed.

(** What an exclusive-mode attempt shows. *)
Lemma wasapi_init_client_ex_moves (env : environment) (device : Z) (f : bool)
    (rate : Z) (latency : latency_ms) (t : trace) :
  rate <> 0 ->
  let a := env t (Activate device) in
  let p := env (t ++ [Api (Activate device) a]) (GetDevicePeriod (val a)) in
  let out := wasapi_init_client_ex env device f rate latency t in
  exists turns,
    moves (snd out) = moves t ++ flat_map turn_moves turns
    /\ follows_order (candidates f rate) turns
    /\ (turns = [] -> FAILED (hr a) = true \/ FAILED (hr p) = true)
    /\ (n_client (fst out) <> NULL ->
        exists earlier last,
          turns = earlier ++ [last]
          /\ FAILED (t_final last) = false
          /\ t_cand last = (n_float_fmt (fst out), n_rate (fst out))).
Proof.
  intros Hr a p out. subst p a. remember (env t (Activate device)) as a eqn:Ea.
  remember (env (t ++ [Api (Activate device) a]) (GetDevicePeriod (val a)))
    as p eqn:Ep.
  post_of out.
  unfold wasapi_init_client_ex, wasapi_com_err, wasapi_com_warn.
  unfold bind at 1. unfold api at 1. cbv beta zeta. rewrite <- Ea. clear Ea.
  destruct (FAILED (hr a)) eqn:Ha.
  { unfold bind, emit, ret, post. cbn [fst snd]. exists [].
    trace_moves. rewrite app_nil_r.
    split; [reflexivity|]. split; [exact I|]. split; [auto|].
    intros H. destruct (H eq_refl). }
  unfold bind at 1. unfold api at 1. cbv beta zeta. rewrite <- Ep. clear Ep.
  destruct (FAILED (hr p)) eqn:Hp.
  { unfold WASAPI_RELEASE. drive env; unfold post; cbn [fst snd]; exists [];
      trace_moves; rewrite ?app_nil_r;
      (split; [reflexivity|]); (split; [exact I|]); (split; [auto|]);
      intros H; destruct (H eq_refl). }
  unfold bind at 1.
  rewrite wasapi_init_client_ex_formats_in_order by exact Hr.
  match goal with
  | |- context [exclusive_in_order env device latency ?cs ?fl ?c ?d ?h ?t0] =>
    pose proof (exclusive_in_order_moves env device latency cs fl c d h t0) as Hscan;
    cbv zeta in Hscan;
    destruct (exclusive_in_order env device latency cs fl c d h t0) as [[x fl'] t1]
  end.
  cbn [fst snd] in Hscan.
  destruct Hscan as (turns & Hm & Hord & Hnil & Hend).
  rewrite !moves_app in Hm. cbn [moves flat_map app] in Hm.
  rewrite !app_nil_r in Hm.
  assert (Hdone : forall (n : negotiated) (t' : trace),
            moves t' = moves t1 ->
            (n_client n <> NULL ->
             exists earlier last,
               turns = earlier ++ [last]
               /\ FAILED (t_final last) = false
               /\ t_cand last = (n_float_fmt n, n_rate n)) ->
            post (n, t')).
  { intros n t' Ht Hn. unfold post. cbn [fst snd]. exists turns.
    rewrite Ht. split; [exact Hm|]. split; [exact Hord|].
    split; [|exact Hn].
    intros E. destruct (candidates_not_nil f rate (Hnil E)). }
  destruct x as [c d h' r | c d h' | | c |]; unfold WASAPI_RELEASE;
    cbn [pass_end] in Hend.
  - destruct Hend as (earlier & last & Hturns & Hfin & Hcand). subst h'.
    drive env; apply Hdone;
      try (trace_moves; rewrite ?app_nil_r; reflexivity);
      cbn [n_client n_float_fmt n_rate];
      try (intros H; destruct (H eq_refl); fail);
      intros _; exists earlier, last; auto.
  - assert (Hh' : h' = AUDCLNT_E_UNSUPPORTED_FORMAT).
    { destruct Hend as [[E _] | E]; [|exact E].
      destruct (candidates_not_nil f rate (Hnil E)). }
    subst h'. rewrite FAILED_unsupported.
    drive env; apply Hdone;
      try (trace_moves; rewrite ?app_nil_r; reflexivity);
      intros H; destruct (H eq_refl).
  - drive env; apply Hdone; auto; intros H; destruct (H eq_refl).
  - drive env; apply Hdone;
      try (trace_moves; rewrite ?app_nil_r; reflexivity);
      intros H; destruct (H eq_refl).
  - drive env; apply Hdone; auto; intros H; destruct (H eq_refl).
Qed.

(** C2, as the code has it: for a requested rate other than 0, a mode
    attempt goes through the candidates in the order (f, r), (f, preferred
    rates without r), (not f, r), (not f, preferred rates without r).  Each
    candidate is announced and then offered to the engine in an
    [Initialize] request whose format has the candidate's sample format and
    rate; it is offered again after an answer "already initialized" or
    "buffer size not aligned".  The attempt goes on to the next candidate
    exactly when the last answer to the current one is "unsupported format",
    and ends with any other last answer, be it acceptance or another failure.
    The first candidate has its turn unless the attempt could not be set up.
    When the attempt returns a client, the last answer was a success and
    the format and rate returned are those of the last candidate. *)
Theorem negotiation_order (env : environment) (device : Z) (exclusive f : bool)
    (rate : Z) (latency : latency_ms) (t : trace) :
  rate <> 0 ->
  let a := env t (Activate device) in
  let p := env (t ++ [Api (Activate device) a]) (GetDevicePeriod (val a)) in
  let out := if exclusive then wasapi_init_client_ex env device f rate latency t
             else wasapi_init_client_sh env device f rate latency t in
  exists turns,
    moves (snd out) = moves t ++ flat_map turn_moves turns
    /\ follows_order (candidates f rate) turns
    /\ tried (snd out) = tried t ++ firstn (length turns) (candidates f rate)
    /\ (turns = [] ->
        FAILED (hr a) = true \/ (exclusive = true /\ FAILED (hr p) = true))
    /\ (n_client (fst out) <> NULL ->
        exists earlier last,
          turns = earlier ++ [last]
          /\ FAILED (t_final last) = false
          /\ t_cand last = (n_float_fmt (fst out), n_rate (fst out))).
Proof.
  intros Hr a p out.
  assert (Hprefix : forall cs turns,
            follows_order cs turns -> map t_cand turns = firstn (length turns) cs).
  { intros cs turns. revert cs.
    induction turns as [| x turns IH]; intros cs H; [reflexivity|].
    destruct cs as [| c cs]; [destruct H|]. cbn [follows_order] in H.
    destruct H as (Hc & _ & H). cbn [map length firstn]. rewrite Hc. f_equal.
    destruct (t_final x =? AUDCLNT_E_UNSUPPORTED_FORMAT).
    - apply IH. exact (proj1 H).
    - subst turns. reflexivity. }
  assert (Htried : forall turns,
            moves (snd out) = moves t ++ flat_map turn_moves turns ->
            follows_order (candidates f rate) turns ->
            tried (snd out) = tried t ++ firstn (length turns) (candidates f rate)).
  { intros turns Hm Hord. rewrite !tried_moves, Hm. unfold announcements.
    rewrite flat_map_app. fold (announcements (flat_map turn_moves turns)).
    rewrite announcements_turns, (Hprefix _ _ Hord). reflexivity. }
  destruct exclusive; subst out.
  - destruct (wasapi_init_client_ex_moves env device f rate latency t Hr)
      as (turns & Hm & Hord & Hnil & Hn).
    exists turns. split; [exact Hm|]. split; [exact Hord|].
    split; [exact (Htried turns Hm Hord)|]. split; [|exact Hn].
    intros E. destruct (Hnil E); auto.
  - destruct (wasapi_init_client_sh_moves env device f rate latency t Hr)
      as (turns & Hm & Hord & Hnil & Hn).
    exists turns. split; [exact Hm|]. split; [exact Hord|].
    split; [exact (Htried turns Hm Hord)|]. split; [|exact Hn].
    intros E. left. exact (Hnil E).
Qed.

Lemma negotiation_order_witness :
  let env := env_no_format in
  let t := @nil event in
  let a := env t (Activate 1) in
  let p := env (t ++ [Api (Activate 1) a]) (GetDevicePeriod (val a)) in
  let out := wasapi_init_client_ex env 1 true 44100 (LatRequested 64) t in
  44100 <> 0
  /\ exists turns,
       moves (snd out) = moves t ++ flat_map turn_moves turns
       /\ follows_order (candidates true 44100) turns
       /\ tried (snd out) = tried t ++ firstn (length turns) (candidates true 44100)
       /\ (turns = [] ->
           FAILED (hr a) = true \/ (true = true /\ FAILED (hr p) = true))
       /\ (n_client (fst out) <> NULL ->
           exists earlier last,
             turns = earlier ++ [last]
             /\ FAILED (t_final last) = false
             /\ t_cand last = (n_float_fmt (fst out), n_rate (fst out))).
Proof.
  assert (H : 44100 <> 0) by discriminate.
  split; [exact H|].
  exact (negotiation_order env_no_format 1 true true 44100 (LatRequested 64) [] H).
Defined.

(** C2 as stated fails when the engine refuses a candidate with a failure
    other than "unsupported format": nothing was accepted, yet the attempt
    stops after the first candidate. *)
Lemma negotiation_stops_on_failure :
  let out := wasapi_init_client_sh env_failing_initialize 1 true 44100
               (LatRequested 64) [] in
  n_client (fst out) = NULL
  /\ tried (snd out) = [(true, 44100)]
  /\ candidates true 44100
     = [(true, 44100); (true, 48000); (true, 96000); (true, 192000);
        (false, 44100); (false, 48000); (false, 96000); (false, 192000)]
  /\ steps (snd out) = [Cand true 44100; Ans (-1)].
Proof. cbn. repeat split. Qed.

(** ** Device resolution *)

Lemma match_count_app (a b : trace) :
  match_count (a ++ b) = (match_count a + match_count b)%nat.
Proof. unfold match_count. rewrite filter_app, length_app. reflexivity. Qed.

Lemma item_indices_app (a b : trace) :
  item_indices (a ++ b) = item_indices a ++ item_indices b.
Proof. apply flat_map_app. Qed.

Ltac trace_counts :=
  cbn [fst snd];
  rewrite ?match_count_app, ?item_indices_app;
  cbn [match_count item_indices is_match filter flat_map length app];
  rewrite ?app_nil_r, ?Nat.add_0_r.

(** Looking at one endpoint: it is reported as found only when the
    comparison answered 0; every failure on the way reports "not found". *)
Lemma wasapi_check_device_id_counts (env : environment) (device : Z) (id : string)
    (t : trace) :
  let out := wasapi_check_device_id env device id t in
  item_indices (snd out) = item_indices t
  /\ match_count (snd out)
     = (match_count t + if fst out then 1 else 0)%nat.
Proof.
  cbv zeta. pattern (wasapi_check_device_id env device id t).
  match goal with |- ?P _ => set (post := P) end.
  unfold wasapi_check_device_id, wasapi_sys_err, wasapi_err, wasapi_com_err.
  drive env; unfold post; trace_counts; cbn [negb andb].
  all: try (split; reflexivity).
  all: match goal with
       | |- context [?a =? 0] => destruct (a =? 0)
       end; split; reflexivity.
Qed.

(** The enumeration looks at the endpoints in order; it leaves the loop
    early only on a match, so without a match every endpoint has been
    looked at, whatever failed on the way, and no device is left. *)
Lemma wasapi_init_device_loop_counts (env : environment) (collection : Z)
    (id : string) (n : nat) :
  forall (i : Z) (t : trace),
    let out := wasapi_init_device_loop env n collection id i t in
    exists k,
      (k <= n)%nat
      /\ item_indices (snd out) = item_indices t ++ Zseq i k
      /\ (match_count t <= match_count (snd out))%nat
      /\ (match_count (snd out) = match_count t -> k = n /\ fst out = NULL).
Proof.
  induction n as [| n IH]; intros i t.
  - exists 0%nat. cbn. rewrite app_nil_r. auto.
  - cbv zeta. pattern (wasapi_init_device_loop env (S n) collection id i t).
    match goal with |- ?P _ => set (post := P) end.
    cbn [wasapi_init_device_loop]. unfold wasapi_com_err.
    unfold bind at 1. unfold api at 1. cbv beta zeta.
    generalize (env t (Item collection i)). intros it.
    assert (Hitem : item_indices (t ++ [Api (Item collection i) it])
                    = item_indices t ++ [i]).
    { rewrite item_indices_app. reflexivity. }
    assert (Hmatch : match_count (t ++ [Api (Item collection i) it]) = match_count t).
    { rewrite match_count_app. cbn. lia. }
    assert (Hnext : forall t2,
              item_indices t2 = item_indices t ++ [i] ->
              match_count t2 = match_count t ->
              post (wasapi_init_device_loop env n collection id (i + 1) t2)).
    { intros t2 Hi2 Hm2. unfold post.
      specialize (IH (i + 1) t2). cbv zeta in IH.
      destruct IH as (k & Hk & Hi & Hm & Hn).
      rewrite Hi2 in Hi. rewrite Hm2 in Hm, Hn.
      exists (S k). split; [lia|]. split.
      { rewrite Hi, <- app_assoc. reflexivity. }
      split; [exact Hm|]. intros E. destruct (Hn E). split; [lia | assumption]. }
    destruct (FAILED (hr it)).
    + unfold bind, emit. cbv beta iota zeta. apply Hnext.
      * rewrite item_indices_app. cbn. rewrite app_nil_r. exact Hitem.
      * rewrite match_count_app. cbn. lia.
    + unfold bind at 1.
      pose proof (wasapi_check_device_id_counts env (val it) id
                    (t ++ [Api (Item collection i) it])) as Hchk.
      cbv zeta in Hchk.
      destruct (wasapi_check_device_id env (val it) id _) as [found t1].
      cbn [fst snd] in Hchk. destruct Hchk as (Hi1 & Hm1).
      rewrite Hitem in Hi1. rewrite Hmatch in Hm1.
      destruct found.
      * unfold ret, post. cbn [fst snd]. exists 1%nat.
        split; [lia|]. split; [exact Hi1|]. split; [lia|]. intros E. lia.
      * unfold WASAPI_RELEASE, bind, api, ret. destruct (val it =? NULL).
        -- apply Hnext; [exact Hi1 | lia].
        -- apply Hnext.
           ++ rewrite item_indices_app. cbn. rewrite app_nil_r. exact Hi1.
           ++ rewrite match_count_app. cbn. lia.
Qed.

(** Without an id, the resolver gives the platform's default endpoint. *)
Lemma wasapi_init_device_default (env : environment) (t : trace) :
  fst (wasapi_init_device env None t)
  = match default_endpoint env t with Some d => d | None => NULL end.
Proof.
  unfold default_endpoint, wasapi_init_device, wasapi_init_device_error,
    wasapi_log, wasapi_err, wasapi_com_err, WASAPI_RELEASE.
  drive_tests; cbn [fst snd orb]; try reflexivity; try congruence.
  all: match goal with
       | |- context [?a =? NULL] => destruct (Z.eqb_spec a NULL)
       end; cbn [fst snd]; try reflexivity; try congruence.
Qed.

(** With an id: without a match no device is found, and every endpoint the
    platform counts has been looked at. *)
Lemma wasapi_init_device_by_id (env : environment) (s : string) (t : trace) :
  let out := wasapi_init_device env (Some s) t in
  (match_count (snd out) = match_count t -> fst out = NULL)
  /\ (forall n, endpoint_count env s t = Some n ->
      match_count (snd out) = match_count t ->
      item_indices (snd out) = item_indices t ++ Zseq 0 n).
Proof.
  cbv zeta. pattern (wasapi_init_device env (Some s) t).
  match goal with |- ?P _ => set (post := P) end.
  assert (Hnull : forall t', (endpoint_count env s t = None) -> post (NULL, t')).
  { intros t' Hc. unfold post. cbn [fst snd]. split; [reflexivity|].
    intros n Hn. congruence. }
  unfold wasapi_init_device, wasapi_init_device_error,
    wasapi_log, wasapi_warn, wasapi_com_err, WASAPI_RELEASE.
  drive_tests; try (apply Hnull; unfold endpoint_count; cbv zeta;
                    repeat match goal with H : FAILED _ = _ |- _ => rewrite H end;
                    cbn [orb]; rewrite ?orb_true_r; reflexivity);
    match goal with
       | |- context [wasapi_init_device_loop env ?n ?c ?s ?i ?t0] =>
           pose proof (wasapi_init_device_loop_counts env c s n i t0) as Hloop;
           cbv zeta in Hloop;
           destruct (wasapi_init_device_loop env n c s i t0) as [d t4]
       end;
    cbn [fst snd] in Hloop; destruct Hloop as (k & Hk & Hi & Hm & Hn);
    rewrite !item_indices_app in Hi; rewrite !match_count_app in Hm, Hn;
    cbn [item_indices match_count is_match filter flat_map length app] in Hi, Hm, Hn;
    rewrite ?app_nil_r in Hi; rewrite ?Nat.add_0_r in Hm, Hn;
    assert (Hcount : forall n', endpoint_count env s t = Some n' ->
              match_count t4 = match_count t -> k = n')
      by (intros n' Hn' Hm'; destruct (Hn Hm') as (Hkn & _);
          unfold endpoint_count in Hn'; cbv zeta in Hn';
          repeat match goal with
                 | H : FAILED _ = _ |- _ => rewrite H in Hn'
                 end;
          cbn [orb] in Hn'; congruence);
    clear Heqb Heqb0 Heqb1;
    cbn [orb]; drive env; unfold post; trace_counts;
    (split;
     [ intros Hm'; try reflexivity; destruct (Hn Hm'); congruence
     | intros n' Hn' Hm'; rewrite Hi, (Hcount n' Hn' Hm'); reflexivity ]).
Qed.

(** C6: without an id the resolver gives the platform's default render
    endpoint whenever there is one.  With an id that no endpoint matches, the
    lookup finds no device and the resolver asks for the default endpoint
    instead, so it gives that one whenever there is one; failures while
    looking at one endpoint do not end the enumeration: without a match,
    every endpoint the platform counts has been looked at. *)
Theorem device_resolution (env : environment) (id : option string) (t : trace)
    (d : Z) :
  let first := wasapi_init_device env id t in
  let out := wasapi_init_resolve env id t in
  (id = None -> default_endpoint env t = Some d -> fst out = d /\ d <> NULL)
  /\ forall s, id = Some s -> match_count (snd first) = match_count t ->
       fst first = NULL
       /\ out = wasapi_init_device env None (snd first)
       /\ (default_endpoint env (snd first) = Some d -> fst out = d /\ d <> NULL)
       /\ forall n, endpoint_count env s t = Some n ->
            item_indices (snd first) = item_indices t ++ Zseq 0 n.
Proof.
  assert (Hdef : forall t', default_endpoint env t' = Some d ->
            fst (wasapi_init_device env None t') = d /\ d <> NULL).
  { intros t' H. rewrite wasapi_init_device_default, H. split; [reflexivity|].
    unfold default_endpoint in H. cbv zeta in H.
    destruct (FAILED _ || FAILED _) in H; [discriminate|]. cbn [orb] in H.
    match type of H with
    | (if ?a =? NULL then _ else _) = _ => destruct (Z.eqb_spec a NULL)
    end; congruence. }
  cbv zeta. unfold wasapi_init_resolve, bind, ret. split.
  - intros -> H. destruct (Hdef t H) as (H1 & H2).
    destruct (wasapi_init_device env None t) as [d0 t1]. cbn [fst] in H1 |- *.
    rewrite andb_false_r. auto.
  - intros s -> Hm.
    destruct (wasapi_init_device_by_id env s t) as (Hnull & Hitems).
    specialize (Hnull Hm).
    destruct (wasapi_init_device env (Some s) t) as [d0 t1].
    cbn [fst snd] in *. subst d0. cbn [Z.eqb NULL andb].
    split; [reflexivity|]. split; [reflexivity|]. split; [apply Hdef|].
    intros n Hn. apply Hitems; assumption.
Qed.

Lemma device_resolution_witness :
  fst (wasapi_init_resolve env_two_endpoints None []) = 7
  /\ fst (wasapi_init_device env_two_endpoints (Some "nonexistent-id"%string) [])
     = NULL
  /\ fst (wasapi_init_resolve env_two_endpoints (Some "nonexistent-id"%string) [])
     = 7
  /\ item_indices
       (snd (wasapi_init_device env_two_endpoints (Some "nonexistent-id"%string) []))
     = [0; 1].
Proof.
  destruct (device_resolution env_two_endpoints None [] 7) as (H1 & _).
  destruct (device_resolution env_two_endpoints (Some "nonexistent-id"%string) [] 7)
    as (_ & H2).
  destruct (H2 "nonexistent-id"%string eq_refl eq_refl) as (A & _ & B & C).
  split; [exact (proj1 (H1 eq_refl eq_refl))|].
  split; [exact A|].
  split; [exact (proj1 (B eq_refl))|].
  exact (C 2%nat eq_refl).
Defined.

(** * The byte stream through a write *)

Lemma delivered_app (frame : Z) (a b : trace) :
  release_first b = false ->
  delivered frame (a ++ b) = delivered frame a ++ delivered frame b.
Proof.
  intros Hb. induction a as [| e a IH]; [reflexivity|].
  destruct e as [c r | l m | bytes]; cbn [app delivered]; try exact IH.
  rewrite IH, app_assoc. f_equal. f_equal.
  destruct a as [| e' a]; [|reflexivity].
  cbn [app]. destruct b as [| [[] r | l m | bytes'] b]; try reflexivity.
  discriminate Hb.
Qed.

Lemma waits_app (a b : trace) : waits (a ++ b) = waits a ++ waits b.
Proof. apply flat_map_app. Qed.

Lemma firstn_plus {A} (a b : nat) (l : list A) :
  firstn (a + b) l = firstn a l ++ firstn b (skipn a l).
Proof.
  revert l. induction a as [| a IH]; intros l; [reflexivity|].
  destruct l as [| x l]; cbn [Nat.add firstn skipn app].
  - rewrite firstn_nil. reflexivity.
  - rewrite IH. reflexivity.
Qed.

(** Normalise the trace a run leaves to [t ++ new]. *)
Ltac trace_tail := repeat rewrite <- app_assoc; cbn [app].

(** ** Whole frames *)

Lemma whole_frames_le (frame size : Z) :
  0 < frame -> 0 <= size -> 0 <= whole_frames frame size <= size.
Proof.
  intros Hf Hs. unfold whole_frames, to_uint32.
  assert (Hq : 0 <= size / frame) by (apply Z.div_pos; lia).
  pose proof (Z.mod_pos_bound (size / frame) (2 ^ 32) ltac:(reflexivity)) as Hm.
  pose proof (Z.mod_le (size / frame) (2 ^ 32) Hq ltac:(reflexivity)) as Hle.
  pose proof (Z.mul_div_le size frame Hf) as Hd.
  split; [apply Z.mul_nonneg_nonneg; lia|].
  apply Z.le_trans with (size / frame * frame); [|lia].
  apply Z.mul_le_mono_nonneg_r; lia.
Qed.

Lemma whole_frames_aligned (frame size : Z) :
  0 < frame -> 0 <= size -> size mod frame = 0 -> size / frame < 2 ^ 32 ->
  whole_frames frame size = size.
Proof.
  intros Hf Hs Hm Hq. unfold whole_frames, to_uint32.
  rewrite Z.mod_small by (split; [apply Z.div_pos; lia | exact Hq]).
  apply Z.div_exact in Hm; lia.
Qed.

Lemma firstn_whole_frames {A} (frame size : Z) (l : list A) :
  0 < frame -> 0 <= size ->
  firstn (Z.to_nat (whole_frames frame size)) (firstn (Z.to_nat size) l)
  = firstn (Z.to_nat (whole_frames frame size)) l.
Proof.
  intros Hf Hs. pose proof (whole_frames_le frame size Hf Hs).
  rewrite firstn_firstn. f_equal. lia.
Qed.

Lemma handle_ok_frame (w : wasapi_t) : handle_ok w -> 0 < frame_size w.
Proof. intros ([-> | ->] & _); reflexivity. Qed.

Lemma handle_ok_aligned (w : wasapi_t) :
  handle_ok w -> buffer_size w mod frame_size w = 0.
Proof.
  intros Hok. destruct (handle_ok_frames w Hok) as (_ & H). rewrite <- H.
  apply Z.mod_mul. pose proof (handle_ok_frame w Hok). lia.
Qed.

(** ** Flush *)

(** A flush that succeeds delivers the whole frames of its bytes. *)
Lemma wasapi_flush_delivered (env : environment) (w : wasapi_t) (data : list byte)
    (size : Z) (t : trace) :
  let out := wasapi_flush env w data size t in
  delivered (frame_size w) (snd out)
  = delivered (frame_size w) t
    ++ (if fst out
        then firstn (Z.to_nat (whole_frames (frame_size w) size))
               (firstn (Z.to_nat size) data)
        else [])
  /\ waits (snd out) = waits t.
Proof.
  unfold wasapi_flush, wasapi_com_err, whole_frames.
  drive env; cbn [fst snd]; trace_tail.
  all: rewrite delivered_app by reflexivity; rewrite waits_app;
    cbn [delivered waits flat_map app]; rewrite ?app_nil_r; auto.
  all: match goal with H : FAILED _ = _ |- _ => rewrite H end;
    rewrite ?app_nil_r; auto.
Qed.

(** A flush of a whole number of frames that succeeds delivers all its
    bytes. *)
Lemma wasapi_flush_delivered_whole (env : environment) (w : wasapi_t)
    (data : list byte) (size : Z) (t : trace) :
  0 < frame_size w -> 0 <= size -> size mod frame_size w = 0 ->
  size / frame_size w < 2 ^ 32 ->
  let out := wasapi_flush env w data size t in
  delivered (frame_size w) (snd out)
  = delivered (frame_size w) t
    ++ (if fst out then firstn (Z.to_nat size) data else []).
Proof.
  intros Hf Hs Hm Hq out.
  destruct (wasapi_flush_delivered env w data size t) as (Hd & _).
  fold out in Hd. rewrite Hd.
  rewrite firstn_whole_frames, whole_frames_aligned by assumption. reflexivity.
Qed.

(** ** The shared-mode write *)

(** The free space the engine reports is a whole number of frames. *)
Lemma buffer_avail_aligned (w : wasapi_t) (padding : Z) :
  handle_ok w ->
  to_size_t (buffer_size w - to_size_t (padding * frame_size w)) mod frame_size w = 0.
Proof.
  intros Hok. pose proof (handle_ok_aligned w Hok) as Hb.
  assert (Hdiv : (frame_size w | 2 ^ 64)).
  { destruct Hok as ([-> | ->] & _);
      [exists (2 ^ 62) | exists (2 ^ 61)]; reflexivity. }
  pose proof (handle_ok_frame w Hok) as Hf.
  unfold to_size_t.
  rewrite Z.mod_mod_divide by exact Hdiv.
  rewrite Zminus_mod, Hb, Z.mod_mod_divide by exact Hdiv.
  rewrite Z.mod_mul by lia. apply Z.mod_0_l. lia.
Qed.

(** The part of [wasapi_write_sh] after the wait. *)
Lemma wasapi_write_sh_rest_delivered (env : environment) (w : wasapi_t)
    (data : list byte) (size : Z) (t : trace) :
  0 < frame_size w -> 0 <= size < 2 ^ 63 ->
  let out :=
    (p <- api env (GetCurrentPadding (client w)) ;;
     if FAILED (hr p) then
       wasapi_com_err "IAudioClient::GetCurrentPadding" (hr p) ;; ret (-1)
     else
       let padding := to_uint32 (val p) in
       let buffer_avail :=
         to_size_t (buffer_size w - to_size_t (padding * frame_size w)) in
       if buffer_avail =? 0 then ret 0
       else
         let result :=
           to_ssize_t (if size >? buffer_avail then buffer_avail else size) in
         br <- wasapi_flush env w data (to_size_t result) ;;
         ret (if br then result else -1)) t in
  -1 <= fst out <= size
  /\ delivered (frame_size w) (snd out)
     = delivered (frame_size w) t
       ++ (if fst out =? -1 then []
           else firstn (Z.to_nat (whole_frames (frame_size w) (fst out))) data)
  /\ (handle_ok w -> size mod frame_size w = 0 ->
      fst out = -1 \/ fst out mod frame_size w = 0).
Proof.
  intros Hf Hs out. post_of out. unfold wasapi_com_err.
  unfold bind at 1. unfold api at 1. cbv beta zeta.
  generalize (env t (GetCurrentPadding (client w))). intros p.
  destruct (FAILED (hr p)).
  { run_driver. unfold post. cbn [fst snd]. trace_tail.
    rewrite delivered_app by reflexivity.
    cbn. rewrite !app_nil_r. split; [lia | auto]. }
  pose proof (to_size_t_range
    (buffer_size w - to_size_t (to_uint32 (val p) * frame_size w))) as Hr.
  pose proof (buffer_avail_aligned w (to_uint32 (val p))) as Hal.
  set (avail := to_size_t _) in *.
  destruct (Z.eqb_spec avail 0) as [|Hne].
  { run_driver. unfold post. cbn [fst snd]. rewrite delivered_app by reflexivity.
    cbn [delivered Z.eqb app]. rewrite !app_nil_r.
    split; [lia|]. split; [|intros _ _; right; apply Z.mod_0_l; lia].
    reflexivity. }
  assert (Hu : 0 <= (if size >? avail then avail else size) <= size).
  { destruct (Z.gtb_spec size avail); lia. }
  assert (Hual : handle_ok w -> size mod frame_size w = 0 ->
                 (if size >? avail then avail else size) mod frame_size w = 0).
  { intros Hok Hsz. destruct (size >? avail); auto. }
  set (u := if size >? avail then avail else size) in *.
  assert (H64 : 2 ^ 63 < 2 ^ 64) by reflexivity.
  rewrite to_ssize_t_small by lia. rewrite to_size_t_small by lia.
  unfold bind, ret.
  pose proof (wasapi_flush_delivered env w data u
                (t ++ [Api (GetCurrentPadding (client w)) p])) as Hfl.
  cbv zeta in Hfl.
  destruct (wasapi_flush env w data u _) as [br tf]. cbn [fst snd] in *.
  destruct Hfl as (Hd & _). unfold post. cbn [fst snd]. rewrite Hd.
  rewrite delivered_app by reflexivity. cbn [delivered].
  rewrite !app_nil_r. destruct br.
  - split; [lia|]. split; [|auto].
    destruct (Z.eqb_spec u (-1)); [lia|].
    rewrite firstn_whole_frames by lia. reflexivity.
  - cbn [Z.eqb Pos.eqb]. rewrite !app_nil_r. split; [lia|]. split; auto.
Qed.

Lemma wasapi_write_sh_delivered (env : environment) (w : wasapi_t)
    (data : list byte) (size : Z) (t : trace) :
  0 < frame_size w -> 0 <= size < 2 ^ 63 ->
  let out := wasapi_write_sh env w data size t in
  -1 <= fst out <= size
  /\ delivered (frame_size w) (snd out)
     = delivered (frame_size w) t
       ++ (if fst out =? -1 then []
           else firstn (Z.to_nat (whole_frames (frame_size w) (fst out))) data)
  /\ (handle_ok w -> size mod frame_size w = 0 ->
      fst out = -1 \/ fst out mod frame_size w = 0).
Proof.
  intros Hf Hs out. post_of out.
  pose proof (fun t0 => wasapi_write_sh_rest_delivered env w data size t0 Hf Hs)
    as Hrest.
  cbv zeta in Hrest.
  unfold wasapi_write_sh. destruct (blocking w).
  - unfold bind at 1. unfold api at 1. cbv beta zeta.
    generalize (env t (WaitForSingleObject (write_event w) INFINITE)). intros ir.
    destruct (val ir =? WAIT_OBJECT_0).
    + specialize (Hrest (t ++ [Api (WaitForSingleObject (write_event w) INFINITE) ir])).
      rewrite delivered_app in Hrest by reflexivity.
      cbn [delivered app] in Hrest. rewrite app_nil_r in Hrest.
      exact Hrest.
    + unfold wasapi_sys_err. run_driver. unfold post. cbn [fst snd]. trace_tail.
      rewrite delivered_app by reflexivity. cbn.
      rewrite !app_nil_r. split; [lia | auto].
  - apply Hrest.
Qed.

(** A shared-mode write of a whole number of frames delivers what it
    reports. *)
Lemma wasapi_write_sh_delivered_whole (env : environment) (w : wasapi_t)
    (data : list byte) (size : Z) (t : trace) :
  handle_ok w -> 0 <= size < 2 ^ 63 ->
  size mod frame_size w = 0 -> size / frame_size w < 2 ^ 32 ->
  let out := wasapi_write_sh env w data size t in
  -1 <= fst out <= size
  /\ delivered (frame_size w) (snd out)
     = delivered (frame_size w) t ++ firstn (Z.to_nat (fst out)) data
  /\ (fst out = -1 \/ fst out mod frame_size w = 0).
Proof.
  intros Hok Hs Hm Hq out. pose proof (handle_ok_frame w Hok) as Hf.
  destruct (wasapi_write_sh_delivered env w data size t Hf Hs) as (Hr & Hd & Hal).
  fold out in Hr, Hd, Hal. specialize (Hal Hok Hm).
  split; [exact Hr|]. split; [|exact Hal]. rewrite Hd.
  destruct (Z.eqb_spec (fst out) (-1)) as [E | E].
  - rewrite E. reflexivity.
  - destruct Hal as [Hal | Hal]; [contradiction|].
    rewrite whole_frames_aligned; auto; try lia.
    apply Z.le_lt_trans with (size / frame_size w); [|exact Hq].
    apply Z.div_le_mono; lia.
Qed.

(** ** Staging *)

Lemma staged_shared (w : wasapi_t) : has_buffer w = false -> staged w = [].
Proof.
  unfold has_buffer, staged, staging. destruct (buffer w); [discriminate|].
  intros _. apply firstn_nil.
Qed.

Lemma wasapi_stage_staged (w : wasapi_t) (data : list byte) (size : Z) :
  handle_ok w -> has_buffer w = true -> staging_sized w ->
  0 <= size <= Z.of_nat (length data) ->
  let out := wasapi_stage w data size in
  fst out = Z.min size (buffer_size w - buffer_usage w)
  /\ staged (snd out) = staged w ++ firstn (Z.to_nat (fst out)) data
  /\ staging_sized (snd out).
Proof.
  intros Hok Hbuf Hlen Hs out. subst out.
  destruct (wasapi_stage_spec w data size Hok Hbuf (proj1 Hs)) as (Hr & Hu & Hst).
  destruct (wasapi_stage_keeps w data size) as (_ & Hbs & Hhb & _).
  pose proof Hok as (_ & _ & Huse). specialize (Huse Hbuf).
  specialize (Hlen Hbuf).
  set (u := Z.min size (buffer_size w - buffer_usage w)) in *.
  assert (Hu0 : 0 <= u <= buffer_size w - buffer_usage w) by (unfold u; lia).
  assert (Hus : u <= size) by (unfold u; lia).
  split; [exact Hr|].
  assert (L1 : length (firstn (Z.to_nat (buffer_usage w)) (staging w))
               = Z.to_nat (buffer_usage w)).
  { apply firstn_length_le. lia. }
  assert (L2 : length (firstn (Z.to_nat u) data) = Z.to_nat u).
  { apply firstn_length_le. lia. }
  split.
  - unfold staged. rewrite Hu, Hst, Hr. unfold memcpy.
    rewrite app_assoc, firstn_app, length_app, L1, L2.
    rewrite firstn_all2 by (rewrite length_app, L1, L2; lia).
    replace (Z.to_nat (buffer_usage w + u)
             - (Z.to_nat (buffer_usage w) + Z.to_nat u))%nat with 0%nat by lia.
    cbn [firstn]. rewrite app_nil_r. reflexivity.
  - intros _. rewrite Hst, Hbs. unfold memcpy.
    rewrite !length_app, L1, L2, length_skipn. lia.
Qed.

(** ** The exclusive-mode write *)

Lemma wasapi_write_ex_delivered (env : environment) (w : wasapi_t)
    (data : list byte) (size : Z) (t : trace) :
  handle_ok w -> has_buffer w = true -> staging_sized w ->
  0 <= size <= Z.of_nat (length data) ->
  let out := wasapi_write_ex env w data size t in
  let r := fst (fst out) in
  let w' := snd (fst out) in
  -1 <= r <= size
  /\ delivered (frame_size w) (snd out) ++ staged w'
     = delivered (frame_size w) t ++ staged w ++ firstn (Z.to_nat r) data
  /\ staging_sized w'
  /\ (buffer_usage w <> buffer_size w ->
      snd out = t /\ r = Z.min size (buffer_size w - buffer_usage w)).
Proof.
  intros Hok Hbuf Hlen Hs out r w'. subst r w'. post_of out.
  pose proof (handle_ok_buffer_size w Hok) as Hbs.
  pose proof Hok as (_ & _ & Huse). specialize (Huse Hbuf).
  unfold wasapi_write_ex, wasapi_sys_err.
  destruct (Z.eqb_spec (buffer_usage w) (buffer_size w)) as [Hfull | Hpart].
  - unfold bind at 1. unfold api at 1. cbv beta zeta.
    set (wait := WaitForSingleObject (write_event w)
                   (if blocking w then INFINITE else 0)) in *.
    generalize (env t wait). intros ir.
    assert (Hd1 : delivered (frame_size w) (t ++ [Api wait ir])
                  = delivered (frame_size w) t).
    { rewrite delivered_app by reflexivity. apply app_nil_r. }
    destruct (val ir =? WAIT_OBJECT_0); cbn [negb andb].
    + unfold bind, ret.
      pose proof (wasapi_flush_delivered_whole env w (staging w) (buffer_size w)
                    (t ++ [Api wait ir]) (handle_ok_frame w Hok) (proj1 Hbs)
                    (handle_ok_aligned w Hok)) as Hd.
      destruct (handle_ok_frames w Hok) as (Hfr32 & _).
      specialize (Hd ltac:(rewrite <- Hfr32; apply Z.mod_pos_bound; reflexivity)).
      cbv zeta in Hd.
      destruct (wasapi_flush env w (staging w) (buffer_size w) _) as [br tf].
      cbn [fst snd] in Hd |- *. rewrite Hd1 in Hd.
      destruct br; cbn [negb].
      * destruct (wasapi_stage_staged (set_buffer_usage w 0) data size)
          as (Hr & Hst & Hlen'); auto using handle_ok_restart.
        cbn [buffer_usage buffer_size set_buffer_usage] in Hr.
        unfold post. cbn [fst snd]. rewrite Hr in *.
        split; [lia|]. split.
        { rewrite Hst, Hd. unfold staged.
          cbn [buffer_usage set_buffer_usage Z.to_nat firstn app].
          rewrite Hfull. rewrite <- app_assoc. reflexivity. }
        split; [exact Hlen'|]. intros Hne. contradiction.
      * unfold post. cbn [fst snd Z.to_nat firstn]. rewrite Hd, !app_nil_r.
        split; [lia|]. split; [reflexivity|]. split; [exact Hlen|].
        intros Hne. contradiction.
    + destruct (blocking w); run_driver; unfold post; cbn [fst snd Z.to_nat firstn];
        trace_tail; rewrite delivered_app by reflexivity;
        cbn [delivered app]; rewrite !app_nil_r;
        (split; [lia|]); (split; [reflexivity|]); (split; [exact Hlen|]);
        intros Hne; contradiction.
  - unfold ret, post. cbn [fst snd].
    destruct (wasapi_stage_staged w data size) as (Hr & Hst & Hlen'); auto.
    rewrite Hst, Hr.
    split; [lia|]. split; [reflexivity|]. split; [exact Hlen'|]. intros _. auto.
Qed.

(** ** The blocking loop *)

(** One sub-write of the loop, whichever the mode. *)
Lemma wasapi_sub_write_delivered (env : environment) (w : wasapi_t)
    (data : list byte) (size : Z) (t : trace) :
  handle_ok w -> staging_sized w -> 0 <= size < 2 ^ 63 ->
  size <= Z.of_nat (length data) -> whole_in_shared w size ->
  let out :=
    (if has_buffer w then wasapi_write_ex env w data size
     else r <- wasapi_write_sh env w data size ;; ret (r, w)) t in
  let r := fst (fst out) in
  let w' := snd (fst out) in
  -1 <= r <= size
  /\ delivered (frame_size w) (snd out) ++ staged w'
     = delivered (frame_size w) t ++ staged w ++ firstn (Z.to_nat r) data
  /\ handle_ok w' /\ staging_sized w'
  /\ frame_size w' = frame_size w /\ has_buffer w' = has_buffer w
  /\ (has_buffer w = false -> r = -1 \/ r mod frame_size w = 0).
Proof.
  intros Hok Hlen Hs Hdata Hwhole. cbv zeta. unfold whole_in_shared in Hwhole.
  destruct (has_buffer w) eqn:Hbuf.
  - destruct (wasapi_write_ex_delivered env w data size t Hok Hbuf Hlen ltac:(lia))
      as (H1 & H2 & H3 & _).
    destruct (wasapi_write_ex_spec env w data size t Hok Hbuf (proj1 Hs))
      as (Hok' & Hsame & _).
    destruct Hsame as (Hfs & _ & Hhb & _).
    split; [exact H1|]. split; [exact H2|]. split; [exact Hok'|].
    split; [exact H3|]. split; [exact Hfs|]. split; [congruence|]. discriminate.
  - destruct (Hwhole eq_refl) as (Hm & Hq).
    destruct (wasapi_write_sh_delivered_whole env w data size t Hok Hs Hm Hq)
      as (H1 & H2 & H3).
    unfold bind, ret. destruct (wasapi_write_sh env w data size t) as [r t1].
    cbn [fst snd] in *. rewrite (staged_shared w Hbuf). cbn [app].
    rewrite app_nil_r. auto 10.
Qed.

Lemma wasapi_write_loop_delivered (env : environment) (fuel : nat) :
  forall (w : wasapi_t) (data : list byte) (size writen ir : Z) (t : trace)
         (r : Z) (w' : wasapi_t) (t' : trace),
    handle_ok w -> staging_sized w -> 0 <= writen <= size -> size < 2 ^ 63 ->
    size <= Z.of_nat (length data) ->
    whole_in_shared w size -> whole_in_shared w writen ->
    wasapi_write_loop env fuel w data size writen ir t = (Some (r, w'), t') ->
    exists k,
      writen <= k <= size /\ (r = k \/ r = to_size_t (-1))
      /\ delivered (frame_size w) t' ++ staged w'
         = delivered (frame_size w) t ++ staged w
           ++ firstn (Z.to_nat (k - writen)) (skipn (Z.to_nat writen) data)
      /\ handle_ok w' /\ staging_sized w'.
Proof.
  assert (Hstop : forall (w : wasapi_t) (data : list byte) (size writen : Z)
                    (t : trace),
            handle_ok w -> staging_sized w -> 0 <= writen <= size ->
            exists k,
              writen <= k <= size /\ (writen = k \/ writen = to_size_t (-1))
              /\ delivered (frame_size w) t ++ staged w
                 = delivered (frame_size w) t ++ staged w
                   ++ firstn (Z.to_nat (k - writen)) (skipn (Z.to_nat writen) data)
              /\ handle_ok w /\ staging_sized w).
  { intros w data size writen t Hok Hlen Hw. exists writen.
    rewrite Z.sub_diag. cbn [Z.to_nat firstn]. rewrite !app_nil_r.
    split; [lia|]. auto. }
  induction fuel as [| fuel IH];
    intros w data size writen ir t r w' t' Hok Hlen Hw Hs Hdata Hws Hww;
    rewrite wasapi_write_loop_eq;
    destruct ((writen <? size) && negb (ir =? 0)) eqn:Hcond;
    try (unfold ret; intros H; inversion H; subst; apply (Hstop _ _ size); auto;
         fail);
    try discriminate.
  apply andb_prop in Hcond. destruct Hcond as (Hlt & _).
  apply Z.ltb_lt in Hlt.
  assert (H64 : 2 ^ 63 < 2 ^ 64) by reflexivity.
  pose proof (handle_ok_frame w Hok) as Hf.
  rewrite (to_size_t_small (size - writen)) by lia.
  assert (Hrest : whole_in_shared w (size - writen)).
  { intros Hb. destruct (Hws Hb) as (Hm & Hq). destruct (Hww Hb) as (Hm' & _).
    split.
    - rewrite Zminus_mod, Hm, Hm'. apply Z.mod_0_l. lia.
    - apply Z.le_lt_trans with (size / frame_size w); [|exact Hq].
      apply Z.div_le_mono; lia. }
  unfold bind at 1.
  pose proof (wasapi_sub_write_delivered env w (skipn (Z.to_nat writen) data)
                (size - writen) t Hok Hlen ltac:(lia)) as Hsub.
  cbv zeta in Hsub. rewrite length_skipn in Hsub.
  specialize (Hsub ltac:(lia) Hrest).
  match type of Hsub with context [fst (fst ?o)] => destruct o as [[r1 w1] t1] end.
  cbn [fst snd] in Hsub.
  destruct Hsub as (Hr1 & Hd1 & Hok1 & Hlen1 & Hfs1 & Hhb1 & Hal1).
  destruct (Z.eqb_spec r1 (-1)) as [-> | Hne].
  - unfold ret. intros H. inversion H; subst.
    exists writen. rewrite Z.sub_diag. cbn [Z.to_nat firstn] in Hd1 |- *.
    split; [lia|]. auto.
  - rewrite (to_size_t_small (writen + r1)) by lia.
    intros H. apply IH in H; auto; try lia.
    + destruct H as (k & Hk & Hr & Hd & Hok' & Hlen').
      rewrite Hfs1 in Hd.
      exists k.
      split; [lia|]. split; [exact Hr|]. split; [|auto].
      rewrite Hd, app_assoc, Hd1, <- !app_assoc. do 2 f_equal.
      replace (Z.to_nat (k - writen))
        with (Z.to_nat r1 + Z.to_nat (k - (writen + r1)))%nat by lia.
      rewrite firstn_plus, skipn_skipn.
      replace (Z.to_nat r1 + Z.to_nat writen)%nat
        with (Z.to_nat (writen + r1)) by lia.
      reflexivity.
    + intros Hb. rewrite Hfs1. apply Hws. congruence.
    + intros Hb. rewrite Hfs1. rewrite Hhb1 in Hb.
      destruct (Hws Hb) as (Hm & Hq). destruct (Hww Hb) as (Hm' & _).
      destruct (Hal1 Hb) as [? | Hr1m]; [contradiction|].
      split.
      * rewrite Zplus_mod, Hm', Hr1m. apply Z.mod_0_l. lia.
      * apply Z.le_lt_trans with (size / frame_size w); [|exact Hq].
        apply Z.div_le_mono; lia.
Qed.

(** X1: a write loses, repeats and reorders nothing, provided that in
    shared mode it is a whole number of frames (few enough for a [UINT32]).
    On a handle with its staging buffer in place, after a write of [size]
    bytes the bytes the engine has taken followed by the bytes waiting in
    staging are what they were before followed by the first [k] bytes of
    [data], for some [k] up to [size]; the write reports [k], or -1.  A
    non-blocking write that reports -1 has accepted nothing. *)
Theorem write_keeps_byte_stream (env : environment) (w : wasapi_t)
    (data : list byte) (size : Z) (t : trace) (r : Z) (w' : wasapi_t) (t' : trace) :
  handle_ok w -> staging_sized w -> 0 <= size < 2 ^ 63 ->
  size <= Z.of_nat (length data) ->
  (has_buffer w = false ->
   size mod frame_size w = 0 /\ size / frame_size w < 2 ^ 32) ->
  wasapi_write env w data size t = (Some (r, w'), t') ->
  exists k,
    0 <= k <= size /\ (r = k \/ r = -1)
    /\ (blocking w = false -> r = -1 -> k = 0)
    /\ delivered (frame_size w) t' ++ staged w'
       = delivered (frame_size w) t ++ staged w ++ firstn (Z.to_nat k) data
    /\ handle_ok w' /\ staging_sized w'.
Proof.
  intros Hok Hlen Hs Hdata Hwhole. unfold wasapi_write.
  assert (H64 : 2 ^ 63 < 2 ^ 64) by reflexivity.
  pose proof (handle_ok_frame w Hok) as Hf.
  destruct (blocking w).
  - unfold bind, ret.
    destruct (wasapi_write_loop env _ w data size 0 (-1) t) as [[[r1 w1]|] t1] eqn:E;
      cbn [option_map fst snd]; intros H; inversion H; subst.
    apply wasapi_write_loop_delivered in E; auto; try lia.
    + destruct E as (k & Hk & Hr & Hd & Hok' & Hlen').
      rewrite Z.sub_0_r in Hd. cbn [Z.to_nat skipn] in Hd.
      exists k. split; [exact Hk|]. split.
      { destruct Hr as [-> | ->];
          [left; apply to_ssize_t_small; lia | right; reflexivity]. }
      split; [discriminate|]. auto.
    + intros _. split; [apply Z.mod_0_l; lia|].
      rewrite Z.div_0_l by lia. reflexivity.
  - pose proof (wasapi_sub_write_delivered env w data size t Hok Hlen Hs Hdata
                  Hwhole) as Hsub.
    cbv zeta in Hsub.
    assert (Hret : forall r1, -1 <= r1 <= size -> to_ssize_t (to_size_t r1) = r1).
    { intros r1 Hr1. destruct (Z.eq_dec r1 (-1)) as [-> | Hne]; [reflexivity|].
      rewrite to_size_t_small, to_ssize_t_small by lia. reflexivity. }
    destruct (has_buffer w); unfold bind, ret in Hsub |- *.
    + destruct (wasapi_write_ex env w data size t) as [[r1 w1] t1].
      cbn [fst snd] in Hsub. destruct Hsub as (Hr1 & Hd & Hok' & Hlen' & _).
      intros H. inversion H; subst. rewrite (Hret r1 Hr1).
      exists (Z.max r1 0). split; [lia|]. split; [lia|]. split; [intros; lia|].
      split; [|auto]. rewrite Hd. do 3 f_equal. lia.
    + destruct (wasapi_write_sh env w data size t) as [r1 t1].
      cbn [fst snd] in Hsub. destruct Hsub as (Hr1 & Hd & Hok' & Hlen' & _).
      intros H. inversion H; subst. rewrite (Hret r1 Hr1).
      exists (Z.max r1 0). split; [lia|]. split; [lia|]. split; [intros; lia|].
      split; [|auto]. rewrite Hd. do 3 f_equal. lia.
Qed.

(** A blocking write of twelve bytes, three frames, through a shared-mode
    engine buffer of two frames. *)
Lemma write_keeps_byte_stream_witness :
  let w := shared_handle in
  let data := repeat "001"%byte 12 in
  exists r w' t',
    wasapi_write env_accepting w data 12 [] = (Some (r, w'), t')
    /\ exists k,
         0 <= k <= 12 /\ (r = k \/ r = -1)
         /\ (blocking w = false -> r = -1 -> k = 0)
         /\ delivered (frame_size w) t' ++ staged w'
            = delivered (frame_size w) [] ++ staged w ++ firstn (Z.to_nat k) data
         /\ handle_ok w' /\ staging_sized w'.
Proof.
  intros w data. eexists. eexists. eexists. split; [reflexivity|].
  apply (write_keeps_byte_stream env_accepting w data 12 []).
  - split; [left; reflexivity|]. split; [|discriminate].
    exists 2. split; [split; [discriminate | reflexivity] | reflexivity].
  - discriminate.
  - split; [discriminate | reflexivity].
  - cbn. lia.
  - intros _. split; reflexivity.
  - reflexivity.
Defined.

(** * Waiting *)

(** [drive], reducing the boolean connectives of the tests as well. *)
Ltac drive_all env :=
  repeat first
    [ progress cbv beta iota zeta delta [bind ret api emit fst snd negb andb orb]
    | match goal with
      | |- context [env ?h ?c] =>
          lazymatch h with
          | context [env _ _] => fail
          | _ => lazymatch c with
                 | context [env _ _] => fail
                 | _ => let r := fresh "r" in generalize (env h c); intros r
                 end
          end
      end
    | match goal with
      | |- context [if FAILED ?h then _ else _] => destruct (FAILED h) eqn:?
      | |- context [if ?a =? ?b then _ else _] => destruct (Z.eqb_spec a b)
      | |- context [if ?a >? ?b then _ else _] => destruct (a >? b) eqn:?
      end ].

Ltac trace_waits :=
  cbn [fst snd]; trace_tail; rewrite ?waits_app; cbn [waits flat_map app];
  rewrite ?app_nil_r.

Lemma wasapi_write_sh_waits (env : environment) (w : wasapi_t) (data : list byte)
    (size : Z) (t : trace) :
  waits (snd (wasapi_write_sh env w data size t))
  = waits t ++ (if blocking w then [(write_event w, INFINITE)] else []).
Proof.
  unfold wasapi_write_sh, wasapi_flush, wasapi_com_err, wasapi_sys_err.
  destruct (blocking w); drive_all env; trace_waits; reflexivity.
Qed.

Lemma wasapi_write_ex_waits (env : environment) (w : wasapi_t) (data : list byte)
    (size : Z) (t : trace) :
  let out := wasapi_write_ex env w data size t in
  waits (snd out)
  = waits t ++ (if buffer_usage w =? buffer_size w
                then [(write_event w, if blocking w then INFINITE else 0)]
                else [])
  /\ write_event (snd (fst out)) = write_event w
  /\ blocking (snd (fst out)) = blocking w.
Proof.
  cbv zeta. unfold wasapi_write_ex, wasapi_flush, wasapi_com_err, wasapi_sys_err.
  destruct (blocking w) eqn:Hblk; drive_all env; trace_waits;
    unfold wasapi_stage; cbn [fst snd write_event blocking set_buffer_usage
                               set_buffer]; auto.
Qed.

Lemma wasapi_write_loop_waits (env : environment) (fuel : nat) :
  forall (w : wasapi_t) (data : list byte) (size writen ir : Z) (t : trace)
         (r : Z) (w' : wasapi_t) (t' : trace),
    wasapi_write_loop env fuel w data size writen ir t = (Some (r, w'), t') ->
    exists ws,
      waits t' = waits t ++ ws
      /\ Forall (fun p => p = (write_event w, if blocking w then INFINITE else 0)) ws.
Proof.
  induction fuel as [| fuel IH]; intros w data size writen ir t r w' t';
    rewrite wasapi_write_loop_eq;
    destruct ((writen <? size) && negb (ir =? 0));
    try (unfold ret; intros H; inversion H; subst; exists [];
         rewrite app_nil_r; split; [reflexivity | constructor]; fail);
    try discriminate.
  unfold bind at 1.
  assert (Hsub : forall o : Z * wasapi_t * trace,
            o = (if has_buffer w
                 then wasapi_write_ex env w (skipn (Z.to_nat writen) data)
                        (to_size_t (size - writen))
                 else r0 <- wasapi_write_sh env w (skipn (Z.to_nat writen) data)
                              (to_size_t (size - writen)) ;; ret (r0, w)) t ->
            exists ws,
              waits (snd o) = waits t ++ ws
              /\ Forall (fun p => p = (write_event w,
                                       if blocking w then INFINITE else 0)) ws
              /\ write_event (snd (fst o)) = write_event w
              /\ blocking (snd (fst o)) = blocking w).
  { intros o ->. destruct (has_buffer w).
    - destruct (wasapi_write_ex_waits env w (skipn (Z.to_nat writen) data)
                  (to_size_t (size - writen)) t) as (H1 & H2 & H3).
      eexists. split; [exact H1|]. split; [|auto].
      destruct (buffer_usage w =? buffer_size w); repeat constructor.
    - unfold bind, ret.
      pose proof (wasapi_write_sh_waits env w (skipn (Z.to_nat writen) data)
                    (to_size_t (size - writen)) t) as H1.
      destruct (wasapi_write_sh env w _ _ t) as [r1 t1]. cbn [fst snd] in *.
      eexists. split; [exact H1|]. split; [|auto].
      destruct (blocking w); repeat constructor. }
  specialize (Hsub _ eq_refl).
  match type of Hsub with context [snd ?o] => destruct o as [[r1 w1] t1] end.
  cbn [fst snd] in Hsub. destruct Hsub as (ws1 & Hw1 & Hall1 & Hev & Hblk).
  destruct (r1 =? -1).
  - unfold ret. intros H. inversion H; subst. exists ws1. auto.
  - intros H. apply IH in H. destruct H as (ws & Hw & Hall).
    rewrite Hev, Hblk in Hall.
    exists (ws1 ++ ws). split.
    + rewrite Hw, Hw1, app_assoc. reflexivity.
    + apply Forall_app. auto.
Qed.

(** X2: what a write waits for.  Every wait of a write is on the handle's
    own event, without limit in blocking mode and with a zero timeout in
    non-blocking mode.  A non-blocking write waits at most once, and only
    when the handle has a staging buffer that is full; in shared mode it
    never waits. *)
Theorem write_wait_discipline (env : environment) (w : wasapi_t) (data : list byte)
    (size : Z) (t : trace) (r : Z) (w' : wasapi_t) (t' : trace) :
  wasapi_write env w data size t = (Some (r, w'), t') ->
  exists ws,
    waits t' = waits t ++ ws
    /\ Forall (fun p => p = (write_event w, if blocking w then INFINITE else 0)) ws
    /\ (blocking w = false ->
        ws = if has_buffer w && (buffer_usage w =? buffer_size w)
             then [(write_event w, 0)] else []).
Proof.
  unfold wasapi_write. destruct (blocking w) eqn:Hblk.
  - unfold bind, ret.
    destruct (wasapi_write_loop env _ w data size 0 (-1) t) as [[[r1 w1]|] t1] eqn:E;
      cbn [option_map fst snd]; intros H; inversion H; subst.
    apply wasapi_write_loop_waits in E. rewrite Hblk in E.
    destruct E as (ws & Hw & Hall). exists ws. split; [exact Hw|].
    split; [exact Hall | discriminate].
  - destruct (has_buffer w); unfold bind, ret.
    + destruct (wasapi_write_ex_waits env w data size t) as (H1 & _).
      destruct (wasapi_write_ex env w data size t) as [[r1 w1] t1].
      cbn [fst snd] in H1. intros H. inversion H; subst.
      rewrite Hblk in H1. eexists. split; [exact H1|]. cbn [andb]. split; [|auto].
      destruct (buffer_usage w =? buffer_size w); repeat constructor.
    + pose proof (wasapi_write_sh_waits env w data size t) as H1.
      destruct (wasapi_write_sh env w data size t) as [r1 t1].
      cbn [fst snd] in H1. intros H. inversion H; subst.
      rewrite Hblk in H1. eexists. split; [exact H1|]. cbn [andb]. split; [|auto].
      constructor.
Qed.

Lemma write_wait_discipline_witness :
  let w := exclusive_handle 8 false in
  exists r w' t',
    wasapi_write env_accepting w (repeat "001"%byte 4) 4 [] = (Some (r, w'), t')
    /\ exists ws,
         waits t' = waits [] ++ ws
         /\ Forall (fun p => p = (write_event w, if blocking w then INFINITE else 0)) ws
         /\ (blocking w = false ->
             ws = if has_buffer w && (buffer_usage w =? buffer_size w)
                  then [(write_event w, 0)] else []).
Proof.
  intros w. eexists. eexists. eexists. split; [reflexivity|].
  eapply (write_wait_discipline env_accepting w (repeat "001"%byte 4) 4 []).
  reflexivity.
Defined.

(** * Free space and writes *)

(** X3: in exclusive mode a write that fits the free space
    [wasapi_write_avail] reports is pure staging: blocking or not, it
    accepts all [size] bytes, makes no call and logs nothing, and lowers the
    free space by [size]. *)
Theorem write_fitting_write_avail (env : environment) (w : wasapi_t)
    (data : list byte) (size : Z) (t : trace) :
  handle_ok w -> has_buffer w = true ->
  0 < size <= fst (wasapi_write_avail env w t) ->
  exists w',
    wasapi_write env w data size t = (Some (size, w'), t)
    /\ wasapi_write_avail env w' t
       = (fst (wasapi_write_avail env w t) - size, t).
Proof.
  intros Hok Hbuf. unfold wasapi_write_avail. rewrite Hbuf. unfold ret at 1.
  cbn [fst]. intros Hs.
  pose proof (handle_ok_buffer_size w Hok) as Hbs.
  pose proof Hok as (_ & _ & Huse). specialize (Huse Hbuf).
  assert (H35 : 2 ^ 35 < 2 ^ 63) by reflexivity.
  assert (H64 : 2 ^ 63 < 2 ^ 64) by reflexivity.
  rewrite (to_size_t_small (buffer_size w - buffer_usage w)) in * by lia.
  assert (Hex : forall d, wasapi_write_ex env w d size t
                          = (wasapi_stage w d size, t)).
  { intros d. unfold wasapi_write_ex.
    destruct (Z.eqb_spec (buffer_usage w) (buffer_size w)); [lia | reflexivity]. }
  assert (Hst : forall d,
            fst (wasapi_stage w d size) = size
            /\ has_buffer (snd (wasapi_stage w d size)) = true
            /\ to_size_t (buffer_size (snd (wasapi_stage w d size))
                          - buffer_usage (snd (wasapi_stage w d size)))
               = buffer_size w - buffer_usage w - size).
  { intros d.
    destruct (wasapi_stage_spec w d size Hok Hbuf ltac:(lia)) as (Hr & Hu & _).
    destruct (wasapi_stage_keeps w d size) as (_ & Hz & Hb & _).
    rewrite Z.min_l in Hr, Hu by lia.
    rewrite Hr, Hu, Hz, Hb. split; [reflexivity|]. split; [exact Hbuf|].
    rewrite to_size_t_small; lia. }
  exists (snd (wasapi_stage w data size)).
  destruct (Hst data) as (Hr & Hb & Ha). rewrite Hb, Ha. split; [|reflexivity].
  unfold wasapi_write. destruct (blocking w).
  - destruct (Z.to_nat size) as [| fuel] eqn:Hfuel; [lia|].
    rewrite wasapi_write_loop_eq.
    destruct (Z.ltb_spec 0 size); [|lia]. cbn [andb negb Z.eqb].
    rewrite Hbuf, Z.sub_0_r, (to_size_t_small size) by lia.
    cbn [Z.to_nat skipn]. unfold bind. rewrite Hex.
    destruct (wasapi_stage w data size) as [r1 w1]. cbn [fst snd] in *. subst r1.
    destruct (Z.eqb_spec size (-1)); [lia|].
    rewrite Z.add_0_l, (to_size_t_small size) by lia.
    rewrite wasapi_write_loop_eq, Z.ltb_irrefl. cbn [andb].
    unfold ret. cbn [option_map fst snd]. rewrite to_ssize_t_small by lia.
    reflexivity.
  - rewrite Hbuf. unfold bind, ret. rewrite Hex.
    destruct (wasapi_stage w data size) as [r1 w1]. cbn [fst snd] in *. subst r1.
    rewrite to_size_t_small, to_ssize_t_small by lia. reflexivity.
Qed.

Lemma write_fitting_write_avail_witness :
  let w := exclusive_handle 2 true in
  exists w',
    wasapi_write env_accepting w (repeat "001"%byte 6) 6 [] = (Some (6, w'), [])
    /\ wasapi_write_avail env_accepting w' []
       = (fst (wasapi_write_avail env_accepting w []) - 6, []).
Proof.
  intros w.
  apply (write_fitting_write_avail env_accepting w (repeat "001"%byte 6) 6 []).
  - apply exclusive_handle_ok. lia.
  - reflexivity.
  - split; [reflexivity | discriminate].
Defined.

(** X4: in shared mode a non-blocking write takes exactly the smaller of
    [size] and the free space [wasapi_write_avail] reports from the same
    history, unless it fails with -1.  Of the bytes it reports, the engine
    is handed the whole frames: the first [r / frame_size] frames of the
    data.  These are all the bytes reported when they are a whole number
    of frames; the bytes of a trailing partial frame are reported as
    written and never handed over. *)
Theorem shared_write_takes_write_avail (env : environment) (w : wasapi_t)
    (data : list byte) (size : Z) (t : trace) :
  0 < frame_size w -> has_buffer w = false -> blocking w = false ->
  0 <= size < 2 ^ 63 ->
  let avail := fst (wasapi_write_avail env w t) in
  let frame := frame_size w in
  exists r t',
    wasapi_write env w data size t = (Some (r, w), t')
    /\ (r = -1 \/ r = Z.min size avail)
    /\ delivered frame t'
       = delivered frame t
         ++ (if r =? -1 then []
             else firstn (Z.to_nat (whole_frames frame r)) data)
    /\ (r mod frame = 0 -> r / frame < 2 ^ 32 ->
        delivered frame t' = delivered frame t ++ firstn (Z.to_nat r) data).
Proof.
  intros Hf Hbuf Hblk Hs avail frame. subst avail frame.
  assert (H64 : 2 ^ 63 < 2 ^ 64) by reflexivity.
  destruct (wasapi_write_sh_delivered env w data size t Hf Hs) as (Hr & Hd & _).
  unfold wasapi_write. rewrite Hblk, Hbuf. unfold bind at 1. unfold ret at 1.
  assert (Hres : fst (wasapi_write_sh env w data size t) = -1
                 \/ fst (wasapi_write_sh env w data size t)
                    = Z.min size (fst (wasapi_write_avail env w t))).
  { clear Hr Hd. unfold wasapi_write_sh, wasapi_write_avail, wasapi_com_err.
    rewrite Hblk, Hbuf. unfold bind, ret, api, emit. cbv beta iota zeta.
    generalize (env t (GetCurrentPadding (client w))). intros p.
    destruct (FAILED (hr p)); [left; reflexivity|].
    pose proof (to_size_t_range
      (buffer_size w - to_size_t (to_uint32 (val p) * frame_size w))) as Ha.
    cbn [fst snd].
    set (a := to_size_t _) in *.
    destruct (Z.eqb_spec a 0) as [E | E].
    - right. cbn [fst]. lia.
    - destruct (wasapi_flush env w data _ _) as [[] tf];
        cbn [fst]; [right | left; reflexivity].
      destruct (Z.gtb_spec size a); rewrite to_ssize_t_small; lia. }
  destruct (wasapi_write_sh env w data size t) as [r t1]. cbn [fst snd] in *.
  exists r, t1.
  assert (Hret : to_ssize_t (to_size_t r) = r).
  { destruct (Z.eq_dec r (-1)) as [-> | Hne]; [reflexivity|].
    rewrite to_size_t_small, to_ssize_t_small by lia. reflexivity. }
  rewrite Hret. split; [reflexivity|]. split; [exact Hres|].
  split; [exact Hd|].
  intros Hm Hq. rewrite Hd. destruct (Z.eqb_spec r (-1)) as [-> | Hne].
  - reflexivity.
  - rewrite whole_frames_aligned by (try assumption; lia). reflexivity.
Qed.

(** A write of six bytes, one frame and a half, into a free engine buffer
    of three frames. *)
Lemma shared_write_takes_write_avail_witness :
  let w := mkWasapi 1 1 1 1 None 16 0 4 false true in
  let data := repeat "001"%byte 6 in
  let avail := fst (wasapi_write_avail env_accepting w []) in
  let frame := frame_size w in
  exists r t',
    wasapi_write env_accepting w data 6 [] = (Some (r, w), t')
    /\ (r = -1 \/ r = Z.min 6 avail)
    /\ delivered frame t'
       = delivered frame []
         ++ (if r =? -1 then []
             else firstn (Z.to_nat (whole_frames frame r)) data)
    /\ (r mod frame = 0 -> r / frame < 2 ^ 32 ->
        delivered frame t' = delivered frame [] ++ firstn (Z.to_nat r) data).
Proof.
  intros w data.
  apply (shared_write_takes_write_avail env_accepting w data 6 []).
  - reflexivity.
  - reflexivity.
  - reflexivity.
  - split; [discriminate | reflexivity].
Defined.

(** The bytes of a partial frame are lost: that write reports all six
    bytes, and the engine has taken the four of the first frame. *)
Lemma unaligned_shared_write_drops_partial_frame :
  let w := mkWasapi 1 1 1 1 None 16 0 4 false true in
  let data := ["001"; "002"; "003"; "004"; "005"; "006"]%byte in
  let out := wasapi_write env_accepting w data 6 [] in
  option_map fst (fst out) = Some 6
  /\ delivered (frame_size w) (snd out) = ["001"; "002"; "003"; "004"]%byte.
Proof. split; reflexivity. Qed.

(** * Resources: what is taken is given back *)



Lemma owned_null (p : Z) : p = NULL -> owned p = 0.
Proof. intros ->. reflexivity. Qed.

Lemma owned_nonnull (p : Z) : p <> NULL -> owned p = 1.
Proof. intros H. unfold owned. destruct (Z.eqb_spec p NULL); [contradiction | reflexivity]. Qed.






(** ** Negotiation *)








(** ** Open *)





(** ** An open handle *)









(** ** Close *)


(** ** What the entry points leave held *)







(** * The requests of a negotiation *)

Lemma requests_app (a b : trace) : requests (a ++ b) = requests a ++ requests b.
Proof. apply flat_map_app. Qed.

Lemma wasapi_set_format_ok (f : bool) (rate : Z) : format_ok (wasapi_set_format f rate).
Proof.
  unfold format_ok, wasapi_set_format.
  destruct f; cbn; repeat split; auto.
Qed.

Ltac trace_requests :=
  cbn [fst snd]; trace_tail; rewrite ?requests_app; cbn [requests flat_map app];
  rewrite ?app_nil_r.

Ltac requests_ok :=
  repeat first
    [ apply Forall_nil
    | apply Forall_cons;
      [ cbn [request_ok];
        split; [reflexivity|]; split; [reflexivity|];
        split; [intros Hmode; first [reflexivity | discriminate Hmode]
               | apply wasapi_set_format_ok]
      | ] ].

Lemma wasapi_init_client_sh_turn_requests (env : environment) (device : Z)
    (f : bool) (r client : Z) (t : trace) :
  let out := wasapi_init_client_sh_turn env device f r client t in
  exists R, requests (snd out) = requests t ++ R /\ Forall request_ok R.
Proof.
  cbv zeta. unfold wasapi_init_client_sh_turn, wasapi_com_err.
  drive_all env; trace_requests; eexists; (split; [reflexivity|]); requests_ok.
Qed.

Lemma wasapi_init_client_ex_turn_requests (env : environment) (device : Z)
    (latency : latency_ms) (f : bool) (r client : Z) (dur : ref_time) (t : trace) :
  let out := wasapi_init_client_ex_turn env device latency f r client dur t in
  exists R, requests (snd out) = requests t ++ R /\ Forall request_ok R.
Proof.
  cbv zeta. unfold wasapi_init_client_ex_turn, wasapi_com_err.
  drive_all env; trace_requests; eexists; (split; [reflexivity|]); requests_ok.
Qed.

Lemma shared_in_order_requests (env : environment) (device : Z)
    (cs : list (bool * Z)) :
  forall (fl : bool) (client : Z) (h : HRESULT) (t : trace),
    let out := shared_in_order env device cs fl client h t in
    exists R, requests (snd out) = requests t ++ R /\ Forall request_ok R.
Proof.
  induction cs as [| [f r] cs IH]; intros fl client h t out; post_of out.
  - unfold post. exists []. rewrite app_nil_r. split; [reflexivity | constructor].
  - cbn [shared_in_order]. unfold bind at 1.
    destruct (wasapi_init_client_sh_turn_requests env device f r client t)
      as (R1 & HR1 & Hok1).
    destruct (wasapi_init_client_sh_turn env device f r client t) as [x t1].
    cbn [fst snd] in HR1.
    assert (Hdone : forall o, post (o, t1)).
    { intros o. unfold post. exists R1. auto. }
    destruct x as [c d h' | | c]; try apply Hdone.
    destruct (h' =? AUDCLNT_E_UNSUPPORTED_FORMAT); [|apply Hdone].
    unfold wasapi_warn, bind, emit. cbv beta iota zeta. unfold post.
    edestruct IH as (R2 & HR2 & Hok2). rewrite HR2. trace_requests.
    exists (R1 ++ R2). rewrite HR1, app_assoc. split; [reflexivity|].
    apply Forall_app. auto.
Qed.

Lemma exclusive_in_order_requests (env : environment) (device : Z)
    (latency : latency_ms) (cs : list (bool * Z)) :
  forall (fl : bool) (client : Z) (dur : ref_time) (h : HRESULT) (t : trace),
    let out := exclusive_in_order env device latency cs fl client dur h t in
    exists R, requests (snd out) = requests t ++ R /\ Forall request_ok R.
Proof.
  induction cs as [| [f r] cs IH]; intros fl client dur h t out; post_of out.
  - unfold post. exists []. rewrite app_nil_r. split; [reflexivity | constructor].
  - cbn [exclusive_in_order]. unfold bind at 1.
    destruct (wasapi_init_client_ex_turn_requests env device latency f r client dur t)
      as (R1 & HR1 & Hok1).
    destruct (wasapi_init_client_ex_turn env device latency f r client dur t)
      as [x t1].
    cbn [fst snd] in HR1.
    assert (Hdone : forall o t2, requests t2 = requests t1 -> post (o, t2)).
    { intros o t2 E. unfold post. cbn [snd]. rewrite E. exists R1. auto. }
    destruct x as [c d h' | | c]; try (apply Hdone; reflexivity).
    destruct (h' =? AUDCLNT_E_UNSUPPORTED_FORMAT).
    + unfold wasapi_warn, bind, emit. cbv beta iota zeta. unfold post.
      edestruct IH as (R2 & HR2 & Hok2). rewrite HR2. trace_requests.
      exists (R1 ++ R2). rewrite HR1, app_assoc. split; [reflexivity|].
      apply Forall_app. auto.
    + destruct (h' =? AUDCLNT_E_DEVICE_IN_USE);
        [|destruct (h' =? AUDCLNT_E_EXCLUSIVE_MODE_NOT_ALLOWED)];
        unfold wasapi_warn, bind, emit, ret; cbv beta iota zeta;
        apply Hdone; trace_requests; reflexivity.
Qed.

Lemma wasapi_init_client_sh_requests (env : environment) (device : Z) (f : bool)
    (rate : Z) (latency : latency_ms) (t : trace) :
  let out := wasapi_init_client_sh env device f rate latency t in
  exists R, requests (snd out) = requests t ++ R /\ Forall request_ok R.
Proof.
  intros out. post_of out.
  unfold wasapi_init_client_sh, wasapi_com_err, wasapi_com_warn, WASAPI_RELEASE.
  unfold bind at 1. unfold api at 1. cbv beta zeta.
  generalize (env t (Activate device)). intros a.
  assert (Hdone : forall R o t2,
            requests t2 = requests t ++ R -> Forall request_ok R -> post (o, t2)).
  { intros R o t2 E HR. unfold post. cbn [snd]. exists R. auto. }
  destruct (FAILED (hr a)).
  { unfold bind, emit, ret. eapply (Hdone []); [|constructor].
    trace_requests. reflexivity. }
  unfold bind at 1.
  assert (Hscan : forall o,
            o = wasapi_init_client_sh_formats env device f rate (val a) (hr a)
                  (t ++ [Api (Activate device) a]) ->
            exists R, requests (snd o) = requests t ++ R /\ Forall request_ok R).
  { intros o ->. destruct (Z.eqb_spec rate 0) as [-> | Hr].
    - rewrite wasapi_init_client_sh_formats_zero. exists [].
      trace_requests. split; [reflexivity | constructor].
    - rewrite wasapi_init_client_sh_formats_in_order by exact Hr.
      edestruct shared_in_order_requests as (R & HR & Hok). rewrite HR.
      trace_requests. eauto. }
  specialize (Hscan _ eq_refl).
  destruct (wasapi_init_client_sh_formats env device f rate (val a) (hr a) _)
    as [[x fl] t1].
  cbn [fst snd] in Hscan. destruct Hscan as (R & HR & Hok).
  destruct x as [c d h r | c d h | | c |];
    drive_all env; apply (Hdone R); auto; trace_requests; rewrite ?HR;
    rewrite ?app_nil_r; reflexivity.
Qed.

Lemma wasapi_init_client_ex_requests (env : environment) (device : Z) (f : bool)
    (rate : Z) (latency : latency_ms) (t : trace) :
  let out := wasapi_init_client_ex env device f rate latency t in
  exists R, requests (snd out) = requests t ++ R /\ Forall request_ok R.
Proof.
  intros out. post_of out.
  unfold wasapi_init_client_ex, wasapi_com_err, wasapi_com_warn, WASAPI_RELEASE.
  unfold bind at 1. unfold api at 1. cbv beta zeta.
  generalize (env t (Activate device)). intros a.
  assert (Hdone : forall R o t2,
            requests t2 = requests t ++ R -> Forall request_ok R -> post (o, t2)).
  { intros R o t2 E HR. unfold post. cbn [snd]. exists R. auto. }
  destruct (FAILED (hr a)).
  { unfold bind, emit, ret. eapply (Hdone []); [|constructor].
    trace_requests. reflexivity. }
  unfold bind at 1. unfold api at 1. cbv beta zeta.
  match goal with |- context [env ?h (GetDevicePeriod ?c)] =>
    generalize (env h (GetDevicePeriod c)); intros p end.
  destruct (FAILED (hr p)).
  { drive_all env; (eapply (Hdone []); [|constructor]); trace_requests;
      reflexivity. }
  unfold bind at 1.
  match goal with
  | |- context [wasapi_init_client_ex_formats env device latency f rate ?c ?d ?h ?t0] =>
      assert (Hscan : forall o,
                o = wasapi_init_client_ex_formats env device latency f rate c d h t0 ->
                exists R, requests (snd o) = requests t ++ R /\ Forall request_ok R);
      [ intros o ->; destruct (Z.eqb_spec rate 0) as [-> | Hr];
        [ rewrite wasapi_init_client_ex_formats_zero; exists [];
          trace_requests; split; [reflexivity | constructor]
        | rewrite wasapi_init_client_ex_formats_in_order by exact Hr;
          edestruct exclusive_in_order_requests as (R & HR & Hok); rewrite HR;
          trace_requests; eauto ]
      | specialize (Hscan _ eq_refl);
        destruct (wasapi_init_client_ex_formats env device latency f rate c d h t0)
          as [[x fl] t1] ]
  end.
  cbn [fst snd] in Hscan. destruct Hscan as (R & HR & Hok).
  destruct x as [c d h r | c d h | | c |];
    drive_all env; apply (Hdone R); auto; trace_requests; rewrite ?HR;
    rewrite ?app_nil_r; reflexivity.
Qed.

(** X9: every request a negotiation makes is well formed.  Whatever the
    platform answers, each [Initialize] call of [wasapi_init_client] asks
    for an event-driven stream that is not persisted, with a two-channel
    format of 16-bit PCM or 32-bit extensible samples whose block size and
    byte rate go with its sample size and rate, with the period equal to
    the buffer duration, and with both zero in shared mode. *)
Theorem negotiation_requests_well_formed (env : environment) (device : Z)
    (exclusive f : bool) (rate latency : Z) (t : trace) :
  let out := wasapi_init_client env device exclusive f rate latency t in
  exists R, requests (snd out) = requests t ++ R /\ Forall request_ok R.
Proof.
  intros out. post_of out. unfold wasapi_init_client, wasapi_err.
  assert (Hdone : forall R o t2,
            requests t2 = requests t ++ R -> Forall request_ok R -> post (o, t2)).
  { intros R o t2 E HR. unfold post. cbn [snd]. exists R. auto. }
  destruct exclusive; unfold bind at 1; unfold bind at 1.
  - destruct (wasapi_init_client_ex_requests env device f rate
                (LatRequested latency) t) as (R1 & HR1 & Hok1).
    destruct (wasapi_init_client_ex env device f rate _ t) as [n1 t1].
    cbn [fst snd] in HR1.
    destruct (Z.eqb_spec (n_client n1) NULL) as [E1 | E1].
    + unfold bind at 1.
      destruct (wasapi_init_client_sh_requests env device (n_float_fmt n1)
                  (n_rate n1) (n_latency n1) t1) as (R2 & HR2 & Hok2).
      destruct (wasapi_init_client_sh env device _ _ _ t1) as [n2 t2].
      cbn [fst snd] in HR2. unfold ret at 1.
      destruct (n_client n2 =? NULL); unfold bind, emit, ret; cbv beta iota zeta;
        apply (Hdone (R1 ++ R2)); try (apply Forall_app; auto);
        trace_requests; rewrite HR2, HR1, app_assoc; reflexivity.
    + unfold ret at 1. destruct (Z.eqb_spec (n_client n1) NULL); [contradiction|].
      unfold bind, emit, ret. cbv beta iota zeta. apply (Hdone R1); auto.
      trace_requests. exact HR1.
  - destruct (wasapi_init_client_sh_requests env device f rate
                (LatRequested latency) t) as (R1 & HR1 & Hok1).
    destruct (wasapi_init_client_sh env device f rate _ t) as [n1 t1].
    cbn [fst snd] in HR1.
    destruct (Z.eqb_spec (n_client n1) NULL) as [E1 | E1].
    + unfold bind at 1.
      destruct (wasapi_init_client_ex_requests env device (n_float_fmt n1)
                  (n_rate n1) (n_latency n1) t1) as (R2 & HR2 & Hok2).
      destruct (wasapi_init_client_ex env device _ _ _ t1) as [n2 t2].
      cbn [fst snd] in HR2. unfold ret at 1.
      destruct (n_client n2 =? NULL); unfold bind, emit, ret; cbv beta iota zeta;
        apply (Hdone (R1 ++ R2)); try (apply Forall_app; auto);
        trace_requests; rewrite HR2, HR1, app_assoc; reflexivity.
    + unfold ret at 1. destruct (Z.eqb_spec (n_client n1) NULL); [contradiction|].
      unfold bind, emit, ret. cbv beta iota zeta. apply (Hdone R1); auto.
      trace_requests. exact HR1.
Qed.

(** ** The request the engine accepted *)

Lemma last_request_app (a b : trace) :
  last_request (a ++ b) = fold_left last_request_step b (last_request a).
Proof. apply fold_left_app. Qed.

Ltac trace_last :=
  cbn [fst snd]; trace_tail; rewrite ?last_request_app;
  cbn [fold_left last_request_step].

Lemma wasapi_init_client_sh_turn_last (env : environment) (device : Z)
    (f : bool) (r client : Z) (t : trace) :
  let out := wasapi_init_client_sh_turn env device f r client t in
  match fst out with
  | Answered c _ h =>
      last_request (snd out)
      = Some (c, AUDCLNT_SHAREMODE_SHARED, wasapi_set_format f r, h)
  | _ => True
  end.
Proof.
  cbv zeta. unfold wasapi_init_client_sh_turn, wasapi_com_err.
  drive_all env; trace_last; auto.
Qed.

Lemma wasapi_init_client_ex_turn_last (env : environment) (device : Z)
    (latency : latency_ms) (f : bool) (r client : Z) (dur : ref_time) (t : trace) :
  let out := wasapi_init_client_ex_turn env device latency f r client dur t in
  match fst out with
  | Answered c _ h =>
      exists m, last_request (snd out) = Some (c, m, wasapi_set_format f r, h)
  | _ => True
  end.
Proof.
  cbv zeta. unfold wasapi_init_client_ex_turn, wasapi_com_err.
  drive_all env; trace_last; eauto.
Qed.

(** Where the scan of the candidates stops with an answer, that answer is
    the engine's to the last request, which asked for the candidate the scan
    stopped at; where it runs out of candidates, the last answer was
    "unsupported format". *)
Lemma shared_in_order_last (env : environment) (device : Z) (cs : list (bool * Z)) :
  forall (fl : bool) (client : Z) (h : HRESULT) (t : trace),
    let out := shared_in_order env device cs fl client h t in
    match fst (fst out) with
    | Break c _ h' r =>
        last_request (snd out)
        = Some (c, AUDCLNT_SHAREMODE_SHARED,
                wasapi_set_format (snd (fst out)) r, h')
        /\ In (snd (fst out), r) cs
    | Fallthrough _ _ h' =>
        (cs = [] /\ h' = h) \/ h' = AUDCLNT_E_UNSUPPORTED_FORMAT
    | _ => True
    end.
Proof.
  induction cs as [| [f r] cs IH]; intros fl client h t out; post_of out.
  - unfold post. cbn. auto.
  - cbn [shared_in_order]. unfold bind at 1.
    pose proof (wasapi_init_client_sh_turn_last env device f r client t) as Hturn.
    cbv zeta in Hturn.
    destruct (wasapi_init_client_sh_turn env device f r client t) as [x t1].
    cbn [fst snd] in Hturn.
    destruct x as [c d h' | | c]; try (unfold ret, post; cbn [fst snd]; exact I).
    destruct (Z.eqb_spec h' AUDCLNT_E_UNSUPPORTED_FORMAT) as [-> | Hne].
    + unfold wasapi_warn, bind, emit. cbv beta iota zeta. unfold post.
      specialize (IH f c AUDCLNT_E_UNSUPPORTED_FORMAT
                    (t1 ++ [Logged WARN (Msg "Unsupported format")])).
      cbv zeta in IH.
      destruct (shared_in_order env device cs f c _ _) as [[x fl'] t2].
      cbn [fst snd] in IH |- *.
      destruct x as [c2 d2 h2 r2 | c2 d2 h2 | | c2 |]; auto.
      * destruct IH as (H1 & H2). split; [exact H1 | right; exact H2].
      * right. destruct IH as [(_ & ->) | ->]; reflexivity.
    + unfold ret, post. cbn [fst snd]. split; [exact Hturn | left; reflexivity].
Qed.

Lemma exclusive_in_order_last (env : environment) (device : Z)
    (latency : latency_ms) (cs : list (bool * Z)) :
  forall (fl : bool) (client : Z) (dur : ref_time) (h : HRESULT) (t : trace),
    let out := exclusive_in_order env device latency cs fl client dur h t in
    match fst (fst out) with
    | Break c _ h' r =>
        (exists m, last_request (snd out)
                   = Some (c, m, wasapi_set_format (snd (fst out)) r, h'))
        /\ In (snd (fst out), r) cs
    | Fallthrough _ _ h' =>
        (cs = [] /\ h' = h) \/ h' = AUDCLNT_E_UNSUPPORTED_FORMAT
    | _ => True
    end.
Proof.
  induction cs as [| [f r] cs IH]; intros fl client dur h t out; post_of out.
  - unfold post. cbn. auto.
  - cbn [exclusive_in_order]. unfold bind at 1.
    pose proof (wasapi_init_client_ex_turn_last env device latency f r client dur t)
      as Hturn.
    cbv zeta in Hturn.
    destruct (wasapi_init_client_ex_turn env device latency f r client dur t)
      as [x t1].
    cbn [fst snd] in Hturn.
    destruct x as [c d h' | | c]; try (unfold ret, post; cbn [fst snd]; exact I).
    destruct (Z.eqb_spec h' AUDCLNT_E_UNSUPPORTED_FORMAT) as [-> | Hne].
    + unfold wasapi_warn, bind, emit. cbv beta iota zeta. unfold post.
      specialize (IH f c d AUDCLNT_E_UNSUPPORTED_FORMAT
                    (t1 ++ [Logged WARN (Msg "Unsupported format")])).
      cbv zeta in IH.
      destruct (exclusive_in_order env device latency cs f c d _ _) as [[x fl'] t2].
      cbn [fst snd] in IH |- *.
      destruct x as [c2 d2 h2 r2 | c2 d2 h2 | | c2 |]; auto.
      * destruct IH as (H1 & H2). split; [exact H1 | right; exact H2].
      * right. destruct IH as [(_ & ->) | ->]; reflexivity.
    + destruct (h' =? AUDCLNT_E_DEVICE_IN_USE);
        [|destruct (h' =? AUDCLNT_E_EXCLUSIVE_MODE_NOT_ALLOWED)];
        unfold wasapi_warn, bind, emit, ret; cbv beta iota zeta; unfold post;
        cbn [fst snd]; try exact I.
      split; [exact Hturn | left; reflexivity].
Qed.

Lemma candidates_nonzero (f : bool) (rate : Z) (fl : bool) (r : Z) :
  rate <> 0 -> In (fl, r) (candidates f rate) -> r <> 0.
Proof.
  intros Hr Hin. unfold candidates, rates_in_order in Hin.
  apply in_app_or in Hin.
  assert (Hrates : forall g, In (fl, r)
                    (map (pair g) (rate :: filter (fun x => negb (x =? rate))
                                             preferred_rates)) -> r <> 0).
  { intros g H. apply in_map_iff in H. destruct H as (x & Hx & Hin').
    inversion Hx; subst. destruct Hin' as [<- | Hin']; [exact Hr|].
    apply filter_In in Hin'. destruct Hin' as (Hin' & _).
    unfold preferred_rates in Hin'. cbn in Hin'. intuition lia. }
  destruct Hin as [H | H]; eapply Hrates; exact H.
Qed.

(** What a successful attempt returns is what the engine accepted last. *)
Lemma wasapi_init_client_sh_last (env : environment) (device : Z) (f : bool)
    (rate : Z) (latency : latency_ms) (t : trace) :
  rate <> 0 ->
  let out := wasapi_init_client_sh env device f rate latency t in
  n_rate (fst out) <> 0
  /\ (n_client (fst out) <> NULL ->
      exists h,
        last_request (snd out)
        = Some (n_client (fst out), AUDCLNT_SHAREMODE_SHARED,
                wasapi_set_format (n_float_fmt (fst out)) (n_rate (fst out)), h)
        /\ FAILED h = false).
Proof.
  intros Hrate out. post_of out.
  unfold wasapi_init_client_sh, wasapi_com_err, wasapi_com_warn, WASAPI_RELEASE.
  unfold bind at 1. unfold api at 1. cbv beta zeta.
  generalize (env t (Activate device)). intros a.
  assert (Hfail : forall t2, post (mkNegotiated NULL f rate latency, t2)).
  { intros t2. unfold post. cbn [fst snd n_rate n_client]. split; [exact Hrate|].
    intros H. destruct (H eq_refl). }
  destruct (FAILED (hr a)).
  { unfold bind, emit, ret. apply Hfail. }
  unfold bind at 1.
  rewrite wasapi_init_client_sh_formats_in_order by exact Hrate.
  match goal with |- context [shared_in_order env device ?cs ?fl ?c ?h ?t0] =>
    pose proof (shared_in_order_last env device cs fl c h t0) as Hscan;
    cbv zeta in Hscan;
    destruct (shared_in_order env device cs fl c h t0) as [[x fl'] t1]
  end.
  cbn [fst snd] in Hscan.
  destruct x as [c d h r | c d h | | c |]; try (drive_all env; apply Hfail).
  - destruct Hscan as (Hlast & Hin).
    pose proof (candidates_nonzero f rate fl' r Hrate Hin) as Hr.
    destruct (FAILED h) eqn:Hh; [drive_all env; apply Hfail|].
    drive_all env; unfold post; cbn [fst snd n_rate n_client n_float_fmt];
      (split; [exact Hr|]); intros _; exists h; trace_last; auto.
  - destruct Hscan as [(Hc & _) | ->].
    + destruct (candidates_not_nil f rate Hc).
    + rewrite FAILED_unsupported. drive_all env; apply Hfail.
Qed.

Lemma wasapi_init_client_ex_last (env : environment) (device : Z) (f : bool)
    (rate : Z) (latency : latency_ms) (t : trace) :
  rate <> 0 ->
  let out := wasapi_init_client_ex env device f rate latency t in
  n_rate (fst out) <> 0
  /\ (n_client (fst out) <> NULL ->
      exists m h,
        last_request (snd out)
        = Some (n_client (fst out), m,
                wasapi_set_format (n_float_fmt (fst out)) (n_rate (fst out)), h)
        /\ FAILED h = false).
Proof.
  intros Hrate out. post_of out.
  unfold wasapi_init_client_ex, wasapi_com_err, wasapi_com_warn, WASAPI_RELEASE.
  unfold bind at 1. unfold api at 1. cbv beta zeta.
  generalize (env t (Activate device)). intros a.
  assert (Hfail : forall t2, post (mkNegotiated NULL f rate latency, t2)).
  { intros t2. unfold post. cbn [fst snd n_rate n_client]. split; [exact Hrate|].
    intros H. destruct (H eq_refl). }
  destruct (FAILED (hr a)).
  { unfold bind, emit, ret. apply Hfail. }
  unfold bind at 1. unfold api at 1. cbv beta zeta.
  match goal with |- context [env ?h (GetDevicePeriod ?c)] =>
    generalize (env h (GetDevicePeriod c)); intros p end.
  destruct (FAILED (hr p)).
  { drive_all env; apply Hfail. }
  unfold bind at 1.
  rewrite wasapi_init_client_ex_formats_in_order by exact Hrate.
  match goal with
  | |- context [exclusive_in_order env device latency ?cs ?fl ?c ?d ?h ?t0] =>
      pose proof (exclusive_in_order_last env device latency cs fl c d h t0) as Hscan;
      cbv zeta in Hscan;
      destruct (exclusive_in_order env device latency cs fl c d h t0)
        as [[x fl'] t1]
  end.
  cbn [fst snd] in Hscan.
  destruct x as [c d h r | c d h | | c |]; try (drive_all env; apply Hfail).
  - destruct Hscan as ((m & Hlast) & Hin).
    pose proof (candidates_nonzero f rate fl' r Hrate Hin) as Hr.
    destruct (FAILED h) eqn:Hh; [drive_all env; apply Hfail|].
    drive_all env; unfold post; cbn [fst snd n_rate n_client n_float_fmt];
      (split; [exact Hr|]); intros _; exists m, h; trace_last; auto.
  - destruct Hscan as [(Hc & _) | ->].
    + destruct (candidates_not_nil f rate Hc).
    + rewrite FAILED_unsupported. drive_all env; apply Hfail.
Qed.

Lemma wasapi_init_client_last (env : environment) (device : Z)
    (exclusive f : bool) (rate latency : Z) (t : trace) :
  rate <> 0 ->
  let out := wasapi_init_client env device exclusive f rate latency t in
  let n := snd (fst out) in
  n_client n <> NULL ->
  exists m h,
    last_request (snd out)
    = Some (n_client n, m, wasapi_set_format (n_float_fmt n) (n_rate n), h)
    /\ FAILED h = false
    /\ (fst (fst out) = false -> m = AUDCLNT_SHAREMODE_SHARED).
Proof.
  intros Hrate out n. subst n. post_of out. unfold wasapi_init_client, wasapi_err.
  destruct exclusive; unfold bind at 1; unfold bind at 1.
  - destruct (wasapi_init_client_ex_last env device f rate (LatRequested latency)
                t Hrate) as (Hr1 & H1).
    destruct (wasapi_init_client_ex env device f rate _ t) as [n1 t1].
    cbn [fst snd] in Hr1, H1.
    destruct (Z.eqb_spec (n_client n1) NULL) as [E1 | E1].
    + unfold bind at 1.
      destruct (wasapi_init_client_sh_last env device (n_float_fmt n1) (n_rate n1)
                  (n_latency n1) t1 Hr1) as (_ & H2).
      destruct (wasapi_init_client_sh env device _ _ _ t1) as [n2 t2].
      cbn [fst snd] in H2. unfold ret at 1.
      destruct (Z.eqb_spec (n_client n2) NULL) as [E2 | E2];
        unfold bind, emit, ret; cbv beta iota zeta; unfold post; cbn [fst snd];
        intros Hc; [contradiction|].
      destruct (H2 Hc) as (h & Hl & Hf).
      exists AUDCLNT_SHAREMODE_SHARED, h. trace_last. auto.
    + unfold ret at 1. destruct (Z.eqb_spec (n_client n1) NULL); [contradiction|].
      unfold bind, emit, ret. cbv beta iota zeta. unfold post. cbn [fst snd].
      intros Hc. destruct (H1 Hc) as (m & h & Hl & Hf).
      exists m, h. trace_last. split; [exact Hl|]. split; [exact Hf | discriminate].
  - destruct (wasapi_init_client_sh_last env device f rate (LatRequested latency)
                t Hrate) as (Hr1 & H1).
    destruct (wasapi_init_client_sh env device f rate _ t) as [n1 t1].
    cbn [fst snd] in Hr1, H1.
    destruct (Z.eqb_spec (n_client n1) NULL) as [E1 | E1].
    + unfold bind at 1.
      destruct (wasapi_init_client_ex_last env device (n_float_fmt n1) (n_rate n1)
                  (n_latency n1) t1 Hr1) as (_ & H2).
      destruct (wasapi_init_client_ex env device _ _ _ t1) as [n2 t2].
      cbn [fst snd] in H2. unfold ret at 1.
      destruct (Z.eqb_spec (n_client n2) NULL) as [E2 | E2];
        unfold bind, emit, ret; cbv beta iota zeta; unfold post; cbn [fst snd];
        intros Hc; [contradiction|].
      destruct (H2 Hc) as (m & h & Hl & Hf).
      exists m, h. trace_last. split; [exact Hl|]. split; [exact Hf | discriminate].
    + unfold ret at 1. destruct (Z.eqb_spec (n_client n1) NULL); [contradiction|].
      unfold bind, emit, ret. cbv beta iota zeta. unfold post. cbn [fst snd].
      intros Hc. destruct (H1 Hc) as (h & Hl & Hf).
      exists AUDCLNT_SHAREMODE_SHARED, h. trace_last. auto.
Qed.

(** ** After the negotiation *)

(** What a successful [wasapi_init] does once the client is negotiated. *)
Lemma wasapi_init_tail (env : environment) (settings : wasapi_settings)
    (dev_id : option string) (rate latency : Z) (t : trace)
    (w : wasapi_t) (new_rate : option Z) (t' : trace) :
  wasapi_init env settings dev_id rate latency t = (Some w, new_rate, t') ->
  let t0 := t ++ answered env t [calloc BlkHandle; CoInitializeEx] in
  let resolved := wasapi_init_resolve env dev_id t0 in
  let negotiation :=
    wasapi_init_client env (fst resolved) (exclusive_mode settings)
      (float_format settings) rate latency (snd resolved) in
  exists b staging ev se gs gb rb,
    let frames := to_uint32 (val b) in
    t' = snd negotiation
         ++ Api (GetBufferSize (client w)) b :: staging
         ++ [Api CreateEventA ev;
             Api (SetEventHandle (client w) (write_event w)) se;
             Api (GetService (client w)) gs;
             Api (GetBuffer (renderer w) frames) gb;
             Api (ReleaseBuffer (renderer w) frames AUDCLNT_BUFFERFLAGS_SILENT) rb]
    /\ ((has_buffer w = false /\ staging = [])
        \/ (has_buffer w = true
            /\ exists mb, staging = [Api (malloc BlkStaging (buffer_size w)) mb]))
    /\ buffer_size w = frames * frame_size w
    /\ FAILED (hr gb) = false /\ FAILED (hr rb) = false
    /\ has_buffer w = fst (fst negotiation)
    /\ client w = n_client (snd (fst negotiation))
    /\ frame_size w = (if n_float_fmt (snd (fst negotiation)) then 8 else 4)
    /\ new_rate = Some (n_rate (snd (fst negotiation)))
    /\ staging_sized w /\ buffer_usage w = 0
    /\ blocking w = false /\ running w = false.
Proof.
  unfold wasapi_init, wasapi_err, wasapi_com_err, wasapi_sys_err.
  unfold bind at 1. unfold api at 1. cbv beta zeta. cbn [answered app].
  generalize (env t (calloc BlkHandle)). intros m.
  destruct (val m =? NULL); [run_driver; intros; discriminate|].
  unfold bind at 1. unfold api at 1. cbv beta zeta.
  match goal with |- context [env ?h CoInitializeEx] =>
    generalize (env h CoInitializeEx); intros ci end.
  destruct (FAILED (hr ci)).
  { init_failed. }
  unfold bind at 1. rewrite <- app_assoc. cbn [app].
  destruct (wasapi_init_resolve env dev_id _) as [dev t2]. cbn [fst snd].
  destruct (Z.eqb_spec dev NULL) as [|Hdev]; [init_failed|].
  unfold bind at 1.
  destruct (wasapi_init_client env dev _ _ rate latency t2) as [[exclusive n] t3].
  cbn [fst snd].
  destruct (Z.eqb_spec (n_client n) NULL) as [|Hcl]; [init_failed|].
  unfold bind at 1. unfold api at 1. cbv beta zeta.
  generalize (env t3 (GetBufferSize (n_client n))). intros b.
  destruct (FAILED (hr b)).
  { init_failed. }
  assert (Hframes : 0 <= to_uint32 (val b) < 2 ^ 32).
  { unfold to_uint32. apply Z.mod_pos_bound. reflexivity. }
  assert (Hsize : to_size_t (to_uint32 (val b) * (if n_float_fmt n then 8 else 4))
                  = to_uint32 (val b) * (if n_float_fmt n then 8 else 4)).
  { apply to_size_t_small. change (2 ^ 64) with (2 ^ 32 * 2 ^ 32).
    change (2 ^ 32) with 4294967296 in *. destruct (n_float_fmt n); lia. }
  rewrite Hsize.
  set (fsize := if n_float_fmt n then 8 else 4) in *.
  set (frames := to_uint32 (val b)) in *.
  assert (Hrest : forall (w0 : wasapi_t) (t4 : trace),
    (ev <- api env CreateEventA ;;
     let w1 := mkWasapi (device w0) (client w0) (renderer w0) (val ev)
                 (buffer w0) (buffer_size w0) (buffer_usage w0) (frame_size w0)
                 (blocking w0) (running w0) in
     if val ev =? NULL then
       (e <- api env GetLastError ;;
        emit (Logged ERR (MsgSysFailed "CreateEventA" (val e)))) ;;
       r <- wasapi_init_error env w1 true ;; ret (r, Some (n_rate n))
     else
       se <- api env (SetEventHandle (client w1) (write_event w1)) ;;
       if FAILED (hr se) then
         emit (Logged ERR (MsgComFailed "IAudioClient::SetEventHandle" (hr se))) ;;
         r <- wasapi_init_error env w1 true ;; ret (r, Some (n_rate n))
       else
         gs <- api env (GetService (client w1)) ;;
         if FAILED (hr gs) then
           emit (Logged ERR (MsgComFailed "IAudioClient::GetService" (hr gs))) ;;
           r <- wasapi_init_error env w1 true ;; ret (r, Some (n_rate n))
         else
           let w2 := mkWasapi (device w1) (client w1) (val gs) (write_event w1)
                       (buffer w1) (buffer_size w1) (buffer_usage w1)
                       (frame_size w1) (blocking w1) (running w1) in
           gb <- api env (GetBuffer (renderer w2) frames) ;;
           if FAILED (hr gb) then
             emit (Logged ERR (MsgComFailed "IAudioRenderClient::GetBuffer" (hr gb))) ;;
             r <- wasapi_init_error env w2 true ;; ret (r, Some (n_rate n))
           else
             rb <- api env (ReleaseBuffer (renderer w2) frames
                              AUDCLNT_BUFFERFLAGS_SILENT) ;;
             if FAILED (hr rb) then
               emit (Logged ERR
                       (MsgComFailed "IAudioRenderClient::ReleaseBuffer" (hr rb))) ;;
               r <- wasapi_init_error env w2 true ;; ret (r, Some (n_rate n))
             else ret (Some w2, Some (n_rate n))) t4 = (Some w, new_rate, t') ->
    exists ev se gs gb rb,
      t' = t4 ++ [Api CreateEventA ev;
                  Api (SetEventHandle (client w) (write_event w)) se;
                  Api (GetService (client w)) gs;
                  Api (GetBuffer (renderer w) frames) gb;
                  Api (ReleaseBuffer (renderer w) frames AUDCLNT_BUFFERFLAGS_SILENT) rb]
      /\ FAILED (hr gb) = false /\ FAILED (hr rb) = false
      /\ client w = client w0 /\ buffer w = buffer w0
      /\ buffer_size w = buffer_size w0 /\ frame_size w = frame_size w0
      /\ new_rate = Some (n_rate n)
      /\ buffer_usage w = buffer_usage w0 /\ blocking w = blocking w0
      /\ running w = running w0).
  { intros w0 t4.
    unfold bind at 1. unfold api at 1. cbv beta zeta.
    generalize (env t4 CreateEventA). intros ev.
    cbn [device client renderer write_event buffer buffer_size buffer_usage
         frame_size blocking running].
    destruct (val ev =? NULL).
    { init_failed. }
    unfold bind at 1. unfold api at 1. cbv beta zeta.
    match goal with |- context [env ?h (SetEventHandle ?a ?b)] =>
      generalize (env h (SetEventHandle a b)); intros se end.
    destruct (FAILED (hr se)).
    { init_failed. }
    unfold bind at 1. unfold api at 1. cbv beta zeta.
    match goal with |- context [env ?h (GetService ?a)] =>
      generalize (env h (GetService a)); intros gs end.
    destruct (FAILED (hr gs)).
    { init_failed. }
    unfold bind at 1. unfold api at 1. cbv beta zeta.
    match goal with |- context [env ?h (GetBuffer ?a ?b)] =>
      generalize (env h (GetBuffer a b)); intros gb end.
    destruct (FAILED (hr gb)) eqn:Hgb.
    { init_failed. }
    unfold bind at 1. unfold api at 1. cbv beta zeta.
    match goal with |- context [env ?h (ReleaseBuffer ?a ?b ?c)] =>
      generalize (env h (ReleaseBuffer a b c)); intros rb end.
    destruct (FAILED (hr rb)) eqn:Hrb.
    { init_failed. }
    unfold ret. intros H. inversion H; subst. cbn.
    exists ev, se, gs, gb, rb. trace_tail. auto 15. }
  destruct exclusive.
  - unfold bind at 1. unfold api at 1. cbv beta zeta.
    match goal with |- context [env ?h (malloc ?a ?b)] =>
      generalize (env h (malloc a b)); intros mb end.
    destruct (val mb =? NULL).
    { init_failed. }
    intros H. apply Hrest in H.
    destruct H as (ev & se & gs & gb & rb & Ht & Hgb & Hrb & Hc & Hb & Hbs & Hfs & Hnr
                   & Hu & Hbl & Hru).
    cbn [client buffer buffer_size frame_size set_buffer buffer_usage blocking
         running] in Hc, Hb, Hbs, Hfs, Hu, Hbl, Hru.
    exists b, [Api (malloc BlkStaging (buffer_size w)) mb], ev, se, gs, gb, rb.
    cbv zeta. fold frames.
    assert (Hsized : staging_sized w).
    { intros _. unfold staging. rewrite Hb, Hbs. apply repeat_length. }
    rewrite Ht, Hc, Hbs, Hfs. unfold has_buffer. rewrite Hb.
    trace_tail. split; [reflexivity|]. split; [right; eauto|]. auto 20.
  - intros H. apply Hrest in H.
    destruct H as (ev & se & gs & gb & rb & Ht & Hgb & Hrb & Hc & Hb & Hbs & Hfs & Hnr
                   & Hu & Hbl & Hru).
    cbn [client buffer buffer_size frame_size buffer_usage blocking running]
      in Hc, Hb, Hbs, Hfs, Hu, Hbl, Hru.
    exists b, [], ev, se, gs, gb, rb.
    cbv zeta. fold frames.
    assert (Hsized : staging_sized w).
    { unfold staging_sized, has_buffer. rewrite Hb. discriminate. }
    rewrite Ht, Hc, Hbs, Hfs. unfold has_buffer. rewrite Hb.
    trace_tail. split; [reflexivity|]. split; [left; auto|]. auto 20.
Qed.

(** X10: what the engine accepted is what the handle assumes.  When
    [wasapi_init] returns a handle for a requested rate other than 0, the
    last [Initialize] request of the open was made on the handle's client
    and was answered with success; its format is well formed, its block
    size is the handle's frame size, its sample rate is the rate reported
    through [new_rate], and it is the 32-bit format exactly when the handle
    says it uses float samples.  A handle without staging buffer was
    initialised in shared mode. *)
Theorem accepted_format_matches_handle (env : environment)
    (settings : wasapi_settings) (dev_id : option string) (rate latency : Z)
    (t : trace) (w : wasapi_t) (new_rate : option Z) (t' : trace) :
  rate <> 0 ->
  wasapi_init env settings dev_id rate latency t = (Some w, new_rate, t') ->
  exists m wf h,
    last_request t' = Some (client w, m, wf, h)
    /\ FAILED h = false
    /\ format_ok wf
    /\ nBlockAlign wf = frame_size w
    /\ new_rate = Some (nSamplesPerSec wf)
    /\ (wFormatTag wf = WAVE_FORMAT_EXTENSIBLE <-> wasapi_use_float w = true)
    /\ (has_buffer w = false -> m = AUDCLNT_SHAREMODE_SHARED).
Proof.
  intros Hrate Hinit.
  pose proof (wasapi_init_success _ _ _ _ _ _ _ _ _ Hinit) as Hs. cbv zeta in Hs.
  destruct Hs as (_ & _ & _ & Hcl & _).
  apply wasapi_init_tail in Hinit. cbv zeta in Hinit.
  destruct Hinit as (b & staging & ev & se & gs & gb & rb & Ht & Hst & _ & _ & _
                     & Hbuf & Hc & Hfs & Hnr & _).
  match type of Hc with
  | _ = n_client (snd (fst (wasapi_init_client env ?d ?e ?f rate latency ?t1))) =>
      pose proof (wasapi_init_client_last env d e f rate latency t1 Hrate) as Hlast;
      cbv zeta in Hlast;
      destruct (wasapi_init_client env d e f rate latency t1) as [[ex n] t3]
  end.
  cbn [fst snd] in *. rewrite Hc in Hcl.
  destruct (Hlast Hcl) as (m & h & Hl & Hf & Hm).
  exists m, (wasapi_set_format (n_float_fmt n) (n_rate n)), h.
  split.
  { rewrite Ht, last_request_app, Hc.
    destruct Hst as [(_ & ->) | (_ & mb & ->)]; exact Hl. }
  split; [exact Hf|]. split; [apply wasapi_set_format_ok|].
  unfold wasapi_use_float. rewrite Hfs, Hnr, Hbuf.
  unfold wasapi_set_format. destruct (n_float_fmt n); cbn;
    repeat split; auto; intros; discriminate.
Qed.

Lemma accepted_format_matches_handle_witness :
  exists m wf h,
    last_request opened_trace = Some (client opened_handle, m, wf, h)
    /\ FAILED h = false
    /\ format_ok wf
    /\ nBlockAlign wf = frame_size opened_handle
    /\ Some 48000 = Some (nSamplesPerSec wf)
    /\ (wFormatTag wf = WAVE_FORMAT_EXTENSIBLE
        <-> wasapi_use_float opened_handle = true)
    /\ (has_buffer opened_handle = false -> m = AUDCLNT_SHAREMODE_SHARED).
Proof.
  apply (accepted_format_matches_handle env_accepting (mkSettings true false) None
           48000 64 [] opened_handle (Some 48000) opened_trace).
  - discriminate.
  - exact opened_handle_init.
Defined.

(** X11: a fresh handle.  The handle [wasapi_init] returns is stopped
    and in non-blocking mode; in exclusive mode its staging buffer has
    [buffer_size] bytes and holds nothing yet.  The last thing the open did
    was to hand the engine its whole buffer, [buffer_size / frame_size]
    frames, flagged as silence, and the engine accepted it. *)
Theorem fresh_handle (env : environment) (settings : wasapi_settings)
    (dev_id : option string) (rate latency : Z) (t : trace)
    (w : wasapi_t) (new_rate : option Z) (t' : trace) :
  wasapi_init env settings dev_id rate latency t = (Some w, new_rate, t') ->
  wasapi_alive w = false /\ blocking w = false
  /\ staging_sized w /\ staged w = []
  /\ exists before frames gb rb,
       t' = before
            ++ [Api (GetBuffer (renderer w) frames) gb;
                Api (ReleaseBuffer (renderer w) frames AUDCLNT_BUFFERFLAGS_SILENT) rb]
       /\ frames * frame_size w = buffer_size w
       /\ FAILED (hr gb) = false /\ FAILED (hr rb) = false.
Proof.
  intros Hinit. apply wasapi_init_tail in Hinit. cbv zeta in Hinit.
  destruct Hinit as (b & staging & ev & se & gs & gb & rb & Ht & _ & Hbs & Hgb & Hrb
                     & _ & _ & _ & _ & Hsized & Hu & Hbl & Hru).
  split; [exact Hru|]. split; [exact Hbl|]. split; [exact Hsized|].
  split; [unfold staged; rewrite Hu; reflexivity|].
  eexists. exists (to_uint32 (val b)), gb, rb.
  split; [|auto].
  rewrite Ht.
  change (Api (GetBufferSize (client w)) b :: staging
          ++ [Api CreateEventA ev; Api (SetEventHandle (client w) (write_event w)) se;
              Api (GetService (client w)) gs;
              Api (GetBuffer (renderer w) (to_uint32 (val b))) gb;
              Api (ReleaseBuffer (renderer w) (to_uint32 (val b))
                     AUDCLNT_BUFFERFLAGS_SILENT) rb])
    with ((Api (GetBufferSize (client w)) b :: staging)
          ++ [Api CreateEventA ev; Api (SetEventHandle (client w) (write_event w)) se;
              Api (GetService (client w)) gs]
          ++ [Api (GetBuffer (renderer w) (to_uint32 (val b))) gb;
              Api (ReleaseBuffer (renderer w) (to_uint32 (val b))
                     AUDCLNT_BUFFERFLAGS_SILENT) rb]).
  rewrite !app_assoc. reflexivity.
Qed.

Lemma fresh_handle_witness :
  wasapi_alive opened_handle = false /\ blocking opened_handle = false
  /\ staging_sized opened_handle /\ staged opened_handle = []
  /\ exists before frames gb rb,
       opened_trace
       = before
         ++ [Api (GetBuffer (renderer opened_handle) frames) gb;
             Api (ReleaseBuffer (renderer opened_handle) frames
                    AUDCLNT_BUFFERFLAGS_SILENT) rb]
       /\ frames * frame_size opened_handle = buffer_size opened_handle
       /\ FAILED (hr gb) = false /\ FAILED (hr rb) = false.
Proof.
  apply (fresh_handle env_accepting (mkSettings true false) None 48000 64 []
           opened_handle (Some 48000) opened_trace).
  exact opened_handle_init.
Defined.

(** ** The first exclusive-mode request *)

Lemma wasapi_init_client_ex_turn_first (env : environment) (device : Z)
    (latency : latency_ms) (f : bool) (r client : Z) (dur : ref_time) (t : trace) :
  let out := wasapi_init_client_ex_turn env device latency f r client dur t in
  exists R,
    requests (snd out)
    = requests t
      ++ Initialize client AUDCLNT_SHAREMODE_EXCLUSIVE stream_flags dur dur
           (wasapi_set_format f r) :: R.
Proof.
  cbv zeta. unfold wasapi_init_client_ex_turn, wasapi_com_err.
  drive_all env; trace_requests; eexists; reflexivity.
Qed.

(** X12: the buffer an exclusive-mode attempt asks for first.  When the
    client is activated and reports its periods, and the requested rate is
    not 0, the first request of [wasapi_init_client_ex] is made on that
    client, in exclusive mode, for the requested format and rate, with a
    buffer duration of two thirds of the requested latency (in 100 ns
    units, rounded down) but not less than the device's minimum period, and
    with the period equal to that duration. *)
Theorem exclusive_first_request (env : environment) (device : Z) (f : bool)
    (rate ms : Z) (t : trace) :
  rate <> 0 ->
  let a := env t (Activate device) in
  let p := env (t ++ [Api (Activate device) a]) (GetDevicePeriod (val a)) in
  FAILED (hr a) = false -> FAILED (hr p) = false ->
  let d := Z.max (ms * 20000 / 3) (val2 p) in
  exists R,
    requests (snd (wasapi_init_client_ex env device f rate (LatRequested ms) t))
    = requests t
      ++ Initialize (val a) AUDCLNT_SHAREMODE_EXCLUSIVE
           (Z.lor AUDCLNT_STREAMFLAGS_EVENTCALLBACK AUDCLNT_STREAMFLAGS_NOPERSIST)
           (Ticks d) (Ticks d) (wasapi_set_format f rate) :: R.
Proof.
  intros Hrate a p Ha Hp d.
  match goal with |- exists R, requests (snd ?o) = _ => set (out := o) end.
  pattern out. match goal with |- ?P _ => set (post := P) end. subst out.
  unfold wasapi_init_client_ex, wasapi_com_err, wasapi_com_warn, WASAPI_RELEASE.
  unfold bind at 1. unfold api at 1. cbv beta zeta. fold a. rewrite Ha.
  unfold bind at 1. unfold api at 1. cbv beta zeta. fold p. rewrite Hp.
  unfold bind at 1.
  rewrite wasapi_init_client_ex_formats_in_order by exact Hrate.
  assert (Hd : (if latency_ticks (LatRequested ms) <? val2 p then val2 p
                else latency_ticks (LatRequested ms)) = d).
  { unfold d, latency_ticks. destruct (Z.ltb_spec (ms * 20000 / 3) (val2 p)); lia. }
  rewrite Hd.
  unfold candidates, rates_in_order. cbn [map app exclusive_in_order].
  unfold bind at 1.
  match goal with
  | |- context [wasapi_init_client_ex_turn env device ?l f rate ?c ?dur ?t0] =>
      destruct (wasapi_init_client_ex_turn_first env device l f rate c dur t0)
        as (R1 & HR1);
      destruct (wasapi_init_client_ex_turn env device l f rate c dur t0) as [x t1]
  end.
  cbn [fst snd] in HR1. revert HR1. trace_requests. intros HR1.
  assert (Hdone : forall R2 o t2, requests t2 = requests t1 ++ R2 -> post (o, t2)).
  { intros R2 o t2 E. unfold post. cbn [snd]. rewrite E, HR1, <- app_assoc.
    cbn [app]. eexists. reflexivity. }
  destruct x as [c dd h' | | c].
  - destruct (h' =? AUDCLNT_E_UNSUPPORTED_FORMAT).
    + unfold wasapi_warn, bind at 1 2, emit. cbv beta iota zeta.
      match goal with
      | |- context [exclusive_in_order env device ?l ?cs ?fl ?c0 ?d0 ?h0 ?t0] =>
          destruct (exclusive_in_order_requests env device l cs fl c0 d0 h0 t0)
            as (R2 & HR2 & _);
          destruct (exclusive_in_order env device l cs fl c0 d0 h0 t0)
            as [[x fl'] t2]
      end.
      cbn [fst snd] in HR2. revert HR2. trace_requests. intros HR2.
      destruct x; drive_all env; (lazymatch goal with |- post (?o, ?t2) => apply (Hdone R2 o t2) end); trace_requests;
        rewrite ?HR2; reflexivity.
    + destruct (h' =? AUDCLNT_E_DEVICE_IN_USE);
        [|destruct (h' =? AUDCLNT_E_EXCLUSIVE_MODE_NOT_ALLOWED)];
        unfold wasapi_warn; drive_all env; (lazymatch goal with |- post (?o, ?t2) => apply (Hdone [] o t2) end); trace_requests;
        rewrite ?app_nil_r; reflexivity.
  - drive_all env; (lazymatch goal with |- post (?o, ?t2) => apply (Hdone [] o t2) end); trace_requests;
      rewrite ?app_nil_r; reflexivity.
  - drive_all env; (lazymatch goal with |- post (?o, ?t2) => apply (Hdone [] o t2) end); trace_requests;
      rewrite ?app_nil_r; reflexivity.
Qed.

Lemma exclusive_first_request_witness :
  exists R,
    requests (snd (wasapi_init_client_ex env_accepting 1 false 48000
                     (LatRequested 64) []))
    = requests []
      ++ Initialize 1 AUDCLNT_SHAREMODE_EXCLUSIVE
           (Z.lor AUDCLNT_STREAMFLAGS_EVENTCALLBACK AUDCLNT_STREAMFLAGS_NOPERSIST)
           (Ticks 426666) (Ticks 426666) (wasapi_set_format false 48000) :: R.
Proof.
  apply (exclusive_first_request env_accepting 1 false 48000 64 []).
  - discriminate.
  - reflexivity.
  - reflexivity.
Defined.

(** ** A requested rate of 0 *)

(** X13: a requested rate of 0 ends the list of rates before it starts.
    With rate 0 the shared-mode negotiator makes no request at all; when
    the client can be activated it is returned as if it had been
    initialised, with rate 0 and the sample format opposite to the one
    asked for; the only calls made are the activation and the two latency
    queries. *)
Theorem zero_rate_requests_nothing (env : environment) (device : Z) (f : bool)
    (latency : latency_ms) (t : trace) :
  let a := env t (Activate device) in
  let out := wasapi_init_client_sh env device f 0 latency t in
  requests (snd out) = requests t
  /\ (FAILED (hr a) = false ->
      n_client (fst out) = val a /\ n_rate (fst out) = 0
      /\ n_float_fmt (fst out) = negb f)
  /\ (FAILED (hr a) = true -> fst out = mkNegotiated NULL f 0 latency).
Proof.
  intros a out. post_of out.
  unfold wasapi_init_client_sh, wasapi_com_err, wasapi_com_warn, WASAPI_RELEASE.
  unfold bind at 1. unfold api at 1. cbv beta zeta. fold a.
  destruct (FAILED (hr a)) eqn:Ha.
  - run_driver. unfold post. trace_requests. split; [reflexivity|].
    split; [discriminate | reflexivity].
  - unfold bind at 1. rewrite wasapi_init_client_sh_formats_zero. rewrite Ha.
    drive_all env; unfold post; trace_requests; cbn [n_client n_rate n_float_fmt];
      (split; [reflexivity|]); (split; [auto | discriminate]).
Qed.

(** * Device enumeration *)

Lemma appended_app (a b : list_trace) : appended (a ++ b) = appended a ++ appended b.
Proof. apply flat_map_app. Qed.

Lemma announced_app (a b : list_trace) :
  announced (a ++ b) = announced a ++ announced b.
Proof. apply flat_map_app. Qed.

Lemma lists_freed_app (a b : list_trace) :
  lists_freed (a ++ b) = lists_freed a ++ lists_freed b.
Proof. apply flat_map_app. Qed.

Lemma endpoints_asked_app (a b : list_trace) :
  endpoints_asked (a ++ b) = endpoints_asked a ++ endpoints_asked b.
Proof. apply flat_map_app. Qed.

Lemma counts_reported_app (a b : list_trace) :
  counts_reported (a ++ b) = counts_reported a ++ counts_reported b.
Proof. apply flat_map_app. Qed.

Lemma list_held_app (k : list_resource) (a b : list_trace) :
  list_held k (a ++ b) = list_held k a + list_held k b.
Proof.
  induction a as [| e a IH]; cbn [app list_held]; [reflexivity | rewrite IH; ring].
Qed.

(** Run the enumeration symbolically, as [drive_all] runs the driver. *)
Ltac drive_list env :=
  repeat first
    [ progress cbv beta iota zeta delta
        [DeviceList.bind DeviceList.ret DeviceList.api DeviceList.emit
         fst snd negb andb orb]
    | progress change (NULL =? NULL) with true
    | match goal with
      | |- context [env ?h ?c] =>
          lazymatch h with
          | context [env _ _] => fail
          | _ => lazymatch c with
                 | context [env _ _] => fail
                 | _ => let r := fresh "r" in generalize (env h c); intros r
                 end
          end
      end
    | match goal with
      | |- context [if FAILED ?h then _ else _] => destruct (FAILED h) eqn:?
      | |- context [if ?a =? ?b then _ else _] => destruct (Z.eqb_spec a b)
      end ].

Ltac list_projections :=
  cbn [fst snd]; trace_tail;
  rewrite ?appended_app, ?announced_app, ?lists_freed_app, ?endpoints_asked_app,
    ?counts_reported_app;
  cbn [appended announced lists_freed endpoints_asked counts_reported
       flat_map app];
  rewrite ?app_nil_r.

Ltac list_count :=
  cbn [fst snd]; trace_tail; rewrite ?list_held_app; cbn [list_held list_gain gain].

(** Settle a count of the enumeration. *)
Ltac settle_list :=
  unfold granted;
  repeat match goal with H : FAILED _ = _ |- _ => rewrite H end;
  repeat match goal with
         | H : ?a = NULL |- context [owned ?a] => rewrite (owned_null a H)
         | H : ?a <> NULL |- context [owned ?a] => rewrite (owned_nonnull a H)
         end;
  change (owned NULL) with 0;
  match goal with
  | k : list_resource |- _ =>
      destruct k as [[[] | [] | | |] | | [] |];
      cbn [list_tally list_resource_eqb list_block_eqb tally resource_eqb
           iface_eqb block_eqb]; lia
  end.

(** ** Giving back *)

Lemma gives_back_seq {A B} (m1 : DeviceList.L A) (m2 : DeviceList.L B)
    (f1 f2 : list Z) (d1 d2 : list_resource -> Z) :
  gives_back m1 f1 d1 -> gives_back m2 f2 d2 ->
  gives_back (DeviceList.bind m1 (fun _ => m2)) (f1 ++ f2) (fun k => d1 k + d2 k).
Proof.
  intros H1 H2 t. unfold DeviceList.bind.
  specialize (H1 t). destruct (m1 t) as [a t1]. cbn [snd] in H1.
  specialize (H2 t1). destruct (m2 t1) as [b t2]. cbn [snd] in H2 |- *.
  destruct H1 as (A1 & A2 & A3 & A4 & A5 & A6).
  destruct H2 as (B1 & B2 & B3 & B4 & B5 & B6).
  repeat split; try congruence.
  - rewrite B5, A5, app_assoc. reflexivity.
  - intros k. rewrite B6, A6. lia.
Qed.

(** Show that a single step gives back [d]. *)
Ltac gives_back_step env :=
  intros t; drive_list env; list_projections;
  repeat (split; [reflexivity|]);
  let k := fresh "k" in intros k; list_count; settle_list.

Lemma WASAPI_FREE_gives_back (env : list_environment) (b : list_block) (p : Z) :
  gives_back (DeviceList.WASAPI_FREE env b p) []
    (fun k => list_tally k (StringBlock b) (owned p)).
Proof. unfold DeviceList.WASAPI_FREE. destruct b; gives_back_step env. Qed.

Lemma WASAPI_CO_FREE_gives_back (env : list_environment) (p : Z) :
  gives_back (DeviceList.WASAPI_CO_FREE env p) []
    (fun k => list_tally k (Shared TaskMemory) (owned p)).
Proof. unfold DeviceList.WASAPI_CO_FREE. gives_back_step env. Qed.

Lemma WASAPI_RELEASE_gives_back (env : list_environment) (i : iface) (p : Z) :
  gives_back (DeviceList.WASAPI_RELEASE env i p) []
    (fun k => list_tally k (Shared (Interface i)) (owned p)).
Proof. unfold DeviceList.WASAPI_RELEASE. destruct i; gives_back_step env. Qed.

Lemma release_store_gives_back (env : list_environment) (p : Z) :
  gives_back (if p =? NULL then DeviceList.ret tt
              else DeviceList.bind (DeviceList.api env (ReleaseStore p))
                     (fun _ => DeviceList.ret tt)) []
    (fun k => list_tally k PropertyStore (owned p)).
Proof. gives_back_step env. Qed.

Lemma clear_variant_gives_back (env : list_environment) (b : bool) :
  gives_back (if b then DeviceList.bind (DeviceList.api env PropVariantClear)
                          (fun _ => DeviceList.ret tt)
              else DeviceList.ret tt) [] (fun _ => 0).
Proof. destruct b; gives_back_step env. Qed.

Lemma free_list_gives_back (env : list_environment) (p : Z) :
  gives_back (if p =? NULL then DeviceList.ret tt
              else DeviceList.bind (DeviceList.api env (string_list_free p))
                     (fun _ => DeviceList.ret tt))
    (if p =? NULL then [] else [p])
    (fun k => list_tally k StringList (owned p)).
Proof.
  intros t. destruct (Z.eqb_spec p NULL); drive_list env; list_projections;
    repeat (split; [reflexivity|]); intros k; list_count; settle_list.
Qed.

Lemma wasapi_err_gives_back (msg : string) :
  gives_back (DeviceList.wasapi_err msg) [] (fun _ => 0).
Proof.
  intros t. unfold DeviceList.wasapi_err, DeviceList.emit. list_projections.
  repeat (split; [reflexivity|]). intros k. list_count. lia.
Qed.

Lemma ret_gives_back {A} (a : A) : gives_back (DeviceList.ret a) [] (fun _ => 0).
Proof.
  intros t. unfold DeviceList.ret. cbn [snd]. rewrite app_nil_r.
  repeat (split; [reflexivity|]). intros k. lia.
Qed.

(** The [error:] exit gives back whatever the locals stand for, frees the
    list when there is one, adds nothing to it, and yields [NULL]. *)
Lemma wasapi_device_list_error_spec (env : list_environment)
    (l : DeviceList.locals) :
  gives_back (DeviceList.wasapi_device_list_error env l)
    (if DeviceList.sl l =? NULL then [] else [DeviceList.sl l])
    (list_debt l)
  /\ forall t, fst (DeviceList.wasapi_device_list_error env l t) = NULL.
Proof.
  split.
  - assert (H : gives_back (DeviceList.wasapi_device_list_error env l)
                  ([] ++ [] ++ [] ++ [] ++ [] ++ [] ++ [] ++ [] ++ []
                   ++ (if DeviceList.sl l =? NULL then [] else [DeviceList.sl l])
                   ++ [] ++ [])
                  (fun k =>
                     list_tally k (StringBlock BlkDevId) (owned (DeviceList.dev_id_str l))
                     + (list_tally k (StringBlock BlkDevName)
                          (owned (DeviceList.dev_name_str l))
                     + (0
                     + (list_tally k PropertyStore (owned (DeviceList.prop_store l))
                     + (list_tally k (Shared TaskMemory)
                          (owned (DeviceList.dev_id_wstr l))
                     + (list_tally k (Shared TaskMemory) (owned NULL)
                     + (list_tally k (Shared (Interface IDevice))
                          (owned (DeviceList.device l))
                     + (list_tally k (Shared (Interface ICollection))
                          (owned (DeviceList.collection l))
                     + (list_tally k (Shared (Interface IEnumerator))
                          (owned (DeviceList.enumerator l))
                     + (list_tally k StringList (owned (DeviceList.sl l))
                     + (0 + 0)))))))))))).
    { unfold DeviceList.wasapi_device_list_error.
      repeat (apply gives_back_seq;
              [ first [ apply WASAPI_FREE_gives_back
                      | apply WASAPI_CO_FREE_gives_back
                      | apply WASAPI_RELEASE_gives_back
                      | apply release_store_gives_back
                      | apply clear_variant_gives_back
                      | apply free_list_gives_back
                      | apply wasapi_err_gives_back ] | ]).
      apply ret_gives_back. }
    cbn [app] in H. rewrite app_nil_r in H.
    intros t. specialize (H t).
    destruct H as (A1 & A2 & A3 & A4 & A5 & A6).
    repeat (split; [assumption|]).
    intros k. rewrite A6. unfold list_debt. settle_list.
  - intros t. unfold DeviceList.wasapi_device_list_error, DeviceList.bind,
      DeviceList.ret.
    repeat match goal with
           | |- context [let (_, _) := ?m ?t0 in _] => destruct (m t0)
           end.
    reflexivity.
Qed.

(** ** The loop *)

(** Leave the loop through [error:]: name what the exit leaves. *)
Ltac at_error_exit env :=
  match goal with
  | |- context [DeviceList.wasapi_device_list_error env ?l ?t0] =>
      let Hgb := fresh "Hgb" in
      let Hnull := fresh "Hnull" in
      destruct (wasapi_device_list_error_spec env l) as (Hgb & Hnull);
      specialize (Hgb t0); specialize (Hnull t0);
      destruct (DeviceList.wasapi_device_list_error env l t0) as [z te];
      cbn [fst snd DeviceList.sl] in Hgb, Hnull;
      destruct Hgb as (E1 & E2 & E3 & E4 & E5 & E6)
  end.

(** Use what the tests on the way have shown. *)
Ltac use_tests :=
  repeat match goal with
         | H : ?a = ?b |- context [?a =? ?b] => rewrite (proj2 (Z.eqb_eq a b) H)
         | H : ?a <> ?b |- context [?a =? ?b] => rewrite (proj2 (Z.eqb_neq a b) H)
         end;
  cbn [app].

Lemma Zseq_length (i : Z) (n : nat) : length (Zseq i n) = n.
Proof. revert i. induction n as [| n IH]; intros i; cbn; [|rewrite IH]; reflexivity. Qed.

Lemma wasapi_device_list_loop_spec (env : list_environment)
    (sl collection enumerator : Z) (n : nat) :
  forall (i : Z) (t : list_trace),
    let out := DeviceList.wasapi_device_list_loop env n sl collection enumerator i t in
    exists A m,
      appended (snd out) = appended t ++ A
      /\ endpoints_asked (snd out) = endpoints_asked t ++ Zseq i m
      /\ (length A <= m <= n)%nat
      /\ counts_reported (snd out) = counts_reported t
      /\ (fst out = true ->
          length A = n /\ m = n
          /\ announced (snd out) = announced t ++ A
          /\ lists_freed (snd out) = lists_freed t
          /\ forall k, list_held k (snd out) = list_held k t)
      /\ (fst out = false ->
          S (length A) = m
          /\ lists_freed (snd out) = lists_freed t ++ (if sl =? NULL then [] else [sl])
          /\ forall k,
               list_held k (snd out)
               = list_held k t
                 - (list_tally k (Shared (Interface ICollection)) (owned collection)
                    + list_tally k (Shared (Interface IEnumerator)) (owned enumerator)
                    + list_tally k StringList (owned sl))).
Proof.
  induction n as [| n IH]; intros i t out; post_of out.
  - unfold post. exists [], 0%nat. cbn. rewrite !app_nil_r.
    repeat split; auto; discriminate.
  - cbn [DeviceList.wasapi_device_list_loop].
    unfold DeviceList.wasapi_com_err, DeviceList.wasapi_sys_err,
      DeviceList.wasapi_err, DeviceList.WASAPI_FREE, DeviceList.WASAPI_CO_FREE,
      DeviceList.WASAPI_RELEASE.
    drive_list env;
      try (at_error_exit env; unfold post; cbn [fst snd];
           exists [], 1%nat; rewrite E1, E3, E4, E5; list_projections; use_tests;
           rewrite ?app_nil_r;
           split; [reflexivity|]; split; [reflexivity|]; split; [cbn; lia|];
           split; [reflexivity|]; split; [discriminate|]; intros _;
           split; [reflexivity|]; split; [reflexivity|]; intros k; rewrite E6; unfold list_debt;
           cbn [DeviceList.dev_id_str DeviceList.dev_name_str DeviceList.prop_store
                DeviceList.dev_id_wstr DeviceList.device DeviceList.collection
                DeviceList.enumerator DeviceList.sl];
           list_count; settle_list);
      match goal with
         | |- post (DeviceList.wasapi_device_list_loop env n _ _ _ _ ?t0) =>
             specialize (IH (i + 1) t0); cbv zeta in IH;
             destruct (DeviceList.wasapi_device_list_loop env n sl collection
                         enumerator (i + 1) t0) as [ok t1]
         end;
      cbn [fst snd] in IH; destruct IH as (A & m & H1 & H2 & H3 & H4 & H5 & H6);
      revert H1 H2 H4 H5 H6; list_projections; use_tests;
      intros H1 H2 H4 H5 H6;
      unfold post; cbn [fst snd];
      match type of H1 with
      | _ = (_ ++ [?s]) ++ A => exists (s :: A), (S m)
      end;
      (split; [rewrite H1, <- app_assoc; reflexivity|]);
      (split; [rewrite H2, <- app_assoc; reflexivity|]);
      (split; [cbn [length]; lia|]);
      (split; [exact H4|]);
      (split;
       [ intros Hok; destruct (H5 Hok) as (L1 & L2 & L3 & L4 & L5);
         split; [cbn [length]; lia|]; split; [lia|];
         split; [rewrite L3, <- app_assoc; reflexivity|];
         split; [exact L4|];
         intros k; rewrite L5; list_count; settle_list
       | intros Hok; destruct (H6 Hok) as (L0 & L1 & L2);
         split; [cbn [length]; lia|]; split; [exact L1|];
         intros k; rewrite L2; list_count; settle_list ]).
Qed.

(** ** The whole enumeration *)

Lemma wasapi_device_list_new_spec (env : list_environment) (t : list_trace) :
  let s := val (env t string_list_new) in
  let out := DeviceList.wasapi_device_list_new env t in
  exists A m,
    appended (snd out) = appended t ++ A
    /\ endpoints_asked (snd out) = endpoints_asked t ++ Zseq 0 m
    /\ (length A <= m)%nat
    /\ (forall k, list_held k (snd out)
                  = list_held k t + list_tally k StringList (owned (fst out)))
    /\ (fst out <> NULL ->
        fst out = s
        /\ length A = m
        /\ announced (snd out) = announced t ++ A
        /\ counts_reported (snd out) = counts_reported t ++ [m]
        /\ lists_freed (snd out) = lists_freed t)
    /\ (fst out = NULL ->
        length A = pred m
        /\ lists_freed (snd out) = lists_freed t ++ (if s =? NULL then [] else [s])).
Proof.
  intros s out. subst s. remember (env t string_list_new) as s0 eqn:Hs0.
  post_of out.
  unfold DeviceList.wasapi_device_list_new.
  unfold DeviceList.bind at 1. unfold DeviceList.api at 1. cbv beta zeta.
  rewrite <- Hs0. clear Hs0.
  unfold DeviceList.wasapi_com_err, DeviceList.wasapi_sys_err,
    DeviceList.wasapi_err, DeviceList.wasapi_log, DeviceList.WASAPI_RELEASE.
  drive_list env;
    try (unfold post; cbn [fst snd]; exists [], 0%nat; list_projections;
         split; [reflexivity|]; split; [reflexivity|]; split; [cbn; lia|];
         split; [intros k; list_count; settle_list|];
         split; [intros E; congruence|]; intros _; split; reflexivity);
    try (at_error_exit env; unfold post; cbn [fst snd]; subst z;
         exists [], 0%nat; rewrite E1, E3, E5, E2, E4; list_projections; use_tests;
         rewrite ?app_nil_r;
         split; [reflexivity|]; split; [reflexivity|]; split; [cbn; lia|];
         split; [intros k; rewrite E6; unfold list_debt;
                 cbn [DeviceList.dev_id_str DeviceList.dev_name_str
                      DeviceList.prop_store DeviceList.dev_id_wstr DeviceList.device
                      DeviceList.collection DeviceList.enumerator DeviceList.sl];
                 list_count; settle_list|];
         split; [intros E; congruence|]; intros _; split; reflexivity);
    match goal with
    | |- context [DeviceList.wasapi_device_list_loop env ?n ?a ?b ?c ?i ?t0] =>
        destruct (wasapi_device_list_loop_spec env a b c n i t0)
          as (A & m & H1 & H2 & H3 & H4 & H5 & H6);
        destruct (DeviceList.wasapi_device_list_loop env n a b c i t0) as [ok t1]
    end;
    cbn [fst snd] in H1, H2, H3, H4, H5, H6;
    revert H1 H2 H4 H5 H6; list_projections; use_tests; rewrite ?Heqb1;
    intros H1 H2 H4 H5 H6;
    (destruct ok;
     [ destruct (H5 eq_refl) as (L1 & L2 & L3 & L4 & L5); clear H5 H6
     | destruct (H6 eq_refl) as (L0 & L4 & L5); clear H5 H6 ]);
    drive_list env; unfold post; cbn [fst snd]; exists A, m; list_projections;
    (split; [exact H1|]); (split; [exact H2|]); (split; [lia|]);
    (split; [intros k; list_count; rewrite L5; list_count; settle_list|]);
    (split;
     [ intros E;
       first [ congruence
             | split; [reflexivity|]; split; [lia|]; split; [exact L3|];
               split; [rewrite L2; exact H4 | exact L4] ]
     | intros E; first [congruence | split; [lia | exact L4]] ]).
Qed.

(** X14: an enumeration that gives a list gives the one [string_list_new]
    made; the platform reported a count once, and every endpoint below that
    count was asked for in order, had its id announced and its id added to
    the list; no list was freed. *)
Theorem enumeration_lists_every_endpoint (env : list_environment) (t : list_trace) :
  let out := DeviceList.wasapi_device_list_new env t in
  fst out <> NULL ->
  exists ids,
    fst out = val (env t string_list_new)
    /\ counts_reported (snd out) = counts_reported t ++ [length ids]
    /\ endpoints_asked (snd out) = endpoints_asked t ++ Zseq 0 (length ids)
    /\ appended (snd out) = appended t ++ ids
    /\ announced (snd out) = announced t ++ ids
    /\ lists_freed (snd out) = lists_freed t.
Proof.
  intros out Hout.
  destruct (wasapi_device_list_new_spec env t)
    as (A & m & H1 & H2 & _ & _ & Hgood & _).
  fold out in H1, H2, Hgood.
  destruct (Hgood Hout) as (L1 & L2 & L3 & L4 & L5).
  exists A. subst m. auto 10.
Qed.

Lemma enumeration_lists_every_endpoint_witness :
  fst (DeviceList.wasapi_device_list_new env_two_devices []) <> NULL
  /\ exists ids,
       fst (DeviceList.wasapi_device_list_new env_two_devices [])
       = val (env_two_devices [] string_list_new)
       /\ counts_reported (snd (DeviceList.wasapi_device_list_new env_two_devices []))
          = counts_reported [] ++ [length ids]
       /\ endpoints_asked (snd (DeviceList.wasapi_device_list_new env_two_devices []))
          = endpoints_asked [] ++ Zseq 0 (length ids)
       /\ appended (snd (DeviceList.wasapi_device_list_new env_two_devices []))
          = appended [] ++ ids
       /\ announced (snd (DeviceList.wasapi_device_list_new env_two_devices []))
          = announced [] ++ ids
       /\ lists_freed (snd (DeviceList.wasapi_device_list_new env_two_devices []))
          = lists_freed [].
Proof.
  split; [vm_compute; discriminate|].
  apply (enumeration_lists_every_endpoint env_two_devices []).
  vm_compute; discriminate.
Defined.

(** X15: an enumeration that gives no list stopped at the first endpoint it
    could not handle: the endpoints were asked for in order, every endpoint
    asked for but the last had its id added, and the list, when one had been
    made, was freed once. *)
Theorem failed_enumeration_frees_list (env : list_environment) (t : list_trace) :
  let s := val (env t string_list_new) in
  let out := DeviceList.wasapi_device_list_new env t in
  fst out = NULL ->
  exists ids m,
    endpoints_asked (snd out) = endpoints_asked t ++ Zseq 0 m
    /\ appended (snd out) = appended t ++ ids
    /\ length ids = pred m
    /\ lists_freed (snd out) = lists_freed t ++ (if s =? NULL then [] else [s]).
Proof.
  intros s out Hout.
  destruct (wasapi_device_list_new_spec env t)
    as (A & m & H1 & H2 & _ & _ & _ & Hbad).
  fold out s in H1, H2, Hbad.
  destruct (Hbad Hout) as (L1 & L2).
  exists A, m. auto.
Qed.

Lemma failed_enumeration_frees_list_witness :
  fst (DeviceList.wasapi_device_list_new env_broken_store []) = NULL
  /\ exists ids m,
       endpoints_asked (snd (DeviceList.wasapi_device_list_new env_broken_store []))
       = endpoints_asked [] ++ Zseq 0 m
       /\ appended (snd (DeviceList.wasapi_device_list_new env_broken_store []))
          = appended [] ++ ids
       /\ length ids = pred m
       /\ lists_freed (snd (DeviceList.wasapi_device_list_new env_broken_store []))
          = lists_freed []
            ++ (if val (env_broken_store [] string_list_new) =? NULL then []
                else [val (env_broken_store [] string_list_new)]).
Proof.
  split; [vm_compute; reflexivity|].
  apply (failed_enumeration_frees_list env_broken_store []).
  vm_compute; reflexivity.
Defined.


